(** * libmbim-glib: MbimMessage, the fragment splitter and the fragment collector

    A shallow embedding of [src/libmbim-glib/mbim-message.c].

    - A [GByteArray] is the list of its [len] valid bytes.
    - A [guint32] is a [Z]; the wrap-around of the C arithmetic is written out
      ([add32], [sub32]).
    - The host byte order is a parameter of the model: a [guint32] struct field
      is read and written in host order ([native_load], [native_store]) and the
      code converts with [GUINT32_TO_LE] / [GUINT32_FROM_LE].
    - A computation either returns or leaves the defined behaviour of C
      ([exec]): a failed [g_assert], an access outside the valid bytes of a
      buffer, a division by zero, a [GByteArray] growing past [G_MAXUINT].
    - Functions that mutate [self] in place return the new contents of [self]
      next to their C return value. *)

From Stdlib Require Import String Ascii Strings.Byte Numbers.DecimalString.
From Stdlib Require Import ZArith List Bool Lia.
Import ListNotations.

Local Open Scope Z_scope.

(* ------------------------------------------------------------------------- *)
(** ** Bytes and 32-bit words *)

Definition Z_of_byte (b : byte) : Z := Z.of_N (Byte.to_N b).

Definition byte_of_Z (z : Z) : byte :=
  match Byte.of_N (Z.to_N (z mod 256)) with
  | Some b => b
  | None => x00
  end.

Definition wrap32 (z : Z) : Z := z mod 2 ^ 32.
Definition add32 (a b : Z) : Z := wrap32 (a + b).
Definition sub32 (a b : Z) : Z := wrap32 (a - b).

Definition G_MAXUINT : Z := 2 ^ 32 - 1.

(** The four bytes of a 32-bit word, least significant first. *)
Definition le_bytes (v : Z) : list byte :=
  [ byte_of_Z v;
    byte_of_Z (Z.shiftr v 8);
    byte_of_Z (Z.shiftr v 16);
    byte_of_Z (Z.shiftr v 24) ].

(** The word whose bytes, least significant first, are [bs]. *)
Fixpoint le_value (bs : list byte) : Z :=
  match bs with
  | [] => 0
  | b :: bs' => Z_of_byte b + 256 * le_value bs'
  end.

Inductive byte_order : Type := G_LITTLE_ENDIAN | G_BIG_ENDIAN.

(** What the host stores for, and loads from, a [guint32] lvalue. *)
Definition native_store (host : byte_order) (v : Z) : list byte :=
  match host with
  | G_LITTLE_ENDIAN => le_bytes v
  | G_BIG_ENDIAN => rev (le_bytes v)
  end.

Definition native_load (host : byte_order) (bs : list byte) : Z :=
  match host with
  | G_LITTLE_ENDIAN => le_value bs
  | G_BIG_ENDIAN => le_value (rev bs)
  end.

(** GLib's [GUINT32_SWAP_LE_BE]. *)
Definition GUINT32_SWAP_LE_BE (v : Z) : Z :=
  Z.lor (Z.lor (Z.lor (Z.shiftl (Z.land v 0xFF) 24)
                      (Z.shiftl (Z.land v 0xFF00) 8))
               (Z.shiftr (Z.land v 0xFF0000) 8))
        (Z.shiftr (Z.land v 0xFF000000) 24).

Definition GUINT32_TO_LE (host : byte_order) (v : Z) : Z :=
  match host with
  | G_LITTLE_ENDIAN => v
  | G_BIG_ENDIAN => GUINT32_SWAP_LE_BE v
  end.

Definition GUINT32_FROM_LE (host : byte_order) (v : Z) : Z :=
  GUINT32_TO_LE host v.

(* ------------------------------------------------------------------------- *)
(** ** Computations that may leave the defined behaviour of C *)

Inductive crash : Type :=
| AssertionFailed   (* g_assert *)
| OutOfBounds       (* access outside the [len] valid bytes of a buffer *)
| DivisionByZero
| ArrayOverflow.    (* g_array_maybe_expand: "adding %u to array would overflow" *)

Inductive exec (A : Type) : Type :=
| Returns (a : A)
| Crashes (c : crash).

Arguments Returns {A} a.
Arguments Crashes {A} c.

Definition bind {A B : Type} (m : exec A) (k : A -> exec B) : exec B :=
  match m with
  | Returns a => k a
  | Crashes c => Crashes c
  end.

Notation "x <- m ;; k" := (bind m (fun x => k))
  (at level 61, m at next level, right associativity).
Notation "' pat <- m ;; k" := (bind m (fun x => match x with pat => k end))
  (at level 61, pat pattern, m at next level, right associativity).
Notation "m ;;; k" := (bind m (fun _ => k))
  (at level 61, right associativity).

Definition g_assert (c : exec bool) : exec unit :=
  b <- c ;; if b then Returns tt else Crashes AssertionFailed.

(* ------------------------------------------------------------------------- *)
(** ** GLib: GByteArray, GArray, GError *)

Definition GByteArray : Type := list byte.

(** A [const guint8 *]: a position inside the valid bytes of some buffer. *)
Record guint8_ptr : Type := { region : list byte; offset : nat }.

Definition ptr_add (p : guint8_ptr) (n : Z) : guint8_ptr :=
  {| region := region p; offset := (offset p + Z.to_nat n)%nat |}.

(** [n] bytes read through a pointer. *)
Definition read_bytes (p : guint8_ptr) (n : Z) : exec (list byte) :=
  if Z.of_nat (offset p) + n <=? Z.of_nat (length (region p))
  then Returns (firstn (Z.to_nat n) (skipn (offset p) (region p)))
  else Crashes OutOfBounds.

(** A [guint32] lvalue at byte offset [off] of a buffer. *)
Definition load32 (host : byte_order) (off : nat) (buf : list byte) : exec Z :=
  if (off + 4 <=? length buf)%nat
  then Returns (native_load host (firstn 4 (skipn off buf)))
  else Crashes OutOfBounds.

Definition store32 (host : byte_order) (off : nat) (v : Z) (buf : list byte)
  : exec (list byte) :=
  if (off + 4 <=? length buf)%nat
  then Returns (firstn off buf ++ native_store host v ++ skipn (off + 4) buf)
  else Crashes OutOfBounds.

Definition g_byte_array_sized_new (reserved_size : Z) : GByteArray := [].

(** Growing leaves the new bytes as the heap had them: [uninit]. *)
Definition g_byte_array_set_size (uninit : nat -> byte)
    (array : GByteArray) (len : Z) : GByteArray :=
  let n := Z.to_nat len in
  if (n <=? length array)%nat then firstn n array
  else array ++ map uninit (seq (length array) (n - length array)).

Definition g_byte_array_append (array : GByteArray) (data : guint8_ptr) (len : Z)
  : exec GByteArray :=
  if G_MAXUINT - Z.of_nat (length array) <? len then Crashes ArrayOverflow
  else bytes <- read_bytes data len ;; Returns (array ++ bytes).

Definition g_array_insert_val {A : Type} (array : list A) (i : Z) (v : A) : list A :=
  firstn (Z.to_nat i) array ++ v :: skipn (Z.to_nat i) array.

Inductive GQuark : Type := MBIM_CORE_ERROR | MBIM_PROTOCOL_ERROR | MBIM_STATUS_ERROR.

Inductive error_code : Type :=
| MBIM_CORE_ERROR_FAILED
| MBIM_PROTOCOL_ERROR_FRAGMENT_OUT_OF_SEQUENCE.

Record GError : Type := { domain : GQuark; code : error_code; message : string }.

Definition g_set_error (d : GQuark) (c : error_code) (msg : string) : GError :=
  {| domain := d; code := c; message := msg |}.

(** printf's [%u]. *)
Definition fmt_u (v : Z) : string := NilZero.string_of_uint (N.to_uint (Z.to_N v)).

(** The result of a function that returns a value or sets a [GError]. *)
Inductive checked (A : Type) : Type :=
| Success (a : A)
| Failure (e : GError).

Arguments Success {A} a.
Arguments Failure {A} e.

(* ------------------------------------------------------------------------- *)
(** ** mbim-message.h and mbim-message-private.h *)

(** Modelled from the spec: the [MbimMessageType] enumerators of
    mbim-message.h, which is not among the sources; the values are those of
    the data model ("Message-type discriminant"). A C enum holds any 32-bit
    value, so a message type is a [Z]. *)
Definition MbimMessageType : Type := Z.
Definition MBIM_MESSAGE_TYPE_INVALID : MbimMessageType := 0x00000000.
Definition MBIM_MESSAGE_TYPE_OPEN : MbimMessageType := 0x00000001.
Definition MBIM_MESSAGE_TYPE_CLOSE : MbimMessageType := 0x00000002.
Definition MBIM_MESSAGE_TYPE_COMMAND : MbimMessageType := 0x00000003.
Definition MBIM_MESSAGE_TYPE_HOST_ERROR : MbimMessageType := 0x00000004.
Definition MBIM_MESSAGE_TYPE_OPEN_DONE : MbimMessageType := 0x80000001.
Definition MBIM_MESSAGE_TYPE_CLOSE_DONE : MbimMessageType := 0x80000002.
Definition MBIM_MESSAGE_TYPE_COMMAND_DONE : MbimMessageType := 0x80000003.
Definition MBIM_MESSAGE_TYPE_FUNCTION_ERROR : MbimMessageType := 0x80000004.
Definition MBIM_MESSAGE_TYPE_INDICATION : MbimMessageType := 0x80000007.

(** Modelled from the spec: the struct layouts of mbim-message-private.h, which
    is not among the sources; sizes and offsets are those of the wire format
    ("offset 0 type, offset 4 length, offset 8 transaction_id, offset 12
    payload; for fragmented types offsets 12..20 are the fragment header,
    payload follows at offset 20"). *)
Definition sizeof_header : Z := 12.
Definition sizeof_fragment_header : Z := 8.
Definition sizeof_open_message : Z := 4.
Definition offsetof_type : nat := 0.
Definition offsetof_length : nat := 4.
Definition offsetof_transaction_id : nat := 8.
Definition offsetof_open_max_control_transfer : nat := 12.
Definition offsetof_error_error_status_code : nat := 12.
Definition offsetof_fragment_total : nat := 12.
Definition offsetof_fragment_current : nat := 16.
Definition offsetof_fragment_buffer : nat := 20.

(** [struct header] and [struct fragment_header]; a field holds the [guint32]
    the code assigned to it. *)
Record header : Type :=
  { type : Z; length_ : Z; transaction_id : Z }.

Record fragment_header : Type :=
  { total : Z; current : Z }.

(** [struct fragment_info]. *)
Record fragment_info : Type :=
  { info_header : header;
    info_fragment_header : fragment_header;
    data_length : Z;
    data : guint8_ptr }.

Definition MbimMessage : Type := GByteArray.

Section Host.

Variable host : byte_order.

(** The bytes of a struct in the memory of the host. *)
Definition header_bytes (h : header) : list byte :=
  native_store host (type h) ++ native_store host (length_ h)
    ++ native_store host (transaction_id h).

Definition fragment_header_bytes (f : fragment_header) : list byte :=
  native_store host (total f) ++ native_store host (current f).

(** Modelled from the spec: the header accessor macros of
    mbim-message-private.h, which is not among the sources; they are written
    after [MBIM_MESSAGE_FRAGMENT_GET_TOTAL] of mbim-message.c and read "the
    header with host-to-little-endian conversion". *)
Definition MBIM_MESSAGE_GET_MESSAGE_TYPE (self : MbimMessage) : exec MbimMessageType :=
  v <- load32 host offsetof_type self ;; Returns (GUINT32_FROM_LE host v).

Definition MBIM_MESSAGE_GET_MESSAGE_LENGTH (self : MbimMessage) : exec Z :=
  v <- load32 host offsetof_length self ;; Returns (GUINT32_FROM_LE host v).

Definition MBIM_MESSAGE_GET_TRANSACTION_ID (self : MbimMessage) : exec Z :=
  v <- load32 host offsetof_transaction_id self ;; Returns (GUINT32_FROM_LE host v).

(* ------------------------------------------------------------------------- *)
(** ** mbim-message.c: generic message interface *)

Section Allocate.

Variable uninit : nat -> byte.

Definition _mbim_message_allocate (message_type : MbimMessageType)
    (transaction_id additional_size : Z) : exec GByteArray :=
  let len := add32 sizeof_header additional_size in
  let self := g_byte_array_sized_new len in
  let self := g_byte_array_set_size uninit self len in
  self <- store32 host offsetof_type (GUINT32_TO_LE host message_type) self ;;
  self <- store32 host offsetof_length (GUINT32_TO_LE host len) self ;;
  self <- store32 host offsetof_transaction_id (GUINT32_TO_LE host transaction_id) self ;;
  Returns self.

Definition mbim_message_open_new (transaction_id max_control_transfer : Z)
  : exec MbimMessage :=
  self <- _mbim_message_allocate MBIM_MESSAGE_TYPE_OPEN transaction_id
            sizeof_open_message ;;
  store32 host offsetof_open_max_control_transfer
    (GUINT32_TO_LE host max_control_transfer) self.

Definition mbim_message_close_new (transaction_id : Z) : exec MbimMessage :=
  _mbim_message_allocate MBIM_MESSAGE_TYPE_CLOSE transaction_id 0.

Definition mbim_message_error_new (transaction_id error_status_code : Z)
  : exec MbimMessage :=
  self <- _mbim_message_allocate MBIM_MESSAGE_TYPE_HOST_ERROR transaction_id
            sizeof_open_message ;;
  store32 host offsetof_error_error_status_code
    (GUINT32_TO_LE host error_status_code) self.

End Allocate.

Definition mbim_message_get_message_type (self : MbimMessage) : exec MbimMessageType :=
  MBIM_MESSAGE_GET_MESSAGE_TYPE self.

Definition mbim_message_get_message_length (self : MbimMessage) : exec Z :=
  MBIM_MESSAGE_GET_MESSAGE_LENGTH self.

Definition mbim_message_get_transaction_id (self : MbimMessage) : exec Z :=
  MBIM_MESSAGE_GET_TRANSACTION_ID self.

Definition mbim_message_new (data : guint8_ptr) (data_length : Z) : exec MbimMessage :=
  let out := g_byte_array_sized_new data_length in
  g_byte_array_append out data data_length.

Definition mbim_message_dup (self : MbimMessage) : exec MbimMessage :=
  len <- MBIM_MESSAGE_GET_MESSAGE_LENGTH self ;;
  mbim_message_new {| region := self; offset := 0 |} len.

(** The returned pair is the buffer handed out and the value stored in
    [*length]. *)
Definition mbim_message_get_raw (self : MbimMessage) : checked (list byte * Z) :=
  if (length self =? 0)%nat
  then Failure (g_set_error MBIM_CORE_ERROR MBIM_CORE_ERROR_FAILED "Message is empty")
  else Success (self, Z.of_nat (length self)).

(* ------------------------------------------------------------------------- *)
(** ** mbim-message.c: fragment interface *)

Definition MBIM_MESSAGE_IS_FRAGMENT (self : MbimMessage) : exec bool :=
  t <- MBIM_MESSAGE_GET_MESSAGE_TYPE self ;;
  Returns ((t =? MBIM_MESSAGE_TYPE_COMMAND)
           || (t =? MBIM_MESSAGE_TYPE_COMMAND_DONE)
           || (t =? MBIM_MESSAGE_TYPE_INDICATION)).

Definition MBIM_MESSAGE_FRAGMENT_GET_TOTAL (self : MbimMessage) : exec Z :=
  v <- load32 host offsetof_fragment_total self ;; Returns (GUINT32_FROM_LE host v).

Definition MBIM_MESSAGE_FRAGMENT_GET_CURRENT (self : MbimMessage) : exec Z :=
  v <- load32 host offsetof_fragment_current self ;; Returns (GUINT32_FROM_LE host v).

Definition _mbim_message_is_fragment (self : MbimMessage) : exec bool :=
  MBIM_MESSAGE_IS_FRAGMENT self.

Definition _mbim_message_fragment_get_total (self : MbimMessage) : exec Z :=
  g_assert (MBIM_MESSAGE_IS_FRAGMENT self) ;;;
  MBIM_MESSAGE_FRAGMENT_GET_TOTAL self.

Definition _mbim_message_fragment_get_current (self : MbimMessage) : exec Z :=
  g_assert (MBIM_MESSAGE_IS_FRAGMENT self) ;;;
  MBIM_MESSAGE_FRAGMENT_GET_CURRENT self.

(** The returned pair is the pointer handed out and the value stored in
    [*length]. *)
Definition _mbim_message_fragment_get_payload (self : MbimMessage)
  : exec (guint8_ptr * Z) :=
  g_assert (MBIM_MESSAGE_IS_FRAGMENT self) ;;;
  len <- MBIM_MESSAGE_GET_MESSAGE_LENGTH self ;;
  Returns ({| region := self; offset := offsetof_fragment_buffer |},
           sub32 (sub32 len sizeof_header) sizeof_fragment_header).

Definition out_of_sequence (expected_current expected_total got_current got_total : string)
  : GError :=
  g_set_error MBIM_PROTOCOL_ERROR MBIM_PROTOCOL_ERROR_FRAGMENT_OUT_OF_SEQUENCE
    ("Expecting fragment '" ++ expected_current ++ "/" ++ expected_total
       ++ "', got '" ++ got_current ++ "/" ++ got_total ++ "'")%string.

Definition _mbim_message_fragment_collector_init (fragment : MbimMessage)
  : exec (checked MbimMessage) :=
  g_assert (MBIM_MESSAGE_IS_FRAGMENT fragment) ;;;
  cur <- MBIM_MESSAGE_FRAGMENT_GET_CURRENT fragment ;;
  if negb (cur =? 0) then
    tot <- MBIM_MESSAGE_FRAGMENT_GET_TOTAL fragment ;;
    Returns (Failure (out_of_sequence "0" (fmt_u tot) (fmt_u cur) (fmt_u tot)))
  else
    copy <- mbim_message_dup fragment ;;
    Returns (Success copy).

(** Returns the contents of [self] after the call, and [Success tt] for TRUE
    or [Failure e] for FALSE with [*error] set to [e]. *)
Definition _mbim_message_fragment_collector_add (self fragment : MbimMessage)
  : exec (MbimMessage * checked unit) :=
  g_assert (MBIM_MESSAGE_IS_FRAGMENT self) ;;;
  g_assert (MBIM_MESSAGE_IS_FRAGMENT fragment) ;;;
  self_cur <- MBIM_MESSAGE_FRAGMENT_GET_CURRENT self ;;
  frag_cur <- MBIM_MESSAGE_FRAGMENT_GET_CURRENT fragment ;;
  if negb (self_cur =? sub32 frag_cur 1) then
    self_tot <- MBIM_MESSAGE_FRAGMENT_GET_TOTAL self ;;
    frag_tot <- MBIM_MESSAGE_FRAGMENT_GET_TOTAL fragment ;;
    Returns (self, Failure (out_of_sequence (fmt_u (add32 self_cur 1)) (fmt_u self_tot)
                                            (fmt_u frag_cur) (fmt_u frag_tot)))
  else
    '(buffer, buffer_len) <- _mbim_message_fragment_get_payload fragment ;;
    self <- (if negb (buffer_len =? 0) then
               self <- g_byte_array_append self buffer buffer_len ;;
               len <- MBIM_MESSAGE_GET_MESSAGE_LENGTH self ;;
               store32 host offsetof_length (GUINT32_TO_LE host (add32 len buffer_len)) self
             else Returns self) ;;
    raw_cur <- load32 host offsetof_fragment_current fragment ;;
    self <- store32 host offsetof_fragment_current raw_cur self ;;
    Returns (self, Success tt).

(** Returns the contents of [self] after the call and the [gboolean]. *)
Definition _mbim_message_fragment_collector_complete (self : MbimMessage)
  : exec (MbimMessage * bool) :=
  g_assert (MBIM_MESSAGE_IS_FRAGMENT self) ;;;
  cur <- MBIM_MESSAGE_FRAGMENT_GET_CURRENT self ;;
  tot <- MBIM_MESSAGE_FRAGMENT_GET_TOTAL self ;;
  if negb (cur =? sub32 tot 1) then Returns (self, false)
  else
    self <- store32 host offsetof_fragment_current 0 self ;;
    self <- store32 host offsetof_fragment_total (GUINT32_TO_LE host 1) self ;;
    Returns (self, true).

(** The body of the [for] loop of [_mbim_message_split_fragments], run [n]
    times from the walkers [i], [data], [data_length]; [array] is the GArray
    filled so far. *)
Fixpoint split_loop (self : MbimMessage)
    (fragment_header_length fragment_payload_length total_fragments : Z)
    (n : nat) (i : Z) (data : guint8_ptr) (data_length : Z)
    (array : list fragment_info) : exec (list fragment_info) :=
  match n with
  | O => Returns array
  | S n' =>
      let info_data := data in
      let info_data_length :=
        if data_length >? fragment_payload_length
        then fragment_payload_length else data_length in
      ty <- MBIM_MESSAGE_GET_MESSAGE_TYPE self ;;
      tid <- MBIM_MESSAGE_GET_TRANSACTION_ID self ;;
      let info :=
        {| info_header :=
             {| type := GUINT32_TO_LE host ty;
                length_ := GUINT32_TO_LE host (add32 fragment_header_length info_data_length);
                transaction_id := GUINT32_TO_LE host tid |};
           info_fragment_header :=
             {| total := GUINT32_TO_LE host total_fragments;
                current := GUINT32_TO_LE host i |};
           data_length := info_data_length;
           data := info_data |} in
      let array := g_array_insert_val array i info in
      split_loop self fragment_header_length fragment_payload_length total_fragments
        n' (add32 i 1) (ptr_add data info_data_length)
        (sub32 data_length info_data_length) array
  end.

(** [None] is the NULL returned when a single fragment is enough; otherwise
    the array of [*n_fragments] descriptors. *)
Definition _mbim_message_split_fragments (self : MbimMessage) (max_fragment_size : Z)
  : exec (option (list fragment_info)) :=
  total_message_length <- mbim_message_get_message_length self ;;
  if total_message_length <=? max_fragment_size then Returns None
  else
    let fragment_header_length := add32 sizeof_header sizeof_fragment_header in
    let total_payload_length := sub32 total_message_length fragment_header_length in
    let fragment_payload_length := sub32 max_fragment_size fragment_header_length in
    if fragment_payload_length =? 0 then Crashes DivisionByZero
    else
      let total_fragments := total_payload_length / fragment_payload_length in
      let total_fragments :=
        if negb (total_payload_length mod fragment_payload_length =? 0)
        then add32 total_fragments 1 else total_fragments in
      let array : list fragment_info := [] in
      let data := {| region := self; offset := offsetof_fragment_buffer |} in
      let data_length := total_payload_length in
      array <- split_loop self fragment_header_length fragment_payload_length
                 total_fragments (Z.to_nat total_fragments) 0 data data_length array ;;
      Returns (Some array).

(* ------------------------------------------------------------------------- *)
(** ** Fragments on the wire and the receive loop *)

(** Modelled from the spec: the transmit path of mbim-device.c, which is not
    among the sources, writes a descriptor as the 12-byte MBIM header, the
    8-byte fragment header and the borrowed payload slice ("on the wire,
    header.length = 12 + 8 + len(this fragment's slice)"). *)
Definition fragment_payload (info : fragment_info) : exec (list byte) :=
  read_bytes (data info) (data_length info).

Definition fragment_on_wire (info : fragment_info) : exec MbimMessage :=
  payload <- fragment_payload info ;;
  Returns (header_bytes (info_header info)
             ++ fragment_header_bytes (info_fragment_header info) ++ payload).

Fixpoint fragments_on_wire (infos : list fragment_info) : exec (list MbimMessage) :=
  match infos with
  | [] => Returns []
  | info :: rest =>
      m <- fragment_on_wire info ;;
      ms <- fragments_on_wire rest ;;
      Returns (m :: ms)
  end.

Fixpoint fragment_payloads (infos : list fragment_info) : exec (list byte) :=
  match infos with
  | [] => Returns []
  | info :: rest =>
      p <- fragment_payload info ;;
      ps <- fragment_payloads rest ;;
      Returns (p ++ ps)
  end.

(** Modelled from the spec: the receive path of mbim-device.c, which is not
    among the sources, drives the collector with "init on fragment 0, add on
    fragments 1..N-1, then complete". *)
Fixpoint collector_add_all (self : MbimMessage) (fragments : list MbimMessage)
  : exec (MbimMessage * checked unit) :=
  match fragments with
  | [] => Returns (self, Success tt)
  | fragment :: rest =>
      '(self, r) <- _mbim_message_fragment_collector_add self fragment ;;
      match r with
      | Success _ => collector_add_all self rest
      | Failure e => Returns (self, Failure e)
      end
  end.

Definition collect (fragments : list MbimMessage) : exec (checked (MbimMessage * bool)) :=
  match fragments with
  | [] => Crashes OutOfBounds
  | first :: rest =>
      r <- _mbim_message_fragment_collector_init first ;;
      match r with
      | Failure e => Returns (Failure e)
      | Success self =>
          '(self, r) <- collector_add_all self rest ;;
          match r with
          | Failure e => Returns (Failure e)
          | Success _ =>
              '(self, done) <- _mbim_message_fragment_collector_complete self ;;
              Returns (Success (self, done))
          end
      end
  end.

End Host.

(* ------------------------------------------------------------------------- *)
(** ** mbim-message.c: typed accessors and the printable dump *)

(** Modelled from the spec: the payload layouts of mbim-message-private.h,
    which is not among the sources ("OPEN_DONE, CLOSE_DONE: u32 status_code"
    right after the 12-byte header). *)
Definition offsetof_open_done_status_code : nat := 12.
Definition offsetof_close_done_status_code : nat := 12.

(** Modelled from the spec: mbim-error-types.h is not among the sources;
    "success is the enumerator named NONE (numeric value 0)". *)
Definition MBIM_STATUS_ERROR_NONE : Z := 0.

(** A [GError] whose code comes from a message: [value_code] is the [gint]
    that [g_error_new] and [g_set_error] take as [code]. *)
Record GErrorValue : Type :=
  { value_domain : GQuark; value_code : Z; value_message : string }.

(** A [guint32] passed as [gint code]: the enumerations of the error tables
    have no negative enumerator, so a status read from a message is an
    unsigned 32-bit value until the call converts it to 32-bit two's
    complement. *)
Definition to_gint (v : Z) : Z :=
  if wrap32 v <? 2 ^ 31 then wrap32 v else wrap32 v - 2 ^ 32.

(** printf on a format that comes without arguments: ordinary characters are
    copied and [%%] writes one [%]; any other conversion specification is
    invalid or takes an argument where none was passed, which reads outside
    what the caller gave, and C defines neither. *)
Fixpoint printf_no_arguments (format : string) : exec string :=
  match format with
  | EmptyString => Returns EmptyString
  | String c rest =>
      if Ascii.eqb c "%" then
        match rest with
        | String c' rest' =>
            if Ascii.eqb c' "%" then
              s <- printf_no_arguments rest' ;; Returns (String "%" s)
            else Crashes OutOfBounds
        | EmptyString => Crashes OutOfBounds
        end
      else
        s <- printf_no_arguments rest ;; Returns (String c s)
  end.

(** [g_strdup_vprintf (format, args)] for an empty argument list. A
    [const gchar *] is [None] when it is NULL; a NULL format has no byte to
    read. *)
Definition g_strdup_vprintf (format : option string) : exec string :=
  match format with
  | None => Crashes OutOfBounds
  | Some f => printf_no_arguments f
  end.

(** [g_error_new_valist (domain, code, format, args)] for an empty argument
    list: what [g_set_error (error, domain, code, format)] builds and stores
    in [*error] when the caller passes an [error] to set. *)
Definition g_error_new_valist (domain : GQuark) (code : Z) (format : option string)
  : exec GErrorValue :=
  message <- g_strdup_vprintf format ;;
  Returns {| value_domain := domain; value_code := code; value_message := message |}.

(** [g_return_val_if_fail (cond, val)]: when the check fails the function
    returns [val] at once. *)
Definition g_return_val_if_fail {A : Type} (cond : bool) (val : A) (k : exec A)
  : exec A :=
  if cond then k else Returns val.

Definition newline : string := String (ascii_of_nat 10) EmptyString.

Definition hex_digit (d : Z) : ascii :=
  match String.get (Z.to_nat d) "0123456789abcdef" with
  | Some c => c
  | None => "0"%char
  end.

(** printf's [%08x] of a [guint32]. *)
Definition fmt_08x (v : Z) : string :=
  string_of_list_ascii
    (map (fun k => hex_digit (Z.shiftr v (4 * Z.of_nat k) mod 16))
         [7; 6; 5; 4; 3; 2; 1; 0]%nat).

Section Accessors.

Variable host : byte_order.

(** The enumerators and name tables of mbim-error-types.h and
    mbim-enum-types.h, which are not among the sources. The names are used
    here as arguments of [%s] only and are given as the text it prints. *)
Variable MBIM_STATUS_ERROR_FAILURE : Z.
Variable MBIM_PROTOCOL_ERROR_INVALID : Z.
Variable mbim_message_type_get_string : Z -> string.
Variable mbim_status_error_get_string : Z -> string.
Variable mbim_protocol_error_get_string : Z -> string.

Definition mbim_message_open_get_max_control_transfer (self : MbimMessage)
  : exec Z :=
  t <- MBIM_MESSAGE_GET_MESSAGE_TYPE host self ;;
  g_return_val_if_fail (t =? MBIM_MESSAGE_TYPE_OPEN) 0
    (v <- load32 host offsetof_open_max_control_transfer self ;;
     Returns (GUINT32_FROM_LE host v)).

Definition mbim_message_open_done_get_status_code (self : MbimMessage)
  : exec Z :=
  t <- MBIM_MESSAGE_GET_MESSAGE_TYPE host self ;;
  g_return_val_if_fail (t =? MBIM_MESSAGE_TYPE_OPEN_DONE) MBIM_STATUS_ERROR_FAILURE
    (v <- load32 host offsetof_open_done_status_code self ;;
     Returns (GUINT32_FROM_LE host v)).

Definition mbim_message_close_done_get_status_code (self : MbimMessage)
  : exec Z :=
  t <- MBIM_MESSAGE_GET_MESSAGE_TYPE host self ;;
  g_return_val_if_fail (t =? MBIM_MESSAGE_TYPE_CLOSE_DONE) MBIM_STATUS_ERROR_FAILURE
    (v <- load32 host offsetof_close_done_status_code self ;;
     Returns (GUINT32_FROM_LE host v)).

Definition is_error_type (t : Z) : bool :=
  (t =? MBIM_MESSAGE_TYPE_HOST_ERROR) || (t =? MBIM_MESSAGE_TYPE_FUNCTION_ERROR).

Definition mbim_message_error_get_error_status_code (self : MbimMessage)
  : exec Z :=
  t <- MBIM_MESSAGE_GET_MESSAGE_TYPE host self ;;
  g_return_val_if_fail (is_error_type t) MBIM_PROTOCOL_ERROR_INVALID
    (v <- load32 host offsetof_error_error_status_code self ;;
     Returns (GUINT32_FROM_LE host v)).

(** [None] is the NULL returned when the check of the type fails. *)
Definition mbim_message_error_get_error (self : MbimMessage)
  : exec (option GErrorValue) :=
  t <- MBIM_MESSAGE_GET_MESSAGE_TYPE host self ;;
  g_return_val_if_fail (is_error_type t) None
    (v <- load32 host offsetof_error_error_status_code self ;;
     let error_status_code := GUINT32_FROM_LE host v in
     Returns (Some {| value_domain := MBIM_PROTOCOL_ERROR;
                      value_code := to_gint error_status_code;
                      value_message :=
                        ("MBIM protocol error: "
                           ++ mbim_protocol_error_get_string error_status_code)%string
                   |})).

Definition printable_header (line_prefix : string) (len ty tid : Z) : string :=
  (line_prefix ++ "Header:" ++ newline
     ++ line_prefix ++ "  length      = " ++ fmt_u len ++ newline
     ++ line_prefix ++ "  type        = " ++ mbim_message_type_get_string ty
     ++ " (0x" ++ fmt_08x ty ++ ")" ++ newline
     ++ line_prefix ++ "  transaction = " ++ fmt_u tid ++ newline)%string.

Definition printable_status (line_prefix : string) (status : Z) : string :=
  (line_prefix ++ "Contents:" ++ newline
     ++ line_prefix ++ "  status error = '" ++ mbim_status_error_get_string status
     ++ "' (0x" ++ fmt_08x status ++ ")" ++ newline)%string.

Definition mbim_message_get_printable (self : MbimMessage) (line_prefix : string)
  : exec string :=
  len <- MBIM_MESSAGE_GET_MESSAGE_LENGTH host self ;;
  ty <- MBIM_MESSAGE_GET_MESSAGE_TYPE host self ;;
  tid <- MBIM_MESSAGE_GET_TRANSACTION_ID host self ;;
  let printable := ("" ++ printable_header line_prefix len ty tid)%string in
  ty <- MBIM_MESSAGE_GET_MESSAGE_TYPE host self ;;
  if ty =? MBIM_MESSAGE_TYPE_INVALID then Returns printable
  else if ty =? MBIM_MESSAGE_TYPE_OPEN then
    mct <- mbim_message_open_get_max_control_transfer self ;;
    Returns (printable ++ line_prefix ++ "Contents:" ++ newline
               ++ line_prefix ++ "  max_control_transfer = " ++ fmt_u mct ++ newline)%string
  else if ty =? MBIM_MESSAGE_TYPE_CLOSE then Returns printable
  else if ty =? MBIM_MESSAGE_TYPE_OPEN_DONE then
    status <- mbim_message_open_done_get_status_code self ;;
    Returns (printable ++ printable_status line_prefix status)%string
  else if ty =? MBIM_MESSAGE_TYPE_CLOSE_DONE then
    status <- mbim_message_close_done_get_status_code self ;;
    Returns (printable ++ printable_status line_prefix status)%string
  else if is_error_type ty then
    error <- mbim_message_error_get_error_status_code self ;;
    Returns (printable ++ line_prefix ++ "Contents:" ++ newline
               ++ line_prefix ++ "  error = '" ++ mbim_protocol_error_get_string error
               ++ "' (0x" ++ fmt_08x error ++ ")" ++ newline)%string
  else if (ty =? MBIM_MESSAGE_TYPE_COMMAND)
          || (ty =? MBIM_MESSAGE_TYPE_COMMAND_DONE)
          || (ty =? MBIM_MESSAGE_TYPE_INDICATION) then
    tot <- _mbim_message_fragment_get_total host self ;;
    cur <- _mbim_message_fragment_get_current host self ;;
    Returns (printable ++ line_prefix ++ "Fragment header:" ++ newline
               ++ line_prefix ++ "  total   = " ++ fmt_u tot ++ newline
               ++ line_prefix ++ "  current = " ++ fmt_u cur ++ newline)%string
  else Returns printable.

End Accessors.

Section Results.

Variable host : byte_order.

(** [mbim_status_error_get_string] of mbim-error-types.h, which is not among
    the sources. The two functions below pass its result to [g_set_error] as
    the format, so it is taken as the [const gchar *] it is: [None] is
    NULL. *)
Variable mbim_status_error_get_string : Z -> option string.

(** The returned pair is the [gboolean] and what [*error] was set to, for a
    caller that passes an [error] to set. *)
Definition mbim_message_open_done_get_result (self : MbimMessage)
  : exec (bool * option GErrorValue) :=
  t <- MBIM_MESSAGE_GET_MESSAGE_TYPE host self ;;
  g_return_val_if_fail (t =? MBIM_MESSAGE_TYPE_OPEN_DONE) (false, None)
    (v <- load32 host offsetof_open_done_status_code self ;;
     let status := GUINT32_FROM_LE host v in
     if status =? MBIM_STATUS_ERROR_NONE then Returns (true, None)
     else
       error <- g_error_new_valist MBIM_STATUS_ERROR (to_gint status)
                  (mbim_status_error_get_string status) ;;
       Returns (false, Some error)).

Definition mbim_message_close_done_get_result (self : MbimMessage)
  : exec (bool * option GErrorValue) :=
  t <- MBIM_MESSAGE_GET_MESSAGE_TYPE host self ;;
  g_return_val_if_fail (t =? MBIM_MESSAGE_TYPE_CLOSE_DONE) (false, None)
    (v <- load32 host offsetof_close_done_status_code self ;;
     let status := GUINT32_FROM_LE host v in
     if status =? MBIM_STATUS_ERROR_NONE then Returns (true, None)
     else
       error <- g_error_new_valist MBIM_STATUS_ERROR (to_gint status)
                  (mbim_status_error_get_string status) ;;
       Returns (false, Some error)).

End Results.

(** What the [_done_get_result] accessors make of a status code: TRUE for
    NONE, otherwise FALSE with the status error made of the code and of the
    name taken as format. *)
Definition done_result (name : Z -> option string) (status : Z)
  : exec (bool * option GErrorValue) :=
  if status =? MBIM_STATUS_ERROR_NONE then Returns (true, None)
  else
    error <- g_error_new_valist MBIM_STATUS_ERROR (to_gint status) (name status) ;;
    Returns (false, Some error).


(* ------------------------------------------------------------------------- *)
(** ** The wire view of a message, used to state the theorems *)

(** The values of a [guint32]. *)
Definition u32 (v : Z) : Prop := 0 <= v < 2 ^ 32.

(** The little-endian word at byte offset [off]. *)
Definition le32_at (off : nat) (m : list byte) : Z :=
  le_value (firstn 4 (skipn off m)).

(** The wire image of a message of a fragmented type: MBIM header, fragment
    header, information buffer. *)
Definition fragment_message (ty len tid tot cur : Z) (payload : list byte)
  : list byte :=
  le_bytes ty ++ le_bytes len ++ le_bytes tid ++ le_bytes tot ++ le_bytes cur
    ++ payload.

Definition is_fragment_type (t : Z) : bool :=
  (t =? MBIM_MESSAGE_TYPE_COMMAND)
  || (t =? MBIM_MESSAGE_TYPE_COMMAND_DONE)
  || (t =? MBIM_MESSAGE_TYPE_INDICATION).

(** The message invariant of the data model: the length field of the header
    is the byte length of the backing buffer. *)
Definition length_matches_buffer (host : byte_order) (m : MbimMessage) : Prop :=
  mbim_message_get_message_length host m = Returns (Z.of_nat (length m)).

(** The descriptors of the fragment codec as the spec words them: with
    [H = 20], [P = length - H] and [F = max_fragment_size - H] there are
    [ceil (P / F)] of them, and number [i] carries [min (F, remaining)] bytes
    from offset [i * F] of the fragment-payload region, under a header with
    [length = H + slice], the type and transaction id of the message,
    [total = N] and [current = i], all little-endian. *)
Definition ceil_div (a b : Z) : Z := (a + b - 1) / b.

Definition slice_length (F P : Z) (i : nat) : Z := Z.min F (P - Z.of_nat i * F).

Definition slice_offset (F : Z) (i : nat) : nat := Z.to_nat (Z.of_nat i * F).

Definition spec_descriptor (host : byte_order) (m : MbimMessage)
    (ty tid N F P : Z) (i : nat) : fragment_info :=
  {| info_header :=
       {| type := GUINT32_TO_LE host ty;
          length_ := GUINT32_TO_LE host (20 + slice_length F P i);
          transaction_id := GUINT32_TO_LE host tid |};
     info_fragment_header :=
       {| total := GUINT32_TO_LE host N;
          current := GUINT32_TO_LE host (Z.of_nat i) |};
     data_length := slice_length F P i;
     data := {| region := m; offset := 20 + slice_offset F i |} |}.

Definition spec_descriptors (host : byte_order) (m : MbimMessage)
    (ty tid N F P : Z) : list fragment_info :=
  map (spec_descriptor host m ty tid N F P) (seq 0 (Z.to_nat N)).

Definition total_data_length (infos : list fragment_info) : Z :=
  fold_right Z.add 0 (map data_length infos).

(** What the split/join round trip promises of a message [m] and a maximum
    fragment size [S]. First, the codec returns descriptors whose payload
    slices concatenate to the bytes of [m] from offset 20 to the end. Second,
    the collector run over the fragments as they are on the wire completes
    with a message whose raw buffer is that of [m] with the fragment header
    rewritten to [total = 1], [current = 0]. *)
Definition slices_cover_payload (host : byte_order) (m : MbimMessage) (S : Z)
  : Prop :=
  exists infos,
    _mbim_message_split_fragments host m S = Returns (Some infos)
    /\ fragment_payloads infos = Returns (skipn 20 m).

Definition reassembles (host : byte_order) (m : MbimMessage) (S : Z) : Prop :=
  exists infos fragments self,
    _mbim_message_split_fragments host m S = Returns (Some infos)
    /\ fragments_on_wire host infos = Returns fragments
    /\ collect host fragments = Returns (Success (self, true))
    /\ mbim_message_get_raw self
       = Success (firstn 12 m ++ le_bytes 1 ++ le_bytes 0 ++ skipn 20 m,
                  Z.of_nat (length m)).

Definition split_join (host : byte_order) (m : MbimMessage) (S : Z) : Prop :=
  slices_cover_payload host m S /\ reassembles host m S.

(** An 80-byte COMMAND whose length field says 70. *)
Definition longer_buffer_message : MbimMessage :=
  fragment_message MBIM_MESSAGE_TYPE_COMMAND 70 9 1 0 (repeat x5a 60).

(** A COMMAND with 200 bytes of payload. *)
Definition message_200 : MbimMessage :=
  fragment_message MBIM_MESSAGE_TYPE_COMMAND 220 9 1 0 (repeat x5a 200).

(** The reassembly of a payload [body] cut into slices of [F] bytes: how many
    bytes the first [i] slices cover, slice [i], fragment [i] on the wire, and
    the message of the collector once it holds the first [k] slices. *)
Definition reach (F : Z) (body : list byte) (i : nat) : nat :=
  Z.to_nat (Z.min (Z.of_nat i * F) (Z.of_nat (length body))).

Definition chunk (F : Z) (body : list byte) (i : nat) : list byte :=
  firstn (reach F body (S i) - reach F body i) (skipn (reach F body i) body).

Definition wire_fragment (ty tid N F : Z) (body : list byte) (i : nat)
  : MbimMessage :=
  fragment_message ty (20 + Z.of_nat (length (chunk F body i))) tid N
    (Z.of_nat i) (chunk F body i).

Definition collected (ty tid N F : Z) (body : list byte) (k : nat)
  : MbimMessage :=
  fragment_message ty (20 + Z.of_nat (reach F body k)) tid N
    (Z.of_nat k - 1) (firstn (reach F body k) body).

(** Duplicating twice gives a message with the raw buffer of the original. *)
Definition dup_twice_same_raw (host : byte_order) (m : MbimMessage) : Prop :=
  exists m1 m2,
    mbim_message_dup host m = Returns m1
    /\ mbim_message_dup host m1 = Returns m2
    /\ mbim_message_get_raw m2 = mbim_message_get_raw m.

(** A 24-byte COMMAND whose length field says 20. *)
Definition trailing_bytes_message : MbimMessage :=
  [x03; x00; x00; x00;  x14; x00; x00; x00;  x00; x00; x00; x00;
   x01; x00; x00; x00;  x00; x00; x00; x00;  xde; xad; xbe; xef].

(** Three fragments of a two-fragment COMMAND with transaction id 9: number
    0 with four bytes of payload, number 1 with two, and a fragment that
    claims to be number 2. *)
Definition fragment_0_of_2 : MbimMessage :=
  fragment_message MBIM_MESSAGE_TYPE_COMMAND 24 9 2 0 [x0a; x0b; x0c; x0d].

Definition fragment_1_of_2 : MbimMessage :=
  fragment_message MBIM_MESSAGE_TYPE_COMMAND 22 9 2 1 [x0e; x0f].

Definition fragment_2_of_2 : MbimMessage :=
  fragment_message MBIM_MESSAGE_TYPE_COMMAND 22 9 2 2 [x0e; x0f].

(** A 20-byte COMMAND fragment, number 0 of 1, whose length field says 4. *)
Definition short_length_fragment : MbimMessage :=
  fragment_message MBIM_MESSAGE_TYPE_COMMAND 4 0 1 0 [].



(** The messages a collector can hold: the copy made by [init] of a first
    fragment whose length field covers at least the length field itself, and
    what a successful [add] or a [complete] makes of such a message. *)
Inductive collecting (host : byte_order) : MbimMessage -> Prop :=
| collecting_init (fragment self : MbimMessage) (len : Z) :
    MBIM_MESSAGE_GET_MESSAGE_LENGTH host fragment = Returns len ->
    8 <= len ->
    _mbim_message_fragment_collector_init host fragment = Returns (Success self) ->
    collecting host self
| collecting_add (self fragment self' : MbimMessage) :
    collecting host self ->
    _mbim_message_fragment_collector_add host self fragment
      = Returns (self', Success tt) ->
    collecting host self'
| collecting_complete (self self' : MbimMessage) (done : bool) :
    collecting host self ->
    _mbim_message_fragment_collector_complete host self = Returns (self', done) ->
    collecting host self'.

(** What a descriptor holds in the memory of the host: the bytes of its two
    headers, the length of its slice and the pointer to it. *)
Definition descriptor_image (host : byte_order) (info : fragment_info)
  : list byte * list byte * Z * guint8_ptr :=
  (header_bytes host (info_header info),
   fragment_header_bytes host (info_fragment_header info),
   data_length info, data info).

(** [split], then every descriptor as it is in memory, and as it goes on the
    wire. *)
Definition split_images (host : byte_order) (m : MbimMessage) (S : Z)
  : exec (option (list (list byte * list byte * Z * guint8_ptr))) :=
  r <- _mbim_message_split_fragments host m S ;;
  Returns (option_map (map (descriptor_image host)) r).

Definition split_on_wire (host : byte_order) (m : MbimMessage) (S : Z)
  : exec (option (list MbimMessage)) :=
  r <- _mbim_message_split_fragments host m S ;;
  match r with
  | None => Returns None
  | Some infos => fragments <- fragments_on_wire host infos ;;
                  Returns (Some fragments)
  end.

(** The message [m] with the [total] of its fragment header overwritten. *)
Definition with_total (t : Z) (m : MbimMessage) : MbimMessage :=
  firstn 12 m ++ le_bytes t ++ skipn 16 m.

(* ------------------------------------------------------------------------- *)
(** ** Facts about bytes and words *)

Lemma Z_of_byte_range (b : byte) : 0 <= Z_of_byte b < 256.
Proof.
  unfold Z_of_byte. pose proof (Byte.to_N_bounded b) as H.
  lia.
Qed.

Lemma byte_of_Z_of_byte (b : byte) : byte_of_Z (Z_of_byte b) = b.
Proof.
  unfold byte_of_Z. pose proof (Z_of_byte_range b) as R.
  rewrite Z.mod_small by lia. unfold Z_of_byte.
  rewrite N2Z.id, Byte.of_to_N. reflexivity.
Qed.

Lemma Z_of_byte_of_Z (z : Z) : Z_of_byte (byte_of_Z z) = z mod 256.
Proof.
  unfold byte_of_Z. pose proof (Z.mod_pos_bound z 256 ltac:(lia)) as R.
  destruct (Byte.of_N (Z.to_N (z mod 256))) as [b|] eqn:E.
  - apply Byte.to_of_N in E. unfold Z_of_byte. rewrite E. lia.
  - apply Byte.of_N_None_iff in E. lia.
Qed.

Lemma byte_of_Z_mod (a b : Z) : a mod 256 = b mod 256 -> byte_of_Z a = byte_of_Z b.
Proof. unfold byte_of_Z. intros ->. reflexivity. Qed.

Lemma le_value_range (bs : list byte) :
  length bs = 4%nat -> 0 <= le_value bs < 2 ^ 32.
Proof.
  destruct bs as [|a [|b [|c [|d [|e t]]]]]; try discriminate. intros _.
  pose proof (Z_of_byte_range a). pose proof (Z_of_byte_range b).
  pose proof (Z_of_byte_range c). pose proof (Z_of_byte_range d).
  cbn [le_value]. lia.
Qed.

Lemma le_value_le_bytes (v : Z) : le_value (le_bytes v) = wrap32 v.
Proof.
  unfold le_bytes, wrap32. cbn [le_value]. rewrite !Z_of_byte_of_Z.
  rewrite !Z.shiftr_div_pow2 by lia.
  change (2 ^ 8) with 256. change (2 ^ 16) with (256 * 256).
  change (2 ^ 24) with (256 * 256 * 256).
  rewrite <- !Z.div_div by lia.
  set (q1 := v / 256). set (q2 := q1 / 256). set (q3 := q2 / 256).
  pose proof (Z.div_mod v 256 ltac:(lia)) as E0.
  pose proof (Z.div_mod q1 256 ltac:(lia)) as E1.
  pose proof (Z.div_mod q2 256 ltac:(lia)) as E2.
  pose proof (Z.div_mod q3 256 ltac:(lia)) as E3.
  pose proof (Z.mod_pos_bound v 256 ltac:(lia)).
  pose proof (Z.mod_pos_bound q1 256 ltac:(lia)).
  pose proof (Z.mod_pos_bound q2 256 ltac:(lia)).
  pose proof (Z.mod_pos_bound q3 256 ltac:(lia)).
  fold q1 in E0. fold q2 in E1. fold q3 in E2.
  apply Z.mod_unique with (q := q3 / 256); lia.
Qed.

Lemma le_bytes_le_value (bs : list byte) :
  length bs = 4%nat -> le_bytes (le_value bs) = bs.
Proof.
  destruct bs as [|a [|b [|c [|d [|e t]]]]]; try discriminate. intros _.
  pose proof (Z_of_byte_range a) as Ra. pose proof (Z_of_byte_range b) as Rb.
  pose proof (Z_of_byte_range c) as Rc. pose proof (Z_of_byte_range d) as Rd.
  unfold le_bytes. cbn [le_value]. rewrite !Z.shiftr_div_pow2 by lia.
  change (2 ^ 8) with 256. change (2 ^ 16) with (256 * 256).
  change (2 ^ 24) with (256 * 256 * 256).
  rewrite <- !Z.div_div by lia. rewrite Z.mul_0_r, Z.add_0_r.
  set (B := Z_of_byte b) in *. set (C := Z_of_byte c) in *. set (D := Z_of_byte d) in *.
  assert (Hq : forall x y, 0 <= x < 256 -> (x + 256 * y) / 256 = y).
  { intros x y Hx. symmetry. apply Z.div_unique with (r := x); lia. }
  rewrite !Hq by lia.
  assert (Hm : forall x y, byte_of_Z (Z_of_byte x + 256 * y) = x).
  { intros x y. rewrite <- (byte_of_Z_of_byte x) at 2. apply byte_of_Z_mod.
    rewrite (Z.mul_comm 256 y). apply Z.mod_add. lia. }
  subst B C D. rewrite !Hm. rewrite byte_of_Z_of_byte. reflexivity.
Qed.

(** *** Byte swapping *)

Lemma mod256_testbit (a b : Z) :
  (forall n, 0 <= n < 8 -> Z.testbit a n = Z.testbit b n) -> a mod 256 = b mod 256.
Proof.
  intros H. change 256 with (2 ^ 8). rewrite <- !Z.land_ones by lia.
  apply Z.bits_inj'. intros n Hn. rewrite !Z.land_spec.
  destruct (Z.ltb_spec n 8) as [Hlt|Hge].
  - rewrite H by lia. reflexivity.
  - rewrite Z.ones_spec_high by lia. rewrite !andb_false_r. reflexivity.
Qed.

Ltac swap_bits :=
  let n := fresh "n" in
  let Hn := fresh "Hn" in
  let Hc := fresh "Hc" in
  apply mod256_testbit; intros n Hn; unfold GUINT32_SWAP_LE_BE;
  repeat (rewrite ?Z.lor_spec, ?Z.land_spec, ?Z.shiftr_spec, ?Z.shiftl_spec by lia);
  assert (n = 0 \/ n = 1 \/ n = 2 \/ n = 3 \/ n = 4 \/ n = 5 \/ n = 6 \/ n = 7)
    as Hc by lia;
  clear Hn;
  repeat (destruct Hc as [Hc|Hc]); subst n;
  repeat match goal with
    | |- context [Z.testbit ?v _] =>
        is_var v; let t := fresh "t" in generalize (Z.testbit v); intros t
    end;
  cbn; rewrite ?andb_false_r, ?andb_true_r, ?orb_false_r, ?orb_false_l;
  reflexivity.

Lemma swap_byte0 (v : Z) : GUINT32_SWAP_LE_BE v mod 256 = Z.shiftr v 24 mod 256.
Proof. swap_bits. Qed.

Lemma swap_byte1 (v : Z) :
  Z.shiftr (GUINT32_SWAP_LE_BE v) 8 mod 256 = Z.shiftr v 16 mod 256.
Proof. swap_bits. Qed.

Lemma swap_byte2 (v : Z) :
  Z.shiftr (GUINT32_SWAP_LE_BE v) 16 mod 256 = Z.shiftr v 8 mod 256.
Proof. swap_bits. Qed.

Lemma swap_byte3 (v : Z) : Z.shiftr (GUINT32_SWAP_LE_BE v) 24 mod 256 = v mod 256.
Proof. swap_bits. Qed.

Lemma le_bytes_swap (v : Z) : le_bytes (GUINT32_SWAP_LE_BE v) = rev (le_bytes v).
Proof.
  unfold le_bytes. cbn [rev app]. f_equal; [|f_equal; [|f_equal; [|f_equal]]];
    apply byte_of_Z_mod;
    [apply swap_byte0 | apply swap_byte1 | apply swap_byte2 | apply swap_byte3].
Qed.

Lemma swap_range (v : Z) : wrap32 (GUINT32_SWAP_LE_BE v) = GUINT32_SWAP_LE_BE v.
Proof.
  unfold wrap32. rewrite <- Z.land_ones by lia.
  apply Z.bits_inj'. intros n Hn. rewrite Z.land_spec.
  destruct (Z.ltb_spec n 32) as [Hlt|Hge].
  - rewrite Z.ones_spec_low by lia. apply andb_true_r.
  - rewrite Z.ones_spec_high by lia. rewrite andb_false_r. symmetry.
    unfold GUINT32_SWAP_LE_BE.
    change 0xFF with (Z.ones 8).
    change 0xFF00 with (Z.shiftl (Z.ones 8) 8).
    change 0xFF0000 with (Z.shiftl (Z.ones 8) 16).
    change 0xFF000000 with (Z.shiftl (Z.ones 8) 24).
    repeat (rewrite ?Z.lor_spec, ?Z.land_spec, ?Z.shiftr_spec, ?Z.shiftl_spec by lia).
    rewrite !Z.ones_spec_high by lia.
    rewrite !andb_false_r. reflexivity.
Qed.

(** *** Host order against wire order *)

Lemma native_store_to_le (host : byte_order) (v : Z) :
  native_store host (GUINT32_TO_LE host v) = le_bytes v.
Proof.
  destruct host; cbn [native_store GUINT32_TO_LE]; [reflexivity|].
  rewrite le_bytes_swap. apply rev_involutive.
Qed.

Lemma from_le_native_load (host : byte_order) (bs : list byte) :
  length bs = 4%nat -> GUINT32_FROM_LE host (native_load host bs) = le_value bs.
Proof.
  intros Hl. unfold GUINT32_FROM_LE.
  destruct host; cbn [native_load GUINT32_TO_LE]; [reflexivity|].
  rewrite <- swap_range, <- le_value_le_bytes, le_bytes_swap.
  rewrite le_bytes_le_value by (rewrite length_rev; exact Hl).
  rewrite rev_involutive. reflexivity.
Qed.

Lemma native_store_native_load (host : byte_order) (bs : list byte) :
  length bs = 4%nat -> native_store host (native_load host bs) = bs.
Proof.
  intros Hl. destruct host; cbn [native_load native_store].
  - apply le_bytes_le_value. exact Hl.
  - rewrite le_bytes_le_value by (rewrite length_rev; exact Hl).
    apply rev_involutive.
Qed.

Lemma native_store_zero (host : byte_order) : native_store host 0 = le_bytes 0.
Proof. destruct host; reflexivity. Qed.

(* ------------------------------------------------------------------------- *)
(** ** Reading and writing header fields *)

Lemma wrap32_small (v : Z) : u32 v -> wrap32 v = v.
Proof. intros H. apply Z.mod_small. exact H. Qed.

Lemma wrap32_u32 (v : Z) : u32 (wrap32 v).
Proof. apply Z.mod_pos_bound. lia. Qed.

Lemma word_at_length (off : nat) (m : list byte) :
  (off + 4 <= length m)%nat -> length (firstn 4 (skipn off m)) = 4%nat.
Proof. intros H. rewrite length_firstn, length_skipn. lia. Qed.

Lemma le32_at_u32 (off : nat) (m : list byte) :
  (off + 4 <= length m)%nat -> u32 (le32_at off m).
Proof. intros H. apply le_value_range, word_at_length, H. Qed.

Lemma load32_from_le (host : byte_order) (off : nat) (m : list byte) :
  (v <- load32 host off m ;; Returns (GUINT32_FROM_LE host v))
  = if (off + 4 <=? length m)%nat then Returns (le32_at off m)
    else Crashes OutOfBounds.
Proof.
  unfold load32. destruct (Nat.leb_spec (off + 4) (length m)) as [H|H]; cbn [bind].
  - rewrite from_le_native_load by (apply word_at_length, H). reflexivity.
  - reflexivity.
Qed.

Lemma store32_to_le (host : byte_order) (off : nat) (v : Z) (m : list byte) :
  store32 host off (GUINT32_TO_LE host v) m
  = if (off + 4 <=? length m)%nat
    then Returns (firstn off m ++ le_bytes v ++ skipn (off + 4) m)
    else Crashes OutOfBounds.
Proof. unfold store32. rewrite native_store_to_le. reflexivity. Qed.

Lemma store32_zero (host : byte_order) (off : nat) (m : list byte) :
  store32 host off 0 m
  = if (off + 4 <=? length m)%nat
    then Returns (firstn off m ++ le_bytes 0 ++ skipn (off + 4) m)
    else Crashes OutOfBounds.
Proof. unfold store32. rewrite native_store_zero. reflexivity. Qed.

(** Copying a field without conversion copies its four bytes. *)
Lemma store32_load32 {A : Type} (host : byte_order) (off off' : nat)
    (m m' : list byte) (k : list byte -> exec A) :
  (v <- load32 host off m ;; s <- store32 host off' v m' ;; k s)
  = if (off + 4 <=? length m)%nat
    then if (off' + 4 <=? length m')%nat
         then k (firstn off' m' ++ firstn 4 (skipn off m) ++ skipn (off' + 4) m')
         else Crashes OutOfBounds
    else Crashes OutOfBounds.
Proof.
  unfold load32, store32.
  destruct (Nat.leb_spec (off + 4) (length m)) as [H|H]; cbn [bind]; [|reflexivity].
  rewrite native_store_native_load by (apply word_at_length, H).
  destruct (off' + 4 <=? length m')%nat; reflexivity.
Qed.

Lemma get_message_type_eq (host : byte_order) (m : MbimMessage) :
  MBIM_MESSAGE_GET_MESSAGE_TYPE host m
  = if (4 <=? length m)%nat then Returns (le32_at 0 m) else Crashes OutOfBounds.
Proof. apply load32_from_le. Qed.

Lemma get_message_length_eq (host : byte_order) (m : MbimMessage) :
  MBIM_MESSAGE_GET_MESSAGE_LENGTH host m
  = if (8 <=? length m)%nat then Returns (le32_at 4 m) else Crashes OutOfBounds.
Proof. apply load32_from_le. Qed.

Lemma get_transaction_id_eq (host : byte_order) (m : MbimMessage) :
  MBIM_MESSAGE_GET_TRANSACTION_ID host m
  = if (12 <=? length m)%nat then Returns (le32_at 8 m) else Crashes OutOfBounds.
Proof. apply load32_from_le. Qed.

Lemma fragment_get_total_eq (host : byte_order) (m : MbimMessage) :
  MBIM_MESSAGE_FRAGMENT_GET_TOTAL host m
  = if (16 <=? length m)%nat then Returns (le32_at 12 m) else Crashes OutOfBounds.
Proof. apply load32_from_le. Qed.

Lemma fragment_get_current_eq (host : byte_order) (m : MbimMessage) :
  MBIM_MESSAGE_FRAGMENT_GET_CURRENT host m
  = if (20 <=? length m)%nat then Returns (le32_at 16 m) else Crashes OutOfBounds.
Proof. apply load32_from_le. Qed.

Lemma is_fragment_eq (host : byte_order) (m : MbimMessage) :
  MBIM_MESSAGE_IS_FRAGMENT host m
  = if (4 <=? length m)%nat then Returns (is_fragment_type (le32_at 0 m))
    else Crashes OutOfBounds.
Proof.
  unfold MBIM_MESSAGE_IS_FRAGMENT. rewrite get_message_type_eq.
  destruct (4 <=? length m)%nat; reflexivity.
Qed.

(** *** Messages of at least twenty bytes *)

Lemma fragment_message_length ty len tid tot cur p :
  length (fragment_message ty len tid tot cur p) = (20 + length p)%nat.
Proof. reflexivity. Qed.

Lemma fragment_message_type ty len tid tot cur p :
  le32_at 0 (fragment_message ty len tid tot cur p) = wrap32 ty.
Proof. apply le_value_le_bytes. Qed.

Lemma fragment_message_len ty len tid tot cur p :
  le32_at 4 (fragment_message ty len tid tot cur p) = wrap32 len.
Proof. apply le_value_le_bytes. Qed.

Lemma fragment_message_tid ty len tid tot cur p :
  le32_at 8 (fragment_message ty len tid tot cur p) = wrap32 tid.
Proof. apply le_value_le_bytes. Qed.

Lemma fragment_message_total ty len tid tot cur p :
  le32_at 12 (fragment_message ty len tid tot cur p) = wrap32 tot.
Proof. apply le_value_le_bytes. Qed.

Lemma fragment_message_current ty len tid tot cur p :
  le32_at 16 (fragment_message ty len tid tot cur p) = wrap32 cur.
Proof. apply le_value_le_bytes. Qed.

Lemma fragment_message_payload ty len tid tot cur p :
  skipn 20 (fragment_message ty len tid tot cur p) = p.
Proof. reflexivity. Qed.

Lemma fragment_message_decompose (m : list byte) :
  (20 <= length m)%nat ->
  m = fragment_message (le32_at 0 m) (le32_at 4 m) (le32_at 8 m)
        (le32_at 12 m) (le32_at 16 m) (skipn 20 m).
Proof.
  intros H. do 20 (destruct m as [|? m]; [cbn in H; lia|]).
  unfold fragment_message, le32_at. cbn [firstn skipn].
  rewrite !le_bytes_le_value by reflexivity. reflexivity.
Qed.

(* ------------------------------------------------------------------------- *)
(** ** The collector on wire images *)

Lemma leb_20 (k n : nat) : (k <= 20)%nat -> (k <=? 20 + n)%nat = true.
Proof. intros H. apply Nat.leb_le. lia. Qed.

Ltac within20 :=
  rewrite !leb_20
    by (cbv [offsetof_type offsetof_length offsetof_transaction_id
               offsetof_fragment_total offsetof_fragment_current
               offsetof_fragment_buffer Nat.add]; lia).

Ltac fields :=
  rewrite ?fragment_message_type, ?fragment_message_len, ?fragment_message_tid,
    ?fragment_message_total, ?fragment_message_current.

Section Collector.

Variable host : byte_order.

Lemma init_on_wire ty len tid tot cur p :
  u32 ty -> u32 len -> u32 tot -> u32 cur ->
  is_fragment_type ty = true ->
  _mbim_message_fragment_collector_init host (fragment_message ty len tid tot cur p)
  = if cur =? 0 then
      if len <=? Z.of_nat (20 + length p)
      then Returns (Success (firstn (Z.to_nat len) (fragment_message ty len tid tot cur p)))
      else Crashes OutOfBounds
    else Returns (Failure (out_of_sequence "0" (fmt_u tot) (fmt_u cur) (fmt_u tot))).
Proof.
  intros Hty Hlen Htot Hcur Hf.
  unfold _mbim_message_fragment_collector_init, g_assert, mbim_message_dup,
    mbim_message_new, g_byte_array_append, g_byte_array_sized_new, read_bytes.
  rewrite is_fragment_eq, fragment_get_current_eq, fragment_get_total_eq,
    get_message_length_eq.
  rewrite fragment_message_length. fields.
  rewrite !wrap32_small by assumption.
  within20. cbn [bind]. rewrite Hf. cbn [bind].
  destruct (cur =? 0); cbn [negb bind]; [|reflexivity].
  cbn [region offset length skipn app].
  replace (G_MAXUINT - Z.of_nat 0 <? len) with false
    by (symmetry; apply Z.ltb_ge; unfold G_MAXUINT, u32 in *; lia).
  change (Z.of_nat 0 + len) with len.
  rewrite fragment_message_length.
  destruct (len <=? Z.of_nat (20 + length p)); reflexivity.
Qed.

Lemma sub32_headers (len : Z) :
  sub32 (sub32 len sizeof_header) sizeof_fragment_header = sub32 len 20.
Proof.
  unfold sub32, wrap32, sizeof_header, sizeof_fragment_header.
  rewrite Zminus_mod_idemp_l. f_equal. lia.
Qed.

Lemma add_on_wire ty ls tid tot cur body ty' lf tid' tot' cur' pl :
  u32 ty -> u32 ls -> u32 tot -> u32 cur ->
  u32 ty' -> u32 lf -> u32 tot' -> u32 cur' ->
  is_fragment_type ty = true -> is_fragment_type ty' = true ->
  _mbim_message_fragment_collector_add host
    (fragment_message ty ls tid tot cur body)
    (fragment_message ty' lf tid' tot' cur' pl)
  = if cur =? sub32 cur' 1 then
      if sub32 lf 20 =? 0
      then Returns (fragment_message ty ls tid tot cur' body, Success tt)
      else if G_MAXUINT - Z.of_nat (20 + length body) <? sub32 lf 20
      then Crashes ArrayOverflow
      else if 20 + sub32 lf 20 <=? Z.of_nat (20 + length pl)
      then Returns (fragment_message ty (add32 ls (sub32 lf 20)) tid tot cur'
                      (body ++ firstn (Z.to_nat (sub32 lf 20)) pl), Success tt)
      else Crashes OutOfBounds
    else Returns (fragment_message ty ls tid tot cur body,
                  Failure (out_of_sequence (fmt_u (add32 cur 1)) (fmt_u tot)
                                           (fmt_u cur') (fmt_u tot'))).
Proof.
  intros Hty Hls Htot Hcur Hty' Hlf Htot' Hcur' Hf Hf'.
  unfold _mbim_message_fragment_collector_add, _mbim_message_fragment_get_payload,
    g_assert.
  rewrite !is_fragment_eq, !fragment_get_current_eq, !fragment_get_total_eq,
    !get_message_length_eq.
  rewrite !fragment_message_length. fields.
  rewrite !wrap32_small by assumption.
  within20. cbn [bind]. rewrite Hf, Hf'. cbn [bind].
  destruct (cur =? sub32 cur' 1); cbn [negb bind]; [|reflexivity].
  rewrite sub32_headers. set (n := sub32 lf 20).
  destruct (n =? 0); cbn [negb bind].
  - rewrite store32_load32. rewrite !fragment_message_length.
    within20. reflexivity.
  - unfold g_byte_array_append, read_bytes.
    cbn [region offset offsetof_fragment_buffer].
    rewrite !fragment_message_length, fragment_message_payload.
    destruct (G_MAXUINT - Z.of_nat (20 + length body) <? n); [reflexivity|].
    change (Z.of_nat offsetof_fragment_buffer) with 20.
    destruct (20 + n <=? Z.of_nat (20 + length pl)); cbn [bind]; [|reflexivity].
    change (fragment_message ty ls tid tot cur body ++ firstn (Z.to_nat n) pl)
      with (fragment_message ty ls tid tot cur (body ++ firstn (Z.to_nat n) pl)).
    rewrite get_message_length_eq, fragment_message_length. within20.
    cbn [bind]. fields. rewrite (wrap32_small ls) by assumption.
    rewrite store32_to_le, fragment_message_length.
    change (offsetof_length + 4)%nat with 8%nat. within20. cbn [bind].
    rewrite store32_load32. rewrite !fragment_message_length.
    change (offsetof_fragment_current + 4)%nat with 20%nat.
    within20.
    change (length (firstn offsetof_length
                      (fragment_message ty ls tid tot cur (body ++ firstn (Z.to_nat n) pl))
                    ++ le_bytes (add32 ls n)
                    ++ skipn 8 (fragment_message ty ls tid tot cur
                                  (body ++ firstn (Z.to_nat n) pl))))
      with (20 + length (body ++ firstn (Z.to_nat n) pl))%nat.
    within20. reflexivity.
Qed.

Lemma complete_on_wire ty len tid tot cur body :
  u32 ty -> u32 tot -> u32 cur -> is_fragment_type ty = true ->
  _mbim_message_fragment_collector_complete host
    (fragment_message ty len tid tot cur body)
  = if cur =? sub32 tot 1
    then Returns (fragment_message ty len tid 1 0 body, true)
    else Returns (fragment_message ty len tid tot cur body, false).
Proof.
  intros Hty Htot Hcur Hf.
  unfold _mbim_message_fragment_collector_complete, g_assert.
  rewrite is_fragment_eq, fragment_get_current_eq, fragment_get_total_eq.
  rewrite !fragment_message_length. fields.
  rewrite !wrap32_small by assumption.
  within20. cbn [bind]. rewrite Hf. cbn [bind].
  destruct (cur =? sub32 tot 1); cbn [negb bind]; [|reflexivity].
  rewrite store32_zero, fragment_message_length.
  change (offsetof_fragment_current + 4)%nat with 20%nat.
  within20. cbn [bind].
  rewrite store32_to_le. reflexivity.
Qed.

End Collector.

(* ------------------------------------------------------------------------- *)
(** ** Constructors *)

Section Constructors.

Variable host : byte_order.
Variable uninit : nat -> byte.

Ltac run_store :=
  rewrite store32_to_le;
  cbn [map seq length Nat.leb Nat.add firstn skipn app bind le_bytes
         offsetof_type offsetof_length offsetof_transaction_id
         offsetof_open_max_control_transfer offsetof_error_error_status_code].

Lemma open_new_bytes (tid mct : Z) :
  mbim_message_open_new host uninit tid mct
  = Returns (le_bytes MBIM_MESSAGE_TYPE_OPEN ++ le_bytes 16 ++ le_bytes tid
               ++ le_bytes mct).
Proof.
  unfold mbim_message_open_new, _mbim_message_allocate.
  change (add32 sizeof_header sizeof_open_message) with 16.
  change (g_byte_array_set_size uninit (g_byte_array_sized_new 16) 16)
    with (map uninit (seq 0 16)).
  do 4 run_store. reflexivity.
Qed.

Lemma close_new_bytes (tid : Z) :
  mbim_message_close_new host uninit tid
  = Returns (le_bytes MBIM_MESSAGE_TYPE_CLOSE ++ le_bytes 12 ++ le_bytes tid).
Proof.
  unfold mbim_message_close_new, _mbim_message_allocate.
  change (add32 sizeof_header 0) with 12.
  change (g_byte_array_set_size uninit (g_byte_array_sized_new 12) 12)
    with (map uninit (seq 0 12)).
  do 3 run_store. reflexivity.
Qed.

Lemma error_new_bytes (tid err : Z) :
  mbim_message_error_new host uninit tid err
  = Returns (le_bytes MBIM_MESSAGE_TYPE_HOST_ERROR ++ le_bytes 16 ++ le_bytes tid
               ++ le_bytes err).
Proof.
  unfold mbim_message_error_new, _mbim_message_allocate.
  change (add32 sizeof_header sizeof_open_message) with 16.
  change (g_byte_array_set_size uninit (g_byte_array_sized_new 16) 16)
    with (map uninit (seq 0 16)).
  do 4 run_store. reflexivity.
Qed.

End Constructors.

(** C7. [mbim_message_open_new tid mct] is the 16-byte buffer whose words at
    offsets 0, 4, 8 and 12 are the little-endian encodings of 1 (OPEN), 16
    (the length), [tid] and [mct], whatever the byte order of the host and
    whatever the heap held; [open_new 7 4096] decodes at those offsets to
    0x01, 0x10, 0x07 and 0x1000, and on a big-endian host its first four bytes
    are 01 00 00 00. *)
Theorem open_new_byte_exact (host : byte_order) (uninit : nat -> byte) (tid mct : Z) :
  mbim_message_open_new host uninit tid mct
    = Returns (le_bytes 1 ++ le_bytes 16 ++ le_bytes tid ++ le_bytes mct)
  /\ (exists m, mbim_message_open_new host uninit tid mct = Returns m
                /\ length m = 16%nat
                /\ le32_at 0 m = 1 /\ le32_at 4 m = 16
                /\ le32_at 8 m = wrap32 tid /\ le32_at 12 m = wrap32 mct)
  /\ (exists m, mbim_message_open_new host uninit 7 4096 = Returns m
                /\ m = [x01; x00; x00; x00; x10; x00; x00; x00;
                        x07; x00; x00; x00; x00; x10; x00; x00]
                /\ le32_at 0 m = 0x01 /\ le32_at 4 m = 0x00000010
                /\ le32_at 8 m = 0x07 /\ le32_at 12 m = 0x00001000)
  /\ (exists m, mbim_message_open_new G_BIG_ENDIAN uninit tid mct = Returns m
                /\ firstn 4 m = [x01; x00; x00; x00]).
Proof.
  split; [apply open_new_bytes|]. split; [|split].
  - eexists. split; [apply open_new_bytes|].
    split; [reflexivity|]. split; [reflexivity|]. split; [reflexivity|].
    split; apply le_value_le_bytes.
  - eexists. split; [apply open_new_bytes|]. repeat split.
  - eexists. split; [apply open_new_bytes|]. reflexivity.
Qed.

(** C9. [mbim_message_get_raw] fails with "Message is empty" exactly when the
    buffer has no bytes; otherwise it stores the full byte count in [*length]
    and returns the whole buffer. *)
Theorem get_raw_empty_iff (m : MbimMessage) :
  (mbim_message_get_raw m
     = Failure {| domain := MBIM_CORE_ERROR; code := MBIM_CORE_ERROR_FAILED;
                  message := "Message is empty" |}
   <-> length m = 0%nat)
  /\ ((exists e, mbim_message_get_raw m = Failure e) <-> length m = 0%nat)
  /\ (length m <> 0%nat ->
      mbim_message_get_raw m = Success (m, Z.of_nat (length m))).
Proof.
  unfold mbim_message_get_raw, g_set_error.
  destruct (Nat.eqb_spec (length m) 0) as [E|E].
  - split; [tauto|]. split; [|tauto]. split; [tauto|]. intros _. eexists. reflexivity.
  - split; [split; [discriminate|tauto]|].
    split; [|reflexivity]. split; [|tauto]. intros [e He]. discriminate.
Qed.

Lemma get_raw_empty_iff_witness :
  mbim_message_get_raw [x02; x00] = Success ([x02; x00], 2).
Proof.
  apply (proj2 (proj2 (get_raw_empty_iff [x02; x00]))). simpl. lia.
Defined.

(* ------------------------------------------------------------------------- *)
(** ** Duplication *)

Lemma dup_eq (host : byte_order) (m : MbimMessage) :
  mbim_message_dup host m
  = if (8 <=? length m)%nat then
      if le32_at 4 m <=? Z.of_nat (length m)
      then Returns (firstn (Z.to_nat (le32_at 4 m)) m)
      else Crashes OutOfBounds
    else Crashes OutOfBounds.
Proof.
  unfold mbim_message_dup, mbim_message_new, g_byte_array_append,
    g_byte_array_sized_new, read_bytes.
  rewrite get_message_length_eq.
  destruct (Nat.leb_spec 8 (length m)) as [H|H]; cbn [bind]; [|reflexivity].
  pose proof (le32_at_u32 4 m ltac:(lia)) as R.
  replace (G_MAXUINT - Z.of_nat (length (@nil byte)) <? le32_at 4 m) with false
    by (symmetry; apply Z.ltb_ge; unfold G_MAXUINT, u32 in *; cbn [length]; lia).
  cbn [region offset skipn]. change (Z.of_nat 0 + le32_at 4 m) with (le32_at 4 m).
  destruct (le32_at 4 m <=? Z.of_nat (length m)); reflexivity.
Qed.

Lemma length_matches_buffer_inv (host : byte_order) (m : MbimMessage) :
  length_matches_buffer host m ->
  (8 <= length m)%nat /\ le32_at 4 m = Z.of_nat (length m).
Proof.
  unfold length_matches_buffer, mbim_message_get_message_length.
  rewrite get_message_length_eq.
  destruct (Nat.leb_spec 8 (length m)) as [H|H]; [|discriminate].
  intros E. injection E as E. split; [exact H|exact E].
Qed.

Lemma length_matches_buffer_intro (host : byte_order) (m : MbimMessage) :
  (8 <= length m)%nat -> le32_at 4 m = Z.of_nat (length m) ->
  length_matches_buffer host m.
Proof.
  intros H E. unfold length_matches_buffer, mbim_message_get_message_length.
  rewrite get_message_length_eq.
  destruct (Nat.leb_spec 8 (length m)) as [_|H']; [|lia]. rewrite E. reflexivity.
Qed.

Lemma dup_of_matching (host : byte_order) (m : MbimMessage) :
  length_matches_buffer host m -> mbim_message_dup host m = Returns m.
Proof.
  intros H. apply length_matches_buffer_inv in H as [H8 E].
  rewrite dup_eq. destruct (Nat.leb_spec 8 (length m)) as [_|H']; [|lia].
  rewrite E, Z.leb_refl, Nat2Z.id, firstn_all. reflexivity.
Qed.

(** The claim of C6 fails on a message whose buffer is longer than its length
    field: the copy has 20 bytes, the original 24. *)
Lemma dup_twice_counterexample :
  ~ dup_twice_same_raw G_LITTLE_ENDIAN trailing_bytes_message.
Proof.
  intros (m1 & m2 & H1 & H2 & H3).
  vm_compute in H1. injection H1 as <-.
  vm_compute in H2. injection H2 as <-.
  vm_compute in H3. discriminate H3.
Qed.

Lemma le32_at_firstn (off n : nat) (m : list byte) :
  (off + 4 <= n)%nat -> le32_at off (firstn n m) = le32_at off m.
Proof.
  intros H. unfold le32_at. rewrite skipn_firstn_comm, firstn_firstn.
  replace (Nat.min 4 (n - off)) with 4%nat by lia. reflexivity.
Qed.

(** C6, amended. [dup] copies exactly as many bytes as the length field of the
    header says, which must not exceed the byte length of the buffer; for
    every message whose length field equals the byte length of its buffer,
    the raw buffer of [dup (dup m)] is that of [m]; and whenever the length
    field is at least 8, duplicating the copy gives the copy again. *)
Theorem dup_twice_of_matching (host : byte_order) (m : MbimMessage) (len : Z) :
  mbim_message_get_message_length host m = Returns len ->
  len <= Z.of_nat (length m) ->
  mbim_message_dup host m = Returns (firstn (Z.to_nat len) m)
  /\ (len = Z.of_nat (length m) -> dup_twice_same_raw host m)
  /\ (8 <= len ->
      mbim_message_dup host (firstn (Z.to_nat len) m)
        = Returns (firstn (Z.to_nat len) m)).
Proof.
  unfold mbim_message_get_message_length. rewrite get_message_length_eq.
  destruct (Nat.leb_spec 8 (length m)) as [H8|H8]; [|discriminate].
  intros E Hle. injection E as E.
  pose proof (le32_at_u32 4 m ltac:(lia)) as R. unfold u32 in R.
  assert (Hdup : mbim_message_dup host m = Returns (firstn (Z.to_nat len) m)).
  { rewrite dup_eq. destruct (Nat.leb_spec 8 (length m)) as [_|H']; [|lia].
    rewrite E. destruct (Z.leb_spec len (Z.of_nat (length m))); [reflexivity|lia]. }
  split; [exact Hdup|]. split.
  - intros Hlen.
    assert (M : length_matches_buffer host m).
    { apply length_matches_buffer_intro; [exact H8|]. rewrite E. exact Hlen. }
    exists m, m. rewrite (dup_of_matching host m M). repeat split.
  - intros Hge. apply dup_of_matching. apply length_matches_buffer_intro.
    + rewrite length_firstn. lia.
    + rewrite le32_at_firstn by lia. rewrite length_firstn. lia.
Qed.

Lemma dup_twice_of_matching_witness :
  dup_twice_same_raw G_BIG_ENDIAN
    [x02; x00; x00; x00; x0c; x00; x00; x00; x05; x00; x00; x00].
Proof.
  apply (dup_twice_of_matching G_BIG_ENDIAN
           [x02; x00; x00; x00; x0c; x00; x00; x00; x05; x00; x00; x00] 12);
    [vm_compute; reflexivity | simpl; lia | reflexivity].
Defined.

(* ------------------------------------------------------------------------- *)
(** ** The collector on arbitrary messages *)

Lemma is_fragment_inv (host : byte_order) (m : MbimMessage) (b : bool) :
  MBIM_MESSAGE_IS_FRAGMENT host m = Returns b ->
  (4 <= length m)%nat /\ is_fragment_type (le32_at 0 m) = b.
Proof.
  rewrite is_fragment_eq. destruct (Nat.leb_spec 4 (length m)); [|discriminate].
  intros E. injection E as E. split; assumption.
Qed.

Lemma fragment_get_current_inv (host : byte_order) (m : MbimMessage) (v : Z) :
  MBIM_MESSAGE_FRAGMENT_GET_CURRENT host m = Returns v ->
  (20 <= length m)%nat /\ le32_at 16 m = v.
Proof.
  rewrite fragment_get_current_eq.
  destruct (Nat.leb_spec 20 (length m)); [|discriminate].
  intros E. injection E as E. split; assumption.
Qed.

Lemma fragment_get_total_inv (host : byte_order) (m : MbimMessage) (v : Z) :
  MBIM_MESSAGE_FRAGMENT_GET_TOTAL host m = Returns v ->
  (16 <= length m)%nat /\ le32_at 12 m = v.
Proof.
  rewrite fragment_get_total_eq.
  destruct (Nat.leb_spec 16 (length m)); [|discriminate].
  intros E. injection E as E. split; assumption.
Qed.

(** Replaces a message of at least twenty bytes by its wire image, with fresh
    names for the five header words and the information buffer. *)
Ltac on_wire m H :=
  let D := fresh "D" in
  let R0 := fresh "Rty" in
  let R4 := fresh "Rlen" in
  let R8 := fresh "Rtid" in
  let R12 := fresh "Rtot" in
  let R16 := fresh "Rcur" in
  pose proof (fragment_message_decompose m H) as D;
  pose proof (le32_at_u32 0 m ltac:(lia)) as R0;
  pose proof (le32_at_u32 4 m ltac:(lia)) as R4;
  pose proof (le32_at_u32 8 m ltac:(lia)) as R8;
  pose proof (le32_at_u32 12 m ltac:(lia)) as R12;
  pose proof (le32_at_u32 16 m ltac:(lia)) as R16;
  clear H;
  let ty := fresh "ty" in
  let len := fresh "len" in
  let tid := fresh "tid" in
  let tot := fresh "tot" in
  let cur := fresh "cur" in
  let body := fresh "body" in
  let E := fresh "E" in
  remember (le32_at 0 m) as ty eqn:E in *; clear E;
  remember (le32_at 4 m) as len eqn:E in *; clear E;
  remember (le32_at 8 m) as tid eqn:E in *; clear E;
  remember (le32_at 12 m) as tot eqn:E in *; clear E;
  remember (le32_at 16 m) as cur eqn:E in *; clear E;
  remember (skipn 20 m) as body eqn:E in *; clear E;
  subst m.

Lemma add_returns (host : byte_order) (self fragment : MbimMessage)
    (r : MbimMessage * checked unit) :
  _mbim_message_fragment_collector_add host self fragment = Returns r ->
  (20 <= length self)%nat /\ (20 <= length fragment)%nat
  /\ is_fragment_type (le32_at 0 self) = true
  /\ is_fragment_type (le32_at 0 fragment) = true.
Proof.
  unfold _mbim_message_fragment_collector_add, g_assert.
  rewrite !is_fragment_eq, !fragment_get_current_eq.
  destruct (Nat.leb_spec 4 (length self)); cbn [bind]; [|discriminate].
  destruct (is_fragment_type (le32_at 0 self)); cbn [bind]; [|discriminate].
  destruct (Nat.leb_spec 4 (length fragment)); cbn [bind]; [|discriminate].
  destruct (is_fragment_type (le32_at 0 fragment)); cbn [bind]; [|discriminate].
  destruct (Nat.leb_spec 20 (length self)); cbn [bind]; [|discriminate].
  destruct (Nat.leb_spec 20 (length fragment)); cbn [bind]; [|discriminate].
  intros _. repeat split; assumption.
Qed.

Lemma complete_returns (host : byte_order) (self : MbimMessage)
    (r : MbimMessage * bool) :
  _mbim_message_fragment_collector_complete host self = Returns r ->
  (20 <= length self)%nat /\ is_fragment_type (le32_at 0 self) = true.
Proof.
  unfold _mbim_message_fragment_collector_complete, g_assert.
  rewrite !is_fragment_eq, !fragment_get_current_eq.
  destruct (Nat.leb_spec 4 (length self)); cbn [bind]; [|discriminate].
  destruct (is_fragment_type (le32_at 0 self)); cbn [bind]; [|discriminate].
  destruct (Nat.leb_spec 20 (length self)); cbn [bind]; [|discriminate].
  intros _. split; [assumption|reflexivity].
Qed.

Lemma sub32_one (b : Z) : u32 b -> sub32 b 1 = if b =? 0 then 2 ^ 32 - 1 else b - 1.
Proof.
  unfold u32, sub32, wrap32. intros H. destruct (Z.eqb_spec b 0) as [->|Hn].
  - reflexivity.
  - apply Z.mod_small. lia.
Qed.

Lemma add32_one (a : Z) : u32 a -> add32 a 1 = if a =? 2 ^ 32 - 1 then 0 else a + 1.
Proof.
  unfold u32, add32, wrap32. intros H. destruct (Z.eqb_spec a (2 ^ 32 - 1)) as [->|Hn].
  - reflexivity.
  - apply Z.mod_small. lia.
Qed.

(** The test of the collector, [current (self) != current (fragment) - 1] on
    [guint32], is the test [current (fragment) != current (self) + 1]. *)
Lemma predecessor_successor (a b : Z) :
  u32 a -> u32 b -> (a = sub32 b 1 <-> b = add32 a 1).
Proof.
  intros Ha Hb. rewrite sub32_one, add32_one by assumption. unfold u32 in *.
  destruct (Z.eqb_spec b 0); destruct (Z.eqb_spec a (2 ^ 32 - 1)); lia.
Qed.

(** C10. A rejected [add] and an incomplete [complete] leave the message of
    the collector byte for byte as it was. *)
Theorem collector_failure_atomic (host : byte_order)
    (self fragment self' : MbimMessage) (e : GError)
    (other other' : MbimMessage) :
  (_mbim_message_fragment_collector_add host self fragment
     = Returns (self', Failure e) -> self' = self)
  /\ (_mbim_message_fragment_collector_complete host other
        = Returns (other', false) -> other' = other).
Proof.
  split.
  - intros H. pose proof (add_returns _ _ _ _ H) as (Hs & Hf & Ts & Tf).
    on_wire self Hs. on_wire fragment Hf.
    rewrite add_on_wire in H by assumption.
    destruct (cur =? sub32 cur0 1).
    + destruct (sub32 len0 20 =? 0); [discriminate|].
      destruct (G_MAXUINT - Z.of_nat (20 + length body) <? sub32 len0 20);
        [discriminate|].
      destruct (20 + sub32 len0 20 <=? Z.of_nat (20 + length body0)); discriminate.
    + injection H as <- _. reflexivity.
  - intros H. pose proof (complete_returns _ _ _ H) as (Hs & Ts).
    on_wire other Hs. rewrite complete_on_wire in H by assumption.
    destruct (cur =? sub32 tot 1); [discriminate|].
    injection H as <-. reflexivity.
Qed.

Lemma collector_failure_atomic_witness :
  (exists e,
     _mbim_message_fragment_collector_add G_LITTLE_ENDIAN fragment_0_of_2 fragment_2_of_2
       = Returns (fragment_0_of_2, Failure e))
  /\ _mbim_message_fragment_collector_complete G_LITTLE_ENDIAN fragment_0_of_2
       = Returns (fragment_0_of_2, false)
  /\ fragment_0_of_2 = fragment_0_of_2.
Proof.
  split; [eexists; vm_compute; reflexivity|].
  split; [vm_compute; reflexivity|].
  eapply (proj1 (collector_failure_atomic G_LITTLE_ENDIAN fragment_0_of_2
                   fragment_2_of_2 fragment_0_of_2 _ fragment_0_of_2 fragment_0_of_2)).
  vm_compute. reflexivity.
Defined.

(** C4. On a message of a fragmented type with its fragment header in the
    buffer, [complete] returns TRUE exactly when [current + 1] (on [guint32])
    equals [total]; and then it has rewritten the fragment header, and
    nothing else, to the little-endian [total = 1], [current = 0]. *)
Theorem collector_complete_spec (host : byte_order) (self : MbimMessage)
    (cur tot : Z) :
  MBIM_MESSAGE_IS_FRAGMENT host self = Returns true ->
  MBIM_MESSAGE_FRAGMENT_GET_CURRENT host self = Returns cur ->
  MBIM_MESSAGE_FRAGMENT_GET_TOTAL host self = Returns tot ->
  exists self' done,
    _mbim_message_fragment_collector_complete host self = Returns (self', done)
    /\ (done = true <-> add32 cur 1 = tot)
    /\ (cur < 2 ^ 32 - 1 -> (done = true <-> cur + 1 = tot))
    /\ (done = true ->
        self' = firstn 12 self ++ le_bytes 1 ++ le_bytes 0 ++ skipn 20 self
        /\ MBIM_MESSAGE_FRAGMENT_GET_TOTAL host self' = Returns 1
        /\ MBIM_MESSAGE_FRAGMENT_GET_CURRENT host self' = Returns 0
        /\ MBIM_MESSAGE_GET_MESSAGE_TYPE host self'
           = MBIM_MESSAGE_GET_MESSAGE_TYPE host self
        /\ MBIM_MESSAGE_IS_FRAGMENT host self' = Returns true).
Proof.
  intros Hf Hc Ht.
  apply is_fragment_inv in Hf as [_ Hf].
  apply fragment_get_current_inv in Hc as [H20 Hc].
  apply fragment_get_total_inv in Ht as [_ Ht].
  on_wire self H20. subst cur tot.
  rewrite complete_on_wire by assumption.
  assert (Hiff : cur0 = sub32 tot0 1 <-> add32 cur0 1 = tot0).
  { rewrite predecessor_successor by assumption. split; congruence. }
  destruct (Z.eqb_spec cur0 (sub32 tot0 1)) as [E|E].
  - exists (fragment_message ty len tid 1 0 body), true.
    split; [reflexivity|]. split; [tauto|]. split.
    { intros Hlt. rewrite add32_one in Hiff by assumption.
      destruct (Z.eqb_spec cur0 (2 ^ 32 - 1)); [lia|]. tauto. }
    intros _. split; [reflexivity|].
    rewrite fragment_get_total_eq, fragment_get_current_eq, !get_message_type_eq,
      is_fragment_eq.
    rewrite !fragment_message_length. within20. fields.
    rewrite (wrap32_small ty) by assumption. rewrite Hf. repeat split.
  - exists (fragment_message ty len tid tot0 cur0 body), false.
    split; [reflexivity|]. split; [|split].
    + split; [discriminate|]. intros. tauto.
    + intros Hlt. rewrite add32_one in Hiff by assumption.
      destruct (Z.eqb_spec cur0 (2 ^ 32 - 1)); [lia|].
      split; [discriminate|]. intros. tauto.
    + discriminate.
Qed.

Lemma collector_complete_spec_witness :
  exists self' done,
    _mbim_message_fragment_collector_complete G_BIG_ENDIAN
      (fragment_message MBIM_MESSAGE_TYPE_INDICATION 22 9 2 1 [x0e; x0f])
      = Returns (self', done)
    /\ (done = true <-> add32 1 1 = 2).
Proof.
  destruct (collector_complete_spec G_BIG_ENDIAN
              (fragment_message MBIM_MESSAGE_TYPE_INDICATION 22 9 2 1 [x0e; x0f]) 1 2)
    as (self' & done & H & Hiff & _);
    [vm_compute; reflexivity | vm_compute; reflexivity | vm_compute; reflexivity |].
  exists self', done. split; assumption.
Defined.

Lemma get_payload_on_wire (host : byte_order) ty len tid tot cur p :
  u32 ty -> u32 len -> is_fragment_type ty = true ->
  _mbim_message_fragment_get_payload host (fragment_message ty len tid tot cur p)
  = Returns ({| region := fragment_message ty len tid tot cur p; offset := 20 |},
             sub32 len 20).
Proof.
  intros Hty Hlen Hf. unfold _mbim_message_fragment_get_payload, g_assert.
  rewrite is_fragment_eq, get_message_length_eq, fragment_message_length.
  within20. fields. rewrite !wrap32_small by assumption.
  cbn [bind]. rewrite Hf. cbn [bind]. rewrite sub32_headers. reflexivity.
Qed.







Lemma init_eq (host : byte_order) (fragment : MbimMessage) :
  (20 <= length fragment)%nat ->
  is_fragment_type (le32_at 0 fragment) = true ->
  _mbim_message_fragment_collector_init host fragment
  = if le32_at 16 fragment =? 0 then
      copy <- mbim_message_dup host fragment ;; Returns (Success copy)
    else Returns (Failure (out_of_sequence "0" (fmt_u (le32_at 12 fragment))
                             (fmt_u (le32_at 16 fragment))
                             (fmt_u (le32_at 12 fragment)))).
Proof.
  intros H T. rewrite dup_eq. on_wire fragment H.
  rewrite init_on_wire by assumption.
  rewrite fragment_message_length. within20.
  destruct (cur =? 0); [|reflexivity].
  destruct (len <=? Z.of_nat (20 + length body)); reflexivity.
Qed.

Lemma add_rejects (host : byte_order) (self fragment : MbimMessage) :
  (20 <= length self)%nat -> (20 <= length fragment)%nat ->
  is_fragment_type (le32_at 0 self) = true ->
  is_fragment_type (le32_at 0 fragment) = true ->
  le32_at 16 fragment <> add32 (le32_at 16 self) 1 ->
  _mbim_message_fragment_collector_add host self fragment
  = Returns (self, Failure (out_of_sequence (fmt_u (add32 (le32_at 16 self) 1))
                              (fmt_u (le32_at 12 self))
                              (fmt_u (le32_at 16 fragment))
                              (fmt_u (le32_at 12 fragment)))).
Proof.
  intros Hs Hf Ts Tf Hne. on_wire self Hs. on_wire fragment Hf.
  rewrite add_on_wire by assumption.
  destruct (Z.eqb_spec cur (sub32 cur0 1)) as [E|E]; [|reflexivity].
  apply predecessor_successor in E; [congruence|assumption|assumption].
Qed.

Lemma add_in_sequence (host : byte_order) (self fragment self' : MbimMessage)
    (e : GError) :
  _mbim_message_fragment_collector_add host self fragment
    = Returns (self', Failure e) ->
  le32_at 16 fragment <> add32 (le32_at 16 self) 1.
Proof.
  intros H. pose proof (add_returns _ _ _ _ H) as (Hs & Hf & Ts & Tf).
  on_wire self Hs. on_wire fragment Hf.
  rewrite add_on_wire in H by assumption.
  destruct (Z.eqb_spec cur (sub32 cur0 1)) as [E|E].
  - destruct (sub32 len0 20 =? 0); [discriminate|].
    destruct (G_MAXUINT - Z.of_nat (20 + length body) <? sub32 len0 20);
      [discriminate|].
    destruct (20 + sub32 len0 20 <=? Z.of_nat (20 + length body0)); discriminate.
  - intros E'. apply E. apply predecessor_successor; assumption.
Qed.

(** C3. [init] fails with FRAGMENT_OUT_OF_SEQUENCE whenever [current] of the
    first fragment is not 0, citing expected [0/total] and the actual
    [current/total]; otherwise it returns what [mbim_message_dup] returns, so
    it succeeds exactly when [current] is 0 and the copy can be made. [add]
    fails with FRAGMENT_OUT_OF_SEQUENCE, leaving [self] alone, whenever
    [current] of the fragment is not [current + 1] (on [guint32]) of the
    collector, citing expected [current + 1/total] of the collector and the
    actual [current/total] of the fragment; and it fails in no other case. *)
Theorem collector_sequencing (host : byte_order)
    (first self fragment : MbimMessage) (c0 t0 cs ts cf tf : Z) :
  MBIM_MESSAGE_IS_FRAGMENT host first = Returns true ->
  MBIM_MESSAGE_FRAGMENT_GET_CURRENT host first = Returns c0 ->
  MBIM_MESSAGE_FRAGMENT_GET_TOTAL host first = Returns t0 ->
  MBIM_MESSAGE_IS_FRAGMENT host self = Returns true ->
  MBIM_MESSAGE_FRAGMENT_GET_CURRENT host self = Returns cs ->
  MBIM_MESSAGE_FRAGMENT_GET_TOTAL host self = Returns ts ->
  MBIM_MESSAGE_IS_FRAGMENT host fragment = Returns true ->
  MBIM_MESSAGE_FRAGMENT_GET_CURRENT host fragment = Returns cf ->
  MBIM_MESSAGE_FRAGMENT_GET_TOTAL host fragment = Returns tf ->
  (c0 <> 0 ->
   _mbim_message_fragment_collector_init host first
   = Returns (Failure
       {| domain := MBIM_PROTOCOL_ERROR;
          code := MBIM_PROTOCOL_ERROR_FRAGMENT_OUT_OF_SEQUENCE;
          message := "Expecting fragment '0/" ++ fmt_u t0 ++ "', got '"
                       ++ fmt_u c0 ++ "/" ++ fmt_u t0 ++ "'" |}))
  /\ (c0 = 0 ->
      _mbim_message_fragment_collector_init host first
      = (copy <- mbim_message_dup host first ;; Returns (Success copy)))
  /\ (forall copy,
        _mbim_message_fragment_collector_init host first = Returns (Success copy)
        <-> c0 = 0 /\ mbim_message_dup host first = Returns copy)
  /\ (cf <> add32 cs 1 ->
      _mbim_message_fragment_collector_add host self fragment
      = Returns (self, Failure
          {| domain := MBIM_PROTOCOL_ERROR;
             code := MBIM_PROTOCOL_ERROR_FRAGMENT_OUT_OF_SEQUENCE;
             message := "Expecting fragment '" ++ fmt_u (add32 cs 1) ++ "/"
                          ++ fmt_u ts ++ "', got '" ++ fmt_u cf ++ "/"
                          ++ fmt_u tf ++ "'" |}))
  /\ (cs < 2 ^ 32 - 1 -> cf <> cs + 1 ->
      _mbim_message_fragment_collector_add host self fragment
      = Returns (self, Failure
          {| domain := MBIM_PROTOCOL_ERROR;
             code := MBIM_PROTOCOL_ERROR_FRAGMENT_OUT_OF_SEQUENCE;
             message := "Expecting fragment '" ++ fmt_u (cs + 1) ++ "/"
                          ++ fmt_u ts ++ "', got '" ++ fmt_u cf ++ "/"
                          ++ fmt_u tf ++ "'" |}))
  /\ (forall self' e,
        _mbim_message_fragment_collector_add host self fragment
          = Returns (self', Failure e) ->
        cf <> add32 cs 1).
Proof.
  intros F0 C0 T0 Fs Cs Ts Ff Cf Tf.
  apply is_fragment_inv in F0 as [_ F0]. apply is_fragment_inv in Fs as [_ Fs].
  apply is_fragment_inv in Ff as [_ Ff].
  apply fragment_get_current_inv in C0 as [L0 C0].
  apply fragment_get_current_inv in Cs as [Ls Cs].
  apply fragment_get_current_inv in Cf as [Lf Cf].
  apply fragment_get_total_inv in T0 as [_ T0].
  apply fragment_get_total_inv in Ts as [_ Ts].
  apply fragment_get_total_inv in Tf as [_ Tf].
  pose proof (init_eq host first L0 F0) as I. rewrite C0, T0 in I.
  split; [|split; [|split; [|split; [|split]]]].
  - intros Hne. rewrite I. destruct (Z.eqb_spec c0 0); [contradiction|]. reflexivity.
  - intros ->. rewrite I. reflexivity.
  - intros copy. rewrite I. destruct (Z.eqb_spec c0 0) as [E|E].
    + destruct (mbim_message_dup host first) as [m|c]; cbn [bind].
      * split.
        -- intros H. injection H as ->. split; [exact E|reflexivity].
        -- intros [_ H]. injection H as ->. reflexivity.
      * split; [discriminate|]. intros [_ H]. discriminate.
    + split; [discriminate|]. intros [H _]. contradiction.
  - intros Hne. subst cs ts cf tf. apply add_rejects; assumption.
  - intros Hlt Hne.
    assert (E1 : add32 cs 1 = cs + 1).
    { pose proof (le32_at_u32 16 self ltac:(lia)) as R. rewrite Cs in R.
      rewrite add32_one by exact R.
      destruct (Z.eqb_spec cs (2 ^ 32 - 1)); [lia|reflexivity]. }
    rewrite <- E1 in *. subst cs ts cf tf. apply add_rejects; assumption.
  - intros self' e H. subst cs cf. eapply add_in_sequence. exact H.
Qed.

Lemma collector_sequencing_witness :
  _mbim_message_fragment_collector_init G_LITTLE_ENDIAN fragment_0_of_2
    = Returns (Success fragment_0_of_2)
  /\ _mbim_message_fragment_collector_add G_LITTLE_ENDIAN fragment_0_of_2 fragment_2_of_2
     = Returns (fragment_0_of_2, Failure
         {| domain := MBIM_PROTOCOL_ERROR;
            code := MBIM_PROTOCOL_ERROR_FRAGMENT_OUT_OF_SEQUENCE;
            message := "Expecting fragment '1/2', got '2/2'" |})
  /\ _mbim_message_fragment_collector_init G_LITTLE_ENDIAN fragment_1_of_2
     = Returns (Failure
         {| domain := MBIM_PROTOCOL_ERROR;
            code := MBIM_PROTOCOL_ERROR_FRAGMENT_OUT_OF_SEQUENCE;
            message := "Expecting fragment '0/2', got '1/2'" |}).
Proof.
  split; [vm_compute; reflexivity|]. split.
  - apply (proj1 (proj2 (proj2 (proj2
      (collector_sequencing G_LITTLE_ENDIAN fragment_1_of_2 fragment_0_of_2
         fragment_2_of_2 1 2 0 2 2 2
         eq_refl eq_refl eq_refl eq_refl eq_refl eq_refl eq_refl eq_refl eq_refl))))).
    vm_compute. discriminate.
  - apply (proj1
      (collector_sequencing G_LITTLE_ENDIAN fragment_1_of_2 fragment_0_of_2
         fragment_2_of_2 1 2 0 2 2 2
         eq_refl eq_refl eq_refl eq_refl eq_refl eq_refl eq_refl eq_refl eq_refl)).
    discriminate.
Defined.

(* ------------------------------------------------------------------------- *)
(** ** The length field against the length of the buffer *)

Lemma init_returns (host : byte_order) (fragment : MbimMessage)
    (r : checked MbimMessage) :
  _mbim_message_fragment_collector_init host fragment = Returns r ->
  (20 <= length fragment)%nat /\ is_fragment_type (le32_at 0 fragment) = true.
Proof.
  unfold _mbim_message_fragment_collector_init, g_assert.
  rewrite !is_fragment_eq, !fragment_get_current_eq.
  destruct (Nat.leb_spec 4 (length fragment)); cbn [bind]; [|discriminate].
  destruct (is_fragment_type (le32_at 0 fragment)); cbn [bind]; [|discriminate].
  destruct (Nat.leb_spec 20 (length fragment)); cbn [bind]; [|discriminate].
  intros _. split; [assumption|reflexivity].
Qed.

Lemma init_copies (host : byte_order) (fragment self : MbimMessage) :
  _mbim_message_fragment_collector_init host fragment = Returns (Success self) ->
  le32_at 16 fragment = 0
  /\ le32_at 4 fragment <= Z.of_nat (length fragment)
  /\ self = firstn (Z.to_nat (le32_at 4 fragment)) fragment.
Proof.
  intros H. pose proof (init_returns _ _ _ H) as [H20 T].
  rewrite init_eq, dup_eq in H by assumption.
  destruct (Z.eqb_spec (le32_at 16 fragment) 0) as [E|E]; [|discriminate].
  destruct (8 <=? length fragment)%nat; [|discriminate].
  destruct (Z.leb_spec (le32_at 4 fragment) (Z.of_nat (length fragment)));
    [|discriminate].
  cbn [bind] in H. injection H as <-. repeat split; assumption.
Qed.

Lemma matches_on_wire (host : byte_order) ty len tid tot cur body :
  u32 len ->
  (length_matches_buffer host (fragment_message ty len tid tot cur body)
   <-> len = Z.of_nat (20 + length body)).
Proof.
  intros R. unfold length_matches_buffer, mbim_message_get_message_length.
  rewrite get_message_length_eq, fragment_message_length. within20. fields.
  rewrite wrap32_small by assumption. split.
  - intros E. injection E as E. exact E.
  - intros ->. reflexivity.
Qed.

Lemma init_establishes (host : byte_order) (fragment self : MbimMessage) (len : Z) :
  MBIM_MESSAGE_GET_MESSAGE_LENGTH host fragment = Returns len ->
  8 <= len ->
  _mbim_message_fragment_collector_init host fragment = Returns (Success self) ->
  length_matches_buffer host self.
Proof.
  intros Hlen H8 H. apply init_copies in H as (_ & Hle & ->).
  rewrite get_message_length_eq in Hlen.
  destruct (8 <=? length fragment)%nat; [|discriminate].
  injection Hlen as Hlen. rewrite Hlen in *.
  apply length_matches_buffer_intro.
  - rewrite length_firstn. lia.
  - rewrite le32_at_firstn by lia. rewrite length_firstn. lia.
Qed.

Lemma add_preserves (host : byte_order) (self fragment self' : MbimMessage) :
  length_matches_buffer host self ->
  _mbim_message_fragment_collector_add host self fragment
    = Returns (self', Success tt) ->
  length_matches_buffer host self'.
Proof.
  intros M H. pose proof (add_returns _ _ _ _ H) as (Hs & Hf & Ts & Tf).
  on_wire self Hs. on_wire fragment Hf.
  rewrite add_on_wire in H by assumption.
  apply matches_on_wire in M; [|assumption].
  pose proof (wrap32_u32 (len0 - 20)) as Rn. fold (sub32 len0 20) in Rn.
  set (n := sub32 len0 20) in *. unfold u32 in Rn.
  destruct (cur =? sub32 cur0 1); [|discriminate].
  destruct (Z.eqb_spec n 0) as [En|En].
  - injection H as <-. apply matches_on_wire; assumption.
  - destruct (Z.ltb_spec (G_MAXUINT - Z.of_nat (20 + length body)) n) as [Ho|Ho];
      [discriminate|].
    destruct (Z.leb_spec (20 + n) (Z.of_nat (20 + length body0))) as [Hb|Hb];
      [|discriminate].
    injection H as <-. apply matches_on_wire; [apply wrap32_u32|].
    unfold add32. rewrite wrap32_small by (unfold u32, G_MAXUINT in *; lia).
    rewrite length_app, length_firstn. lia.
Qed.

Lemma complete_preserves (host : byte_order) (self self' : MbimMessage)
    (done : bool) :
  length_matches_buffer host self ->
  _mbim_message_fragment_collector_complete host self = Returns (self', done) ->
  length_matches_buffer host self'.
Proof.
  intros M H. pose proof (complete_returns _ _ _ H) as (Hs & Ts).
  on_wire self Hs. rewrite complete_on_wire in H by assumption.
  apply matches_on_wire in M; [|assumption].
  destruct (cur =? sub32 tot 1); injection H as <- _;
    apply matches_on_wire; assumption.
Qed.

(** The claim of C5 fails after [init] on a first fragment whose length field
    is smaller than the header: the copy has four bytes and no length field. *)
Lemma length_invariant_counterexample :
  exists self,
    _mbim_message_fragment_collector_init G_LITTLE_ENDIAN short_length_fragment
      = Returns (Success self)
    /\ mbim_message_get_raw self = Success ([x03; x00; x00; x00], 4)
    /\ ~ length_matches_buffer G_LITTLE_ENDIAN self.
Proof.
  exists [x03; x00; x00; x00]. split; [vm_compute; reflexivity|].
  split; [reflexivity|]. intros H. vm_compute in H. discriminate H.
Qed.

(** C5, amended. The length field of the header equals the byte length of the
    buffer after [open_new], [close_new] and [error_new], and for every
    message the collector can hold when the first fragment had a length field
    of at least 8: after the successful [init], after every successful [add]
    and after [complete], normalizing or not. *)
Theorem length_invariant (host : byte_order) (uninit : nat -> byte) :
  (forall tid mct, exists m,
      mbim_message_open_new host uninit tid mct = Returns m
      /\ length_matches_buffer host m)
  /\ (forall tid, exists m,
        mbim_message_close_new host uninit tid = Returns m
        /\ length_matches_buffer host m)
  /\ (forall tid err, exists m,
        mbim_message_error_new host uninit tid err = Returns m
        /\ length_matches_buffer host m)
  /\ (forall self, collecting host self -> length_matches_buffer host self).
Proof.
  split; [|split; [|split]].
  - intros tid mct. eexists. split; [apply open_new_bytes|].
    apply length_matches_buffer_intro; [cbn; lia|]. apply le_value_le_bytes.
  - intros tid. eexists. split; [apply close_new_bytes|].
    apply length_matches_buffer_intro; [cbn; lia|]. apply le_value_le_bytes.
  - intros tid err. eexists. split; [apply error_new_bytes|].
    apply length_matches_buffer_intro; [cbn; lia|]. apply le_value_le_bytes.
  - intros self C. induction C as [fragment self len Hlen H8 Hinit
                                  | self fragment self' _ IH Hadd
                                  | self self' done _ IH Hdone].
    + eapply init_establishes; eassumption.
    + eapply add_preserves; eassumption.
    + eapply complete_preserves; eassumption.
Qed.

Lemma length_invariant_witness :
  collecting G_BIG_ENDIAN
    (fragment_message MBIM_MESSAGE_TYPE_COMMAND 26 9 1 0
       [x0a; x0b; x0c; x0d; x0e; x0f])
  /\ length_matches_buffer G_BIG_ENDIAN
       (fragment_message MBIM_MESSAGE_TYPE_COMMAND 26 9 1 0
          [x0a; x0b; x0c; x0d; x0e; x0f]).
Proof.
  assert (C : collecting G_BIG_ENDIAN
                (fragment_message MBIM_MESSAGE_TYPE_COMMAND 26 9 1 0
                   [x0a; x0b; x0c; x0d; x0e; x0f])).
  { apply (collecting_complete G_BIG_ENDIAN
             (fragment_message MBIM_MESSAGE_TYPE_COMMAND 26 9 2 1
                [x0a; x0b; x0c; x0d; x0e; x0f]) _ true).
    - apply (collecting_add G_BIG_ENDIAN fragment_0_of_2 fragment_1_of_2).
      + apply (collecting_init G_BIG_ENDIAN fragment_0_of_2 _ 24).
        * vm_compute. reflexivity.
        * lia.
        * vm_compute. reflexivity.
      + vm_compute. reflexivity.
    - vm_compute. reflexivity. }
  split; [exact C|].
  apply (proj2 (proj2 (proj2 (length_invariant G_BIG_ENDIAN (fun _ => x00))))).
  exact C.
Defined.

(* ------------------------------------------------------------------------- *)
(** ** The fragment codec *)

Lemma ceil_div_bounds (P F : Z) :
  0 < F -> 0 <= P -> (ceil_div P F - 1) * F < P <= ceil_div P F * F.
Proof.
  intros HF HP. unfold ceil_div.
  pose proof (Z.div_mod (P + F - 1) F ltac:(lia)) as E.
  pose proof (Z.mod_pos_bound (P + F - 1) F HF) as B.
  set (q := (P + F - 1) / F) in *. set (r := (P + F - 1) mod F) in *. nia.
Qed.

Lemma ceil_div_unique (P F N : Z) :
  0 < F -> (N - 1) * F < P <= N * F -> ceil_div P F = N.
Proof.
  intros HF H. unfold ceil_div. symmetry.
  apply Z.div_unique with (r := P + F - 1 - F * N); lia.
Qed.

(** The count the code computes: the quotient, plus one when the division
    leaves a remainder. *)
Lemma total_fragments_ceil (P F : Z) :
  0 < F -> 0 <= P -> P < 2 ^ 32 ->
  (if negb (P mod F =? 0) then add32 (P / F) 1 else P / F) = ceil_div P F.
Proof.
  intros HF HP Hlt. symmetry.
  pose proof (Z.div_mod P F ltac:(lia)) as E.
  pose proof (Z.mod_pos_bound P F HF) as B.
  assert (Hq : 0 <= P / F <= P).
  { split; [apply Z.div_pos; lia|]. apply Z.div_le_upper_bound; nia. }
  destruct (Z.eqb_spec (P mod F) 0) as [E0|E0]; cbn [negb].
  - apply ceil_div_unique; [exact HF|]. nia.
  - unfold add32. rewrite wrap32_small by (unfold u32; lia).
    apply ceil_div_unique; [exact HF|]. nia.
Qed.

Section Slices.

Variables N F P : Z.

Hypothesis F_positive : 0 < F.
Hypothesis N_ceil : (N - 1) * F < P <= N * F.

Lemma slice_length_inner (i : nat) :
  Z.of_nat i + 1 < N -> slice_length F P i = F.
Proof using All. unfold slice_length. intros H. nia. Qed.

Lemma slice_length_positive (i : nat) :
  Z.of_nat i < N -> 0 < slice_length F P i <= F.
Proof using All. unfold slice_length. intros H. nia. Qed.

Lemma slice_length_last (i : nat) :
  Z.of_nat i + 1 = N -> slice_length F P i = P - Z.of_nat i * F.
Proof using All. unfold slice_length. intros H. nia. Qed.

Lemma slice_offset_succ (i : nat) :
  Z.of_nat i + 1 < N ->
  slice_offset F (S i) = (slice_offset F i + Z.to_nat (slice_length F P i))%nat.
Proof using All.
  intros H. rewrite slice_length_inner by exact H. unfold slice_offset. nia.
Qed.

Lemma total_data_length_spec (host : byte_order) (m : MbimMessage) (ty tid : Z)
    (n i : nat) :
  Z.of_nat i + Z.of_nat n = N -> (0 < n)%nat ->
  total_data_length (map (spec_descriptor host m ty tid N F P) (seq i n))
  = P - Z.of_nat i * F.
Proof using All.
  unfold total_data_length. revert i. induction n as [|n IH]; intros i Hn Hpos; [lia|].
  cbn [seq map fold_right data_length spec_descriptor].
  destruct n as [|n'].
  - cbn [seq map fold_right]. rewrite slice_length_last by lia. lia.
  - rewrite IH by lia. rewrite slice_length_inner by lia. lia.
Qed.

End Slices.

Section Split.

Variable host : byte_order.
Variable self : MbimMessage.
Variables ty tid N F P : Z.

Hypothesis header_in_buffer : (12 <= length self)%nat.
Hypothesis type_of_self : le32_at 0 self = ty.
Hypothesis tid_of_self : le32_at 8 self = tid.
Hypothesis F_positive : 0 < F.
Hypothesis F_fits : F + 20 < 2 ^ 32.
Hypothesis N_ceil : (N - 1) * F < P <= N * F.
Hypothesis N_fits : N < 2 ^ 32.
Hypothesis P_fits : P < 2 ^ 32.

Lemma split_loop_spec (n i : nat) (array : list fragment_info) :
  length array = i -> Z.of_nat i + Z.of_nat n = N ->
  split_loop host self 20 F N n (Z.of_nat i)
    {| region := self; offset := 20 + slice_offset F i |}
    (P - Z.of_nat i * F) array
  = Returns (array ++ map (spec_descriptor host self ty tid N F P) (seq i n)).
Proof using All.
  revert i array. induction n as [|n IH]; intros i array Hlen Hn.
  - cbn [split_loop seq map]. rewrite app_nil_r. reflexivity.
  - cbn [split_loop]. rewrite get_message_type_eq, get_transaction_id_eq.
    destruct (Nat.leb_spec 4 (length self)) as [_|?]; [|lia].
    destruct (Nat.leb_spec 12 (length self)) as [_|?]; [|lia].
    cbn [bind]. rewrite type_of_self, tid_of_self.
    pose proof (slice_length_positive N F P F_positive N_ceil i ltac:(lia)) as Hs.
    assert (Emin : (if P - Z.of_nat i * F >? F then F else P - Z.of_nat i * F)
                   = slice_length F P i).
    { unfold slice_length. destruct (Z.gtb_spec (P - Z.of_nat i * F) F); lia. }
    rewrite Emin.
    assert (Ehl : add32 20 (slice_length F P i) = 20 + slice_length F P i).
    { unfold add32. apply wrap32_small. unfold u32. lia. }
    rewrite Ehl.
    assert (Eins : g_array_insert_val array (Z.of_nat i)
                     (spec_descriptor host self ty tid N F P i)
                   = array ++ [spec_descriptor host self ty tid N F P i]).
    { unfold g_array_insert_val. rewrite Nat2Z.id, <- Hlen.
      rewrite firstn_all, skipn_all. reflexivity. }
    unfold spec_descriptor in Eins at 1. rewrite Eins. clear Eins.
    cbn [seq map].
    replace (array ++ spec_descriptor host self ty tid N F P i
               :: map (spec_descriptor host self ty tid N F P) (seq (S i) n))
      with ((array ++ [spec_descriptor host self ty tid N F P i])
              ++ map (spec_descriptor host self ty tid N F P) (seq (S i) n))
      by (rewrite <- app_assoc; reflexivity).
    destruct n as [|n'].
    + cbn [split_loop seq map]. rewrite app_nil_r. reflexivity.
    + assert (Hin : Z.of_nat i + 1 < N) by lia.
      assert (Ei : add32 (Z.of_nat i) 1 = Z.of_nat (S i)).
      { unfold add32. rewrite wrap32_small by (unfold u32; lia). lia. }
      rewrite Ei.
      assert (Ed : sub32 (P - Z.of_nat i * F) (slice_length F P i)
                   = P - Z.of_nat (S i) * F).
      { rewrite (slice_length_inner N F P F_positive N_ceil) by exact Hin.
        unfold sub32. rewrite wrap32_small by (unfold u32; nia). nia. }
      rewrite Ed.
      assert (Ep : ptr_add {| region := self; offset := 20 + slice_offset F i |}
                     (slice_length F P i)
                   = {| region := self; offset := 20 + slice_offset F (S i) |}).
      { unfold ptr_add. cbn [region offset]. f_equal.
        rewrite (slice_offset_succ N F P F_positive N_ceil) by exact Hin. lia. }
      rewrite Ep.
      apply IH; [rewrite length_app; cbn [length]; lia | lia].
Qed.

End Split.

Lemma getter_inv (host : byte_order) (off : nat) (m : MbimMessage) (v : Z) :
  (v0 <- load32 host off m ;; Returns (GUINT32_FROM_LE host v0)) = Returns v ->
  (off + 4 <= length m)%nat /\ le32_at off m = v.
Proof.
  rewrite load32_from_le. destruct (Nat.leb_spec (off + 4) (length m)); [|discriminate].
  intros E. injection E as E. split; assumption.
Qed.

Lemma split_none (host : byte_order) (self : MbimMessage) (S len : Z) :
  MBIM_MESSAGE_GET_MESSAGE_LENGTH host self = Returns len ->
  len <= S ->
  _mbim_message_split_fragments host self S = Returns None.
Proof.
  intros Hlen Hle. unfold _mbim_message_split_fragments, mbim_message_get_message_length.
  rewrite Hlen. cbn [bind].
  destruct (Z.leb_spec len S); [reflexivity|lia].
Qed.

Lemma split_some (host : byte_order) (self : MbimMessage) (S len ty tid : Z) :
  MBIM_MESSAGE_GET_MESSAGE_LENGTH host self = Returns len ->
  MBIM_MESSAGE_GET_MESSAGE_TYPE host self = Returns ty ->
  MBIM_MESSAGE_GET_TRANSACTION_ID host self = Returns tid ->
  20 < S -> S < len ->
  _mbim_message_split_fragments host self S
  = Returns (Some (spec_descriptors host self ty tid
                     (ceil_div (len - 20) (S - 20)) (S - 20) (len - 20))).
Proof.
  intros Hlen Hty Htid HS Hlt.
  unfold _mbim_message_split_fragments, mbim_message_get_message_length.
  rewrite Hlen. cbn [bind].
  apply getter_inv in Hlen as [B4 Elen]. apply getter_inv in Hty as [B0 Ety].
  apply getter_inv in Htid as [B8 Etid].
  pose proof (le32_at_u32 _ _ B4) as R. rewrite Elen in R. unfold u32 in R.
  cbn [offsetof_length offsetof_type offsetof_transaction_id Nat.add] in *.
  destruct (Z.leb_spec len S); [lia|].
  change (add32 sizeof_header sizeof_fragment_header) with 20.
  assert (EP : sub32 len 20 = len - 20).
  { unfold sub32. apply wrap32_small. unfold u32. lia. }
  assert (EF : sub32 S 20 = S - 20).
  { unfold sub32. apply wrap32_small. unfold u32. lia. }
  rewrite EP, EF.
  destruct (Z.eqb_spec (S - 20) 0); [lia|].
  rewrite total_fragments_ceil by lia.
  pose proof (ceil_div_bounds (len - 20) (S - 20) ltac:(lia) ltac:(lia)) as HN.
  set (N := ceil_div (len - 20) (S - 20)) in *.
  assert (HN1 : 0 <= N) by nia.
  assert (HN2 : N < 2 ^ 32) by nia.
  pose proof (split_loop_spec host self ty tid N (S - 20) (len - 20)
                ltac:(lia) Ety Etid ltac:(lia) ltac:(lia) HN HN2 ltac:(lia)
                (Z.to_nat N) 0%nat [] eq_refl ltac:(lia)) as L.
  cbn [Z.of_nat slice_offset Z.mul Z.to_nat Nat.add] in L.
  rewrite Z.sub_0_r in L.
  unfold offsetof_fragment_buffer. rewrite L. reflexivity.
Qed.

Lemma spec_descriptor_bytes (host : byte_order) (m : MbimMessage)
    (ty tid N F P : Z) (i : nat) :
  header_bytes host (info_header (spec_descriptor host m ty tid N F P i))
    = le_bytes ty ++ le_bytes (20 + slice_length F P i) ++ le_bytes tid
  /\ fragment_header_bytes host
       (info_fragment_header (spec_descriptor host m ty tid N F P i))
     = le_bytes N ++ le_bytes (Z.of_nat i).
Proof.
  unfold header_bytes, fragment_header_bytes, spec_descriptor.
  cbn [info_header info_fragment_header type length_ transaction_id total current].
  rewrite !native_store_to_le. split; reflexivity.
Qed.

Lemma spec_descriptors_nth (host : byte_order) (m : MbimMessage)
    (ty tid N F P : Z) (i : nat) :
  Z.of_nat i < N ->
  nth_error (spec_descriptors host m ty tid N F P) i
  = Some (spec_descriptor host m ty tid N F P i).
Proof.
  intros H. unfold spec_descriptors.
  rewrite nth_error_map, nth_error_seq.
  destruct (Nat.ltb_spec i (Z.to_nat N)); [reflexivity|lia].
Qed.

(** C2. [split] returns nothing exactly when the message fits; otherwise,
    with [P = length - 20] and [F = max_fragment_size - 20] positive, it
    returns the [N = ceil (P / F)] descriptors of the spec: number [i] points
    at offset [i * F] of the fragment-payload region, carries
    [min (F, P - i * F)] bytes, and its two headers hold, little-endian,
    [length = 20 + slice], the type and transaction id of the message,
    [total = N] and [current = i]; the slice lengths add up to [P]. With a
    payload of 200 bytes and a maximum of 64 there are five fragments of 44,
    44, 44, 44 and 24 bytes, the last with length field 44. *)
Theorem split_shape (host : byte_order) (self : MbimMessage) (S len ty tid : Z) :
  MBIM_MESSAGE_GET_MESSAGE_LENGTH host self = Returns len ->
  MBIM_MESSAGE_GET_MESSAGE_TYPE host self = Returns ty ->
  MBIM_MESSAGE_GET_TRANSACTION_ID host self = Returns tid ->
  20 < S ->
  let P := len - 20 in
  let F := S - 20 in
  let N := ceil_div P F in
  (_mbim_message_split_fragments host self S = Returns None <-> len <= S)
  /\ (S < len ->
      exists infos,
        _mbim_message_split_fragments host self S = Returns (Some infos)
        /\ infos = spec_descriptors host self ty tid N F P
        /\ Z.of_nat (length infos) = N
        /\ (N - 1) * F < P <= N * F
        /\ total_data_length infos = P
        /\ (forall i, Z.of_nat i < N ->
              exists info,
                nth_error infos i = Some info
                /\ data info = {| region := self;
                                  offset := 20 + Z.to_nat (Z.of_nat i * F) |}
                /\ data_length info = Z.min F (P - Z.of_nat i * F)
                /\ header_bytes host (info_header info)
                   = le_bytes ty ++ le_bytes (20 + data_length info) ++ le_bytes tid
                /\ fragment_header_bytes host (info_fragment_header info)
                   = le_bytes N ++ le_bytes (Z.of_nat i)))
  /\ (len = 220 -> S = 64 ->
      exists infos last,
        _mbim_message_split_fragments host self S = Returns (Some infos)
        /\ map data_length infos = [44; 44; 44; 44; 24]
        /\ nth_error infos 4 = Some last
        /\ header_bytes host (info_header last)
           = le_bytes ty ++ le_bytes 44 ++ le_bytes tid).
Proof.
  intros Hlen Hty Htid HS P F N.
  pose proof Hlen as Hlen'. apply getter_inv in Hlen' as [B4 Elen].
  pose proof (le32_at_u32 _ _ B4) as R. rewrite Elen in R. unfold u32 in R.
  split; [|split].
  - split.
    + intros H. destruct (Z.leb_spec len S) as [Hle|Hgt]; [exact Hle|].
      rewrite (split_some host self S len ty tid) in H by assumption. discriminate.
    + apply split_none. exact Hlen.
  - intros Hlt.
    pose proof (ceil_div_bounds P F ltac:(unfold F; lia) ltac:(unfold P; lia)) as HN.
    fold N in HN. assert (HN0 : 0 < N) by (unfold P, F in *; nia).
    exists (spec_descriptors host self ty tid N F P).
    split; [apply split_some; assumption|]. split; [reflexivity|].
    split; [unfold spec_descriptors; rewrite length_map, length_seq; lia|].
    split; [exact HN|]. split.
    + unfold spec_descriptors.
      rewrite (total_data_length_spec N F P ltac:(unfold F; lia) HN
                 host self ty tid (Z.to_nat N) 0%nat) by lia.
      cbn [Z.of_nat]. lia.
    + intros i Hi. exists (spec_descriptor host self ty tid N F P i).
      split; [apply spec_descriptors_nth; exact Hi|].
      split; [reflexivity|]. split; [reflexivity|].
      apply spec_descriptor_bytes.
  - intros E220 E64.
    exists (spec_descriptors host self ty tid N F P),
           (spec_descriptor host self ty tid N F P 4).
    split; [apply split_some; lia || assumption|].
    unfold N, P, F. rewrite E220, E64.
    split; [reflexivity|]. split; [reflexivity|].
    apply spec_descriptor_bytes.
Qed.

Lemma split_shape_witness :
  exists infos last,
    _mbim_message_split_fragments G_BIG_ENDIAN message_200 64 = Returns (Some infos)
    /\ map data_length infos = [44; 44; 44; 44; 24]
    /\ nth_error infos 4 = Some last
    /\ header_bytes G_BIG_ENDIAN (info_header last)
       = le_bytes 3 ++ le_bytes 44 ++ le_bytes 9.
Proof.
  apply (proj2 (proj2
    (split_shape G_BIG_ENDIAN message_200 64 220 3 9
       ltac:(vm_compute; reflexivity) ltac:(vm_compute; reflexivity)
       ltac:(vm_compute; reflexivity) ltac:(lia)))); reflexivity.
Defined.

(* ------------------------------------------------------------------------- *)
(** ** Splitting, then collecting *)

Lemma firstn_firstn_skipn {A : Type} (a b : nat) (l : list A) :
  (a <= b)%nat -> firstn a l ++ firstn (b - a) (skipn a l) = firstn b l.
Proof.
  intros H. rewrite <- (firstn_skipn a (firstn b l)).
  rewrite firstn_firstn, skipn_firstn_comm.
  replace (Nat.min a b) with a by lia. reflexivity.
Qed.

Lemma firstn_skipn_chain {A : Type} (a b c : nat) (l : list A) :
  (a <= b)%nat -> (b <= c)%nat ->
  firstn (b - a) (skipn a l) ++ firstn (c - b) (skipn b l)
  = firstn (c - a) (skipn a l).
Proof.
  intros Hab Hbc.
  rewrite <- (firstn_firstn_skipn (b - a) (c - a) (skipn a l)) by lia.
  rewrite skipn_skipn.
  replace (b - a + a)%nat with b by lia.
  replace (c - a - (b - a))%nat with (c - b)%nat by lia. reflexivity.
Qed.

Section Reassembly.

Variable host : byte_order.
Variables ty len tid tot cur N F : Z.
Variable body : list byte.

Let P : Z := Z.of_nat (length body).
Let m : MbimMessage := fragment_message ty len tid tot cur body.

Hypothesis ty_u32 : u32 ty.
Hypothesis tid_u32 : u32 tid.
Hypothesis ty_fragment : is_fragment_type ty = true.
Hypothesis F_positive : 0 < F.
Hypothesis N_ceil : (N - 1) * F < P <= N * F.
Hypothesis len_matches : len = 20 + P.
Hypothesis len_fits : len < 2 ^ 32.
Hypothesis two_fragments : F < P.

Lemma reach_monotone (i : nat) : (reach F body i <= reach F body (S i))%nat.
Proof using All. unfold reach. nia. Qed.

Lemma reach_bounded (i : nat) : (reach F body i <= length body)%nat.
Proof using All. unfold reach. lia. Qed.

Lemma reach_zero : reach F body 0 = 0%nat.
Proof using All. unfold reach. lia. Qed.

Lemma reach_all (i : nat) : N <= Z.of_nat i -> reach F body i = length body.
Proof using All. unfold reach. fold P. intros H. nia. Qed.

Lemma reach_offset (i : nat) : Z.of_nat i < N -> reach F body i = slice_offset F i.
Proof using All. unfold reach, slice_offset. fold P. intros H. nia. Qed.

Lemma reach_slice (i : nat) :
  Z.of_nat i < N ->
  Z.of_nat (reach F body (S i) - reach F body i) = slice_length F P i.
Proof using All.
  unfold reach, slice_length. fold P. intros H. nia.
Qed.

Lemma chunk_length (i : nat) :
  length (chunk F body i) = (reach F body (S i) - reach F body i)%nat.
Proof using All.
  unfold chunk. rewrite length_firstn, length_skipn.
  pose proof (reach_bounded (S i)). lia.
Qed.

Lemma chunk_slice (i : nat) :
  Z.of_nat i < N -> Z.of_nat (length (chunk F body i)) = slice_length F P i.
Proof using All.
  intros H. rewrite chunk_length. apply reach_slice, H.
Qed.

Lemma descriptor_payload (i : nat) :
  Z.of_nat i < N ->
  fragment_payload (spec_descriptor host m ty tid N F P i)
  = Returns (chunk F body i).
Proof using All.
  intros H. unfold fragment_payload, read_bytes, spec_descriptor.
  cbn [data data_length region offset].
  unfold m at 1. rewrite fragment_message_length.
  pose proof (reach_slice i H) as Es. pose proof (reach_offset i H) as Eo.
  pose proof (reach_bounded (S i)) as Hb. pose proof (reach_monotone i) as Hm.
  destruct (Z.leb_spec (Z.of_nat (20 + slice_offset F i) + slice_length F P i)
              (Z.of_nat (20 + length body))) as [_|Hgt]; [|lia].
  change (skipn (20 + slice_offset F i) m) with (skipn (slice_offset F i) body).
  unfold chunk. rewrite <- Eo, <- Es, Nat2Z.id. reflexivity.
Qed.

Lemma descriptor_on_wire (i : nat) :
  Z.of_nat i < N ->
  fragment_on_wire host (spec_descriptor host m ty tid N F P i)
  = Returns (wire_fragment ty tid N F body i).
Proof using All.
  intros H. unfold fragment_on_wire. rewrite descriptor_payload by exact H.
  cbn [bind].
  destruct (spec_descriptor_bytes host m ty tid N F P i) as [-> ->].
  unfold wire_fragment, fragment_message. rewrite chunk_slice by exact H.
  rewrite <- !app_assoc. reflexivity.
Qed.

Lemma payloads_of_descriptors (n i : nat) :
  Z.of_nat i + Z.of_nat n <= N ->
  fragment_payloads (map (spec_descriptor host m ty tid N F P) (seq i n))
  = Returns (firstn (reach F body (i + n) - reach F body i)
               (skipn (reach F body i) body)).
Proof using All.
  revert i. induction n as [|n IH]; intros i H.
  - cbn [seq map fragment_payloads]. rewrite Nat.add_0_r, Nat.sub_diag. reflexivity.
  - cbn [seq map fragment_payloads]. rewrite descriptor_payload by lia.
    cbn [bind]. rewrite IH by lia. cbn [bind]. f_equal.
    replace (i + S n)%nat with (S i + n)%nat by lia.
    unfold chunk. apply firstn_skipn_chain.
    + apply reach_monotone.
    + clear IH. induction n as [|n IHn].
      * rewrite Nat.add_0_r. lia.
      * replace (S i + S n)%nat with (S (S i + n)) by lia.
        pose proof (reach_monotone (S i + n)). lia.
Qed.

Lemma descriptors_on_wire (n i : nat) :
  Z.of_nat i + Z.of_nat n <= N ->
  fragments_on_wire host (map (spec_descriptor host m ty tid N F P) (seq i n))
  = Returns (map (wire_fragment ty tid N F body) (seq i n)).
Proof using All.
  revert i. induction n as [|n IH]; intros i H.
  - reflexivity.
  - cbn [seq map fragments_on_wire]. rewrite descriptor_on_wire by lia.
    cbn [bind]. rewrite IH by lia. reflexivity.
Qed.

Lemma N_at_least_two : 2 <= N.
Proof using All. fold P in N_ceil. nia. Qed.

Lemma N_u32 : u32 N.
Proof using All. pose proof N_at_least_two. unfold u32. fold P in N_ceil. nia. Qed.

Lemma reach_u32 (k : nat) : u32 (20 + Z.of_nat (reach F body k)).
Proof using All.
  pose proof (reach_bounded k). unfold u32. fold P in N_ceil. lia.
Qed.

Lemma init_first :
  _mbim_message_fragment_collector_init host (wire_fragment ty tid N F body 0)
  = Returns (Success (collected ty tid N F body 1)).
Proof using All.
  unfold wire_fragment. pose proof N_at_least_two as H2.
  pose proof (chunk_length 0) as Lc. rewrite reach_zero, Nat.sub_0_r in Lc.
  pose proof (reach_u32 1) as R1.
  rewrite init_on_wire; try assumption.
  - change (0 =? 0) with true. cbv iota.
    rewrite Lc in *.
    destruct (Z.leb_spec (20 + Z.of_nat (reach F body 1))
                (Z.of_nat (20 + reach F body 1))) as [_|?]; [|lia].
    rewrite firstn_all2 by (rewrite fragment_message_length, Lc; lia).
    unfold collected, chunk. rewrite reach_zero, Nat.sub_0_r. reflexivity.
  - rewrite Lc. exact R1.
  - exact N_u32.
  - unfold u32. lia.
Qed.

Lemma add_next (k : nat) :
  (1 <= k)%nat -> Z.of_nat k < N ->
  _mbim_message_fragment_collector_add host (collected ty tid N F body k)
    (wire_fragment ty tid N F body k)
  = Returns (collected ty tid N F body (S k), Success tt).
Proof using All.
  intros H1 Hk. unfold collected, wire_fragment.
  pose proof (chunk_length k) as Lc. pose proof (chunk_slice k Hk) as Ls.
  pose proof (slice_length_positive N F P F_positive N_ceil k Hk) as Hpos.
  pose proof (reach_monotone k) as Hm. pose proof (reach_bounded (S k)) as Hb.
  pose proof (reach_u32 k) as Rk. pose proof (reach_u32 (S k)) as Rk'.
  pose proof N_u32 as RN. fold P in N_ceil.
  set (c := Z.of_nat (length (chunk F body k))) in *.
  assert (Ec : sub32 (20 + c) 20 = c).
  { unfold sub32. rewrite wrap32_small by (unfold u32 in *; lia). lia. }
  rewrite add_on_wire; try assumption;
    try (unfold u32 in *; lia).
  rewrite sub32_one by (unfold u32 in *; lia).
  destruct (Z.eqb_spec (Z.of_nat k) 0) as [?|_]; [lia|].
  rewrite Z.eqb_refl. rewrite Ec.
  destruct (Z.eqb_spec c 0) as [?|_]; [lia|].
  rewrite length_firstn.
  replace (Nat.min (reach F body k) (length body)) with (reach F body k) by lia.
  destruct (Z.ltb_spec (G_MAXUINT - Z.of_nat (20 + reach F body k)) c) as [Ho|_];
    [unfold G_MAXUINT in Ho; lia|].
  destruct (Z.leb_spec (20 + c) (Z.of_nat (20 + length (chunk F body k))))
    as [_|?]; [|lia].
  replace (add32 (20 + Z.of_nat (reach F body k)) c)
    with (20 + Z.of_nat (reach F body (S k)))
    by (unfold add32; rewrite wrap32_small by (unfold u32 in *; lia); lia).
  replace (Z.to_nat c) with (length (chunk F body k)) by (unfold c; lia).
  rewrite firstn_all.
  unfold chunk. rewrite firstn_firstn_skipn by exact Hm.
  replace (Z.of_nat (S k) - 1) with (Z.of_nat k) by lia. reflexivity.
Qed.

Lemma add_rest (n k : nat) :
  (1 <= k)%nat -> Z.of_nat k + Z.of_nat n <= N ->
  collector_add_all host (collected ty tid N F body k)
    (map (wire_fragment ty tid N F body) (seq k n))
  = Returns (collected ty tid N F body (k + n), Success tt).
Proof using All.
  revert k. induction n as [|n IH]; intros k H1 Hk.
  - cbn [seq map collector_add_all]. rewrite Nat.add_0_r. reflexivity.
  - cbn [seq map collector_add_all]. rewrite add_next by lia. cbn [bind].
    rewrite IH by lia. replace (S k + n)%nat with (k + S n)%nat by lia.
    reflexivity.
Qed.

Lemma complete_last :
  _mbim_message_fragment_collector_complete host
    (collected ty tid N F body (Z.to_nat N))
  = Returns (fragment_message ty len tid 1 0 body, true).
Proof using All.
  pose proof N_at_least_two as H2. pose proof N_u32 as RN.
  unfold collected. rewrite reach_all by lia. rewrite firstn_all.
  rewrite complete_on_wire; try assumption; try (unfold u32 in *; lia).
  rewrite sub32_one by exact RN.
  destruct (Z.eqb_spec N 0) as [?|_]; [lia|].
  rewrite Z2Nat.id by lia. rewrite Z.eqb_refl.
  fold P. rewrite <- len_matches. reflexivity.
Qed.

Lemma collect_fragments :
  collect host (map (wire_fragment ty tid N F body) (seq 0 (Z.to_nat N)))
  = Returns (Success (fragment_message ty len tid 1 0 body, true)).
Proof using All.
  pose proof N_at_least_two as H2.
  destruct (Z.to_nat N) as [|n] eqn:En; [lia|].
  cbn [seq map collect]. rewrite init_first. cbn [bind].
  rewrite add_rest by lia. cbn [bind].
  replace (1 + n)%nat with (Z.to_nat N) by lia.
  rewrite complete_last. reflexivity.
Qed.

End Reassembly.

Lemma split_join_on_wire (host : byte_order) (ty len tid tot cur S : Z)
    (body : list byte) :
  u32 ty -> u32 tid -> is_fragment_type ty = true ->
  len = 20 + Z.of_nat (length body) -> len < 2 ^ 32 ->
  20 < S -> S < len ->
  split_join host (fragment_message ty len tid tot cur body) S.
Proof.
  intros Rty Rtid Tf Elen Hfit HS Hlt.
  set (m := fragment_message ty len tid tot cur body).
  set (P := Z.of_nat (length body)) in *.
  set (F := S - 20).
  pose proof (ceil_div_bounds P F ltac:(unfold F; lia) ltac:(unfold P; lia)) as HN.
  set (N := ceil_div P F) in *.
  assert (HF : 0 < F) by (unfold F; lia).
  assert (HFP : F < P) by (unfold F; lia).
  assert (Hlen : MBIM_MESSAGE_GET_MESSAGE_LENGTH host m = Returns len).
  { rewrite get_message_length_eq. unfold m. rewrite fragment_message_length.
    within20. fields. rewrite wrap32_small by (unfold u32; lia). reflexivity. }
  assert (Hty : MBIM_MESSAGE_GET_MESSAGE_TYPE host m = Returns ty).
  { rewrite get_message_type_eq. unfold m. rewrite fragment_message_length.
    within20. fields. rewrite wrap32_small by assumption. reflexivity. }
  assert (Htid : MBIM_MESSAGE_GET_TRANSACTION_ID host m = Returns tid).
  { rewrite get_transaction_id_eq. unfold m. rewrite fragment_message_length.
    within20. fields. rewrite wrap32_small by assumption. reflexivity. }
  pose proof (split_some host m S len ty tid Hlen Hty Htid HS Hlt) as Hsplit.
  replace (len - 20) with P in Hsplit by lia. fold F N in Hsplit.
  assert (HN0 : 0 <= N) by nia.
  split;
    [exists (spec_descriptors host m ty tid N F P)
    |exists (spec_descriptors host m ty tid N F P),
           (map (wire_fragment ty tid N F body) (seq 0 (Z.to_nat N))),
           (fragment_message ty len tid 1 0 body)];
    (split; [exact Hsplit|]); [|split; [|split]].
  - unfold spec_descriptors, m, P.
    rewrite (payloads_of_descriptors host ty len tid tot cur N F body)
      by (assumption || lia).
    rewrite (reach_all host ty len tid tot cur N F body) by (assumption || lia).
    rewrite fragment_message_payload.
    rewrite (reach_zero host ty len tid tot cur N F body) by (assumption || lia).
    cbn [Nat.add skipn]. rewrite Nat.sub_0_r, firstn_all. reflexivity.
  - unfold spec_descriptors, m, P.
    apply (descriptors_on_wire host ty len tid tot cur N F body);
      assumption || lia.
  - apply (collect_fragments host ty len tid tot cur N F body);
      assumption || lia.
  - unfold mbim_message_get_raw. unfold m. rewrite !fragment_message_length.
    reflexivity.
Qed.

(** The claim of C1 fails on a message whose buffer is longer than its length
    field: the slices stop where the length field says, ten bytes short of
    the end, and so does the message the collector completes. *)
Lemma split_join_counterexample :
  MBIM_MESSAGE_IS_FRAGMENT G_LITTLE_ENDIAN longer_buffer_message = Returns true
  /\ mbim_message_get_message_length G_LITTLE_ENDIAN longer_buffer_message
     = Returns 70
  /\ 70 > 64 /\ 64 > 20
  /\ ~ slices_cover_payload G_LITTLE_ENDIAN longer_buffer_message 64
  /\ ~ reassembles G_LITTLE_ENDIAN longer_buffer_message 64
  /\ ~ split_join G_LITTLE_ENDIAN longer_buffer_message 64.
Proof.
  assert (H1 : ~ slices_cover_payload G_LITTLE_ENDIAN longer_buffer_message 64).
  { intros (infos & Hs & Hp).
    vm_compute in Hs. injection Hs as <-.
    vm_compute in Hp. discriminate Hp. }
  assert (H2 : ~ reassembles G_LITTLE_ENDIAN longer_buffer_message 64).
  { intros (infos & fragments & self & Hs & Hw & Hc & Hr).
    vm_compute in Hs. injection Hs as <-.
    vm_compute in Hw. injection Hw as <-.
    vm_compute in Hc. injection Hc as <-.
    vm_compute in Hr. discriminate Hr. }
  split; [vm_compute; reflexivity|]. split; [vm_compute; reflexivity|].
  split; [lia|]. split; [lia|]. split; [exact H1|]. split; [exact H2|].
  intros [H _]. exact (H1 H).
Qed.

(** C1, amended. For every message of a fragmented type whose length field
    equals the byte length of its buffer, and every maximum fragment size [S]
    with [20 < S < length]: the payload slices of the descriptors of
    [split m S], concatenated in order, are the bytes of [m] from offset 20 to
    the end; and the collector, run over those fragments as they are on the
    wire ([init] on the first, [add] on the others, then [complete]),
    completes with a message whose raw buffer is that of [m] byte for byte,
    except that offsets 12..20 hold [total = 1], [current = 0]. *)
Theorem split_then_collect (host : byte_order) (m : MbimMessage) (S len : Z) :
  MBIM_MESSAGE_IS_FRAGMENT host m = Returns true ->
  mbim_message_get_message_length host m = Returns len ->
  len = Z.of_nat (length m) ->
  S < len -> 20 < S ->
  split_join host m S.
Proof.
  intros Hf Hlen Ematch Hlt HS.
  apply is_fragment_inv in Hf as [_ Hf].
  apply getter_inv in Hlen as [_ Hlen].
  unfold offsetof_length in Hlen.
  assert (H20 : (20 <= length m)%nat) by lia.
  on_wire m H20. rewrite fragment_message_length in Ematch. subst len0.
  apply split_join_on_wire; try assumption; unfold u32 in *; lia.
Qed.

Lemma split_then_collect_witness : split_join G_BIG_ENDIAN message_200 64.
Proof.
  apply (split_then_collect G_BIG_ENDIAN message_200 64 220);
    [vm_compute; reflexivity | vm_compute; reflexivity | reflexivity | lia | lia].
Defined.

(* ------------------------------------------------------------------------- *)
(** ** Constructors read back through the accessors *)

Lemma guarded_load {A : Type} (host : byte_order) (self : MbimMessage)
    (off : nat) (guard : Z -> bool) (default : A) (k : Z -> exec A) :
  (t <- MBIM_MESSAGE_GET_MESSAGE_TYPE host self ;;
   g_return_val_if_fail (guard t) default
     (v <- load32 host off self ;; k (GUINT32_FROM_LE host v)))
  = if (4 <=? length self)%nat then
      if guard (le32_at 0 self) then
        if (off + 4 <=? length self)%nat then k (le32_at off self)
        else Crashes OutOfBounds
      else Returns default
    else Crashes OutOfBounds.
Proof.
  rewrite get_message_type_eq.
  destruct (4 <=? length self)%nat; cbn [bind]; [|reflexivity].
  unfold g_return_val_if_fail. destruct (guard (le32_at 0 self)); [|reflexivity].
  unfold load32.
  destruct (Nat.leb_spec (off + 4) (length self)) as [H|H]; cbn [bind];
    [|reflexivity].
  rewrite from_le_native_load by (apply word_at_length, H). reflexivity.
Qed.

Lemma guarded_word (host : byte_order) (self : MbimMessage) (off : nat)
    (guard : Z -> bool) (default : Z) :
  (t <- MBIM_MESSAGE_GET_MESSAGE_TYPE host self ;;
   g_return_val_if_fail (guard t) default
     (v <- load32 host off self ;; Returns (GUINT32_FROM_LE host v)))
  = if (4 <=? length self)%nat then
      if guard (le32_at 0 self) then
        if (off + 4 <=? length self)%nat then Returns (le32_at off self)
        else Crashes OutOfBounds
      else Returns default
    else Crashes OutOfBounds.
Proof. exact (guarded_load host self off guard default Returns). Qed.

Lemma error_get_error_eq (host : byte_order) (name : Z -> string)
    (self : MbimMessage) :
  mbim_message_error_get_error host name self
  = if (4 <=? length self)%nat then
      if is_error_type (le32_at 0 self) then
        if (16 <=? length self)%nat then
          Returns (Some {| value_domain := MBIM_PROTOCOL_ERROR;
                           value_code := to_gint (le32_at 12 self);
                           value_message :=
                             ("MBIM protocol error: "
                                ++ name (le32_at 12 self))%string |})
        else Crashes OutOfBounds
      else Returns None
    else Crashes OutOfBounds.
Proof.
  exact (guarded_load host self 12 is_error_type None
           (fun c => Returns (Some {| value_domain := MBIM_PROTOCOL_ERROR;
                                      value_code := to_gint c;
                                      value_message :=
                                        ("MBIM protocol error: " ++ name c)%string
                                   |}))).
Qed.

Lemma open_done_get_result_eq (host : byte_order) (name : Z -> option string)
    (self : MbimMessage) :
  mbim_message_open_done_get_result host name self
  = if (4 <=? length self)%nat then
      if le32_at 0 self =? MBIM_MESSAGE_TYPE_OPEN_DONE then
        if (16 <=? length self)%nat then done_result name (le32_at 12 self)
        else Crashes OutOfBounds
      else Returns (false, None)
    else Crashes OutOfBounds.
Proof.
  exact (guarded_load host self 12 (fun t => t =? MBIM_MESSAGE_TYPE_OPEN_DONE)
           (false, None) (done_result name)).
Qed.

Lemma close_done_get_result_eq (host : byte_order) (name : Z -> option string)
    (self : MbimMessage) :
  mbim_message_close_done_get_result host name self
  = if (4 <=? length self)%nat then
      if le32_at 0 self =? MBIM_MESSAGE_TYPE_CLOSE_DONE then
        if (16 <=? length self)%nat then done_result name (le32_at 12 self)
        else Crashes OutOfBounds
      else Returns (false, None)
    else Crashes OutOfBounds.
Proof.
  exact (guarded_load host self 12 (fun t => t =? MBIM_MESSAGE_TYPE_CLOSE_DONE)
           (false, None) (done_result name)).
Qed.

Lemma open_get_max_control_transfer_eq (host : byte_order) (self : MbimMessage) :
  mbim_message_open_get_max_control_transfer host self
  = if (4 <=? length self)%nat then
      if le32_at 0 self =? MBIM_MESSAGE_TYPE_OPEN then
        if (16 <=? length self)%nat then Returns (le32_at 12 self)
        else Crashes OutOfBounds
      else Returns 0
    else Crashes OutOfBounds.
Proof.
  exact (guarded_word host self 12 (fun t => t =? MBIM_MESSAGE_TYPE_OPEN) 0).
Qed.

Lemma error_get_error_status_code_eq (host : byte_order) (invalid : Z)
    (self : MbimMessage) :
  mbim_message_error_get_error_status_code host invalid self
  = if (4 <=? length self)%nat then
      if is_error_type (le32_at 0 self) then
        if (16 <=? length self)%nat then Returns (le32_at 12 self)
        else Crashes OutOfBounds
      else Returns invalid
    else Crashes OutOfBounds.
Proof. exact (guarded_word host self 12 is_error_type invalid). Qed.

Lemma open_done_get_status_code_eq (host : byte_order) (failure : Z)
    (self : MbimMessage) :
  mbim_message_open_done_get_status_code host failure self
  = if (4 <=? length self)%nat then
      if le32_at 0 self =? MBIM_MESSAGE_TYPE_OPEN_DONE then
        if (16 <=? length self)%nat then Returns (le32_at 12 self)
        else Crashes OutOfBounds
      else Returns failure
    else Crashes OutOfBounds.
Proof.
  exact (guarded_word host self 12
           (fun t => t =? MBIM_MESSAGE_TYPE_OPEN_DONE) failure).
Qed.

Lemma close_done_get_status_code_eq (host : byte_order) (failure : Z)
    (self : MbimMessage) :
  mbim_message_close_done_get_status_code host failure self
  = if (4 <=? length self)%nat then
      if le32_at 0 self =? MBIM_MESSAGE_TYPE_CLOSE_DONE then
        if (16 <=? length self)%nat then Returns (le32_at 12 self)
        else Crashes OutOfBounds
      else Returns failure
    else Crashes OutOfBounds.
Proof.
  exact (guarded_word host self 12
           (fun t => t =? MBIM_MESSAGE_TYPE_CLOSE_DONE) failure).
Qed.

Lemma four_words (a b c d : Z) :
  le32_at 0 (le_bytes a ++ le_bytes b ++ le_bytes c ++ le_bytes d) = wrap32 a
  /\ le32_at 4 (le_bytes a ++ le_bytes b ++ le_bytes c ++ le_bytes d) = wrap32 b
  /\ le32_at 8 (le_bytes a ++ le_bytes b ++ le_bytes c ++ le_bytes d) = wrap32 c
  /\ le32_at 12 (le_bytes a ++ le_bytes b ++ le_bytes c ++ le_bytes d) = wrap32 d.
Proof. repeat split; apply le_value_le_bytes. Qed.

Lemma three_words (a b c : Z) :
  le32_at 0 (le_bytes a ++ le_bytes b ++ le_bytes c) = wrap32 a
  /\ le32_at 4 (le_bytes a ++ le_bytes b ++ le_bytes c) = wrap32 b
  /\ le32_at 8 (le_bytes a ++ le_bytes b ++ le_bytes c) = wrap32 c.
Proof. repeat split; apply le_value_le_bytes. Qed.

Lemma to_gint_u32 (v : Z) :
  u32 v -> to_gint v = if v <? 2 ^ 31 then v else v - 2 ^ 32.
Proof. intros H. unfold to_gint. rewrite wrap32_small by exact H. reflexivity. Qed.






(** X1. What [mbim_message_open_new] wrote is what the accessors read back,
    on either host: type OPEN, length 16, the transaction id and the maximum
    control transfer; the message is its own duplicate and its raw buffer has
    16 bytes. *)
Theorem open_new_read_back (host : byte_order) (uninit : nat -> byte)
    (tid mct : Z) :
  u32 tid -> u32 mct ->
  exists m,
    mbim_message_open_new host uninit tid mct = Returns m
    /\ mbim_message_get_message_type host m = Returns MBIM_MESSAGE_TYPE_OPEN
    /\ mbim_message_get_message_length host m = Returns 16
    /\ mbim_message_get_transaction_id host m = Returns tid
    /\ mbim_message_open_get_max_control_transfer host m = Returns mct
    /\ mbim_message_dup host m = Returns m
    /\ mbim_message_get_raw m = Success (m, 16).
Proof.
  intros Htid Hmct. eexists. split; [apply open_new_bytes|].
  destruct (four_words MBIM_MESSAGE_TYPE_OPEN 16 tid mct) as (E0 & E4 & E8 & E12).
  unfold mbim_message_get_message_type, mbim_message_get_message_length,
    mbim_message_get_transaction_id.
  rewrite get_message_type_eq, get_message_length_eq, get_transaction_id_eq,
    open_get_max_control_transfer_eq, E0, E4, E8, E12.
  rewrite (wrap32_small tid), (wrap32_small mct) by assumption.
  repeat split.
  apply dup_of_matching. apply length_matches_buffer_intro; [cbn; lia|exact E4].
Qed.

Lemma open_new_read_back_witness :
  exists m,
    mbim_message_open_new G_BIG_ENDIAN (fun _ => xff) 7 4096 = Returns m
    /\ mbim_message_open_get_max_control_transfer G_BIG_ENDIAN m = Returns 4096.
Proof.
  destruct (open_new_read_back G_BIG_ENDIAN (fun _ => xff) 7 4096)
    as (m & H & _ & _ & _ & Hmct & _);
    [unfold u32; lia | unfold u32; lia |].
  exists m. split; assumption.
Defined.

(** X2. What [mbim_message_close_new] wrote is what the accessors read back:
    type CLOSE, length 12 and the transaction id; the message is its own
    duplicate and its raw buffer has 12 bytes. *)
Theorem close_new_read_back (host : byte_order) (uninit : nat -> byte) (tid : Z) :
  u32 tid ->
  exists m,
    mbim_message_close_new host uninit tid = Returns m
    /\ mbim_message_get_message_type host m = Returns MBIM_MESSAGE_TYPE_CLOSE
    /\ mbim_message_get_message_length host m = Returns 12
    /\ mbim_message_get_transaction_id host m = Returns tid
    /\ mbim_message_dup host m = Returns m
    /\ mbim_message_get_raw m = Success (m, 12).
Proof.
  intros Htid. eexists. split; [apply close_new_bytes|].
  destruct (three_words MBIM_MESSAGE_TYPE_CLOSE 12 tid) as (E0 & E4 & E8).
  unfold mbim_message_get_message_type, mbim_message_get_message_length,
    mbim_message_get_transaction_id.
  rewrite get_message_type_eq, get_message_length_eq, get_transaction_id_eq,
    E0, E4, E8.
  rewrite (wrap32_small tid) by assumption.
  repeat split.
  apply dup_of_matching. apply length_matches_buffer_intro; [cbn; lia|exact E4].
Qed.

Lemma close_new_read_back_witness :
  exists m,
    mbim_message_close_new G_BIG_ENDIAN (fun _ => xff) 0 = Returns m
    /\ mbim_message_get_message_length G_BIG_ENDIAN m = Returns 12.
Proof.
  destruct (close_new_read_back G_BIG_ENDIAN (fun _ => xff) 0)
    as (m & H & _ & Hlen & _); [unfold u32; lia|].
  exists m. split; assumption.
Defined.

(** X3. What [mbim_message_error_new] wrote is what the accessors read back:
    type HOST_ERROR, length 16, the transaction id and the error status code;
    and [mbim_message_error_get_error] builds from it the protocol error with
    the message "MBIM protocol error: " followed by the name of the code, and
    with the code as the [gint] that [g_error_new] takes: the code itself
    below [2^31], and the negative number of the same 32 bits from there
    on. *)
Theorem error_new_read_back (host : byte_order) (uninit : nat -> byte)
    (invalid : Z) (protocol_error_name : Z -> string) (tid err : Z) :
  u32 tid -> u32 err ->
  exists m,
    mbim_message_error_new host uninit tid err = Returns m
    /\ mbim_message_get_message_type host m = Returns MBIM_MESSAGE_TYPE_HOST_ERROR
    /\ mbim_message_get_message_length host m = Returns 16
    /\ mbim_message_get_transaction_id host m = Returns tid
    /\ mbim_message_error_get_error_status_code host invalid m = Returns err
    /\ mbim_message_error_get_error host protocol_error_name m
       = Returns (Some {| value_domain := MBIM_PROTOCOL_ERROR;
                          value_code := if err <? 2 ^ 31 then err
                                        else err - 2 ^ 32;
                          value_message :=
                            ("MBIM protocol error: "
                               ++ protocol_error_name err)%string |}).
Proof.
  intros Htid Herr. eexists. split; [apply error_new_bytes|].
  destruct (four_words MBIM_MESSAGE_TYPE_HOST_ERROR 16 tid err)
    as (E0 & E4 & E8 & E12).
  unfold mbim_message_get_message_type, mbim_message_get_message_length,
    mbim_message_get_transaction_id.
  rewrite get_message_type_eq, get_message_length_eq, get_transaction_id_eq,
    error_get_error_status_code_eq, error_get_error_eq, E0, E4, E8, E12.
  rewrite (wrap32_small tid), (wrap32_small err) by assumption.
  rewrite to_gint_u32 by assumption.
  repeat split.
Qed.

Lemma error_new_read_back_witness :
  exists m,
    mbim_message_error_new G_LITTLE_ENDIAN (fun _ => xff) 42 (2 ^ 32 - 1)
      = Returns m
    /\ mbim_message_error_get_error G_LITTLE_ENDIAN (fun _ => "name"%string) m
       = Returns (Some {| value_domain := MBIM_PROTOCOL_ERROR;
                          value_code := -1;
                          value_message := "MBIM protocol error: name" |}).
Proof.
  destruct (error_new_read_back G_LITTLE_ENDIAN (fun _ => xff) 0
              (fun _ => "name"%string) 42 (2 ^ 32 - 1))
    as (m & H & _ & _ & _ & _ & Herr);
    [unfold u32; lia | unfold u32; lia |].
  exists m. split; [exact H | exact Herr].
Defined.

(* ------------------------------------------------------------------------- *)
(** ** Typed accessors on other messages *)

(** X4. On a message of another type the typed accessors return their
    defaults without looking at the payload, so they return on a message that
    has only its header: 0 for the maximum control transfer, the FAILURE
    status for the status codes, the INVALID protocol error for the error
    status code, no [GError] for [mbim_message_error_get_error], and FALSE
    with no error set for the two [_done_get_result]. *)
Theorem accessors_on_other_type (host : byte_order) (failure invalid : Z)
    (status_name : Z -> option string) (protocol_name : Z -> string)
    (self : MbimMessage) (t : Z) :
  mbim_message_get_message_type host self = Returns t ->
  (t <> MBIM_MESSAGE_TYPE_OPEN ->
   mbim_message_open_get_max_control_transfer host self = Returns 0)
  /\ (t <> MBIM_MESSAGE_TYPE_OPEN_DONE ->
      mbim_message_open_done_get_status_code host failure self = Returns failure
      /\ mbim_message_open_done_get_result host status_name self
         = Returns (false, None))
  /\ (t <> MBIM_MESSAGE_TYPE_CLOSE_DONE ->
      mbim_message_close_done_get_status_code host failure self = Returns failure
      /\ mbim_message_close_done_get_result host status_name self
         = Returns (false, None))
  /\ (t <> MBIM_MESSAGE_TYPE_HOST_ERROR -> t <> MBIM_MESSAGE_TYPE_FUNCTION_ERROR ->
      mbim_message_error_get_error_status_code host invalid self = Returns invalid
      /\ mbim_message_error_get_error host protocol_name self = Returns None).
Proof.
  unfold mbim_message_get_message_type. rewrite get_message_type_eq.
  rewrite open_get_max_control_transfer_eq, open_done_get_status_code_eq,
    open_done_get_result_eq, close_done_get_status_code_eq,
    close_done_get_result_eq, error_get_error_status_code_eq, error_get_error_eq.
  destruct (4 <=? length self)%nat; [|discriminate].
  intros E. injection E as ->. unfold is_error_type.
  split; [|split; [|split]]; intros; try split.
  - destruct (Z.eqb_spec t MBIM_MESSAGE_TYPE_OPEN);
      [contradiction|reflexivity].
  - destruct (Z.eqb_spec t MBIM_MESSAGE_TYPE_OPEN_DONE);
      [contradiction|reflexivity].
  - destruct (Z.eqb_spec t MBIM_MESSAGE_TYPE_OPEN_DONE);
      [contradiction|reflexivity].
  - destruct (Z.eqb_spec t MBIM_MESSAGE_TYPE_CLOSE_DONE);
      [contradiction|reflexivity].
  - destruct (Z.eqb_spec t MBIM_MESSAGE_TYPE_CLOSE_DONE);
      [contradiction|reflexivity].
  - destruct (Z.eqb_spec t MBIM_MESSAGE_TYPE_HOST_ERROR);
      [contradiction|].
    destruct (Z.eqb_spec t MBIM_MESSAGE_TYPE_FUNCTION_ERROR);
      [contradiction|reflexivity].
  - destruct (Z.eqb_spec t MBIM_MESSAGE_TYPE_HOST_ERROR);
      [contradiction|].
    destruct (Z.eqb_spec t MBIM_MESSAGE_TYPE_FUNCTION_ERROR);
      [contradiction|reflexivity].
Qed.

Lemma accessors_on_other_type_witness :
  mbim_message_open_get_max_control_transfer G_BIG_ENDIAN
    (le_bytes MBIM_MESSAGE_TYPE_CLOSE ++ le_bytes 12 ++ le_bytes 5) = Returns 0
  /\ mbim_message_open_done_get_result G_BIG_ENDIAN
       (fun _ => Some "name"%string)
       (le_bytes MBIM_MESSAGE_TYPE_CLOSE ++ le_bytes 12 ++ le_bytes 5)
     = Returns (false, None).
Proof.
  destruct (accessors_on_other_type G_BIG_ENDIAN 2 0
              (fun _ => Some "name"%string) (fun _ => "name"%string)
              (le_bytes MBIM_MESSAGE_TYPE_CLOSE ++ le_bytes 12 ++ le_bytes 5) 2
              ltac:(vm_compute; reflexivity)) as (H1 & H2 & _).
  split; [apply H1; discriminate | apply H2; discriminate].
Defined.





(* ------------------------------------------------------------------------- *)
(** ** Raw bytes in and out *)

(** X7. A message made by [mbim_message_new] from the raw buffer and length
    that [mbim_message_get_raw] hands out is the same message, byte for byte;
    asking [mbim_message_new] for more bytes than the buffer holds reads
    outside it. *)
Theorem new_of_raw (m : MbimMessage) :
  length m <> 0%nat -> Z.of_nat (length m) <= G_MAXUINT ->
  (exists buffer len,
      mbim_message_get_raw m = Success (buffer, len)
      /\ mbim_message_new {| region := buffer; offset := 0 |} len = Returns m)
  /\ (forall n, Z.of_nat (length m) < n <= G_MAXUINT ->
                mbim_message_new {| region := m; offset := 0 |} n
                = Crashes OutOfBounds).
Proof.
  intros Hne Hmax. split.
  - exists m, (Z.of_nat (length m)). unfold mbim_message_get_raw.
    destruct (Nat.eqb_spec (length m) 0); [contradiction|].
    split; [reflexivity|].
    unfold mbim_message_new, g_byte_array_append, g_byte_array_sized_new, read_bytes.
    cbn [length region offset skipn app Z.of_nat].
    destruct (Z.ltb_spec (G_MAXUINT - 0) (Z.of_nat (length m))); [lia|].
    rewrite Z.leb_refl. cbn [bind]. rewrite Nat2Z.id, firstn_all. reflexivity.
  - intros n Hn.
    unfold mbim_message_new, g_byte_array_append, g_byte_array_sized_new, read_bytes.
    cbn [length region offset skipn app Z.of_nat].
    destruct (Z.ltb_spec (G_MAXUINT - 0) n); [lia|].
    destruct (Z.leb_spec (0 + n) (Z.of_nat (length m))); [lia|]. reflexivity.
Qed.

Lemma new_of_raw_witness :
  exists buffer len,
    mbim_message_get_raw fragment_0_of_2 = Success (buffer, len)
    /\ mbim_message_new {| region := buffer; offset := 0 |} len
       = Returns fragment_0_of_2.
Proof.
  apply (proj1 (new_of_raw fragment_0_of_2 ltac:(simpl; lia)
                  ltac:(unfold G_MAXUINT; simpl; lia))).
Defined.

(* ------------------------------------------------------------------------- *)
(** ** The fragment interface *)

(** X8. [_mbim_message_fragment_get_payload] hands out a pointer to offset 20
    and the length field minus 20 on [guint32]: for a message whose length
    field is its byte length, at least 20, that is every byte from offset 20
    to the end; for a length field below 20 the length wraps around to at
    least [2^32 - 20]. *)
Theorem fragment_payload_extent (host : byte_order) (self : MbimMessage) (len : Z) :
  MBIM_MESSAGE_IS_FRAGMENT host self = Returns true ->
  mbim_message_get_message_length host self = Returns len ->
  exists buffer buffer_len,
    _mbim_message_fragment_get_payload host self = Returns (buffer, buffer_len)
    /\ buffer = {| region := self; offset := 20 |}
    /\ (20 <= len -> buffer_len = len - 20)
    /\ (len < 20 -> buffer_len = 2 ^ 32 - 20 + len)
    /\ (20 <= len -> len = Z.of_nat (length self) ->
        read_bytes buffer buffer_len = Returns (skipn 20 self)).
Proof.
  intros Hf Hlen. unfold _mbim_message_fragment_get_payload, g_assert.
  unfold mbim_message_get_message_length in Hlen. rewrite Hf, Hlen. cbn [bind].
  apply getter_inv in Hlen as [B E].
  pose proof (le32_at_u32 _ _ B) as R. rewrite E in R. unfold u32 in R.
  rewrite sub32_headers.
  exists {| region := self; offset := 20 |}, (sub32 len 20).
  split; [reflexivity|]. split; [reflexivity|]. split; [|split].
  - intros H. unfold sub32. apply wrap32_small. unfold u32. lia.
  - intros H. unfold sub32, wrap32. symmetry.
    apply Z.mod_unique with (q := -1); lia.
  - intros H Hm. unfold read_bytes. cbn [region offset].
    replace (sub32 len 20) with (len - 20)
      by (unfold sub32; symmetry; apply wrap32_small; unfold u32; lia).
    destruct (Z.leb_spec (Z.of_nat 20 + (len - 20)) (Z.of_nat (length self)));
      [|lia].
    rewrite firstn_all2 by (rewrite length_skipn; lia). reflexivity.
Qed.

Lemma fragment_payload_extent_witness :
  read_bytes {| region := fragment_0_of_2; offset := 20 |} 4
  = Returns [x0a; x0b; x0c; x0d].
Proof.
  destruct (fragment_payload_extent G_BIG_ENDIAN fragment_0_of_2 24
              ltac:(vm_compute; reflexivity) ltac:(vm_compute; reflexivity))
    as (buffer & buffer_len & _ & -> & Hl & _ & Hr).
  rewrite (Hl ltac:(lia)) in Hr. apply Hr; [lia|reflexivity].
Defined.

(** X9. The fragment interface asserts the type: on a message whose type is
    not COMMAND, COMMAND_DONE or INDICATION the three fragment accessors and
    the three collector functions stop on the failed assertion, before
    reading or writing anything else; [add] also does when only the fragment
    it is given has another type. *)
Theorem fragment_interface_asserts (host : byte_order)
    (self other : MbimMessage) (t : Z) :
  mbim_message_get_message_type host self = Returns t ->
  is_fragment_type t = false ->
  _mbim_message_is_fragment host self = Returns false
  /\ _mbim_message_fragment_get_total host self = Crashes AssertionFailed
  /\ _mbim_message_fragment_get_current host self = Crashes AssertionFailed
  /\ _mbim_message_fragment_get_payload host self = Crashes AssertionFailed
  /\ _mbim_message_fragment_collector_init host self = Crashes AssertionFailed
  /\ _mbim_message_fragment_collector_add host self other = Crashes AssertionFailed
  /\ _mbim_message_fragment_collector_complete host self = Crashes AssertionFailed
  /\ (MBIM_MESSAGE_IS_FRAGMENT host other = Returns true ->
      _mbim_message_fragment_collector_add host other self
      = Crashes AssertionFailed).
Proof.
  intros Ht Hf.
  assert (I : MBIM_MESSAGE_IS_FRAGMENT host self = Returns false).
  { unfold MBIM_MESSAGE_IS_FRAGMENT. unfold mbim_message_get_message_type in Ht.
    rewrite Ht. cbn [bind]. fold (is_fragment_type t). rewrite Hf. reflexivity. }
  unfold _mbim_message_is_fragment, _mbim_message_fragment_get_total,
    _mbim_message_fragment_get_current, _mbim_message_fragment_get_payload,
    _mbim_message_fragment_collector_init, _mbim_message_fragment_collector_add,
    _mbim_message_fragment_collector_complete, g_assert.
  rewrite I. cbn [bind]. repeat split.
  intros ->. reflexivity.
Qed.

Lemma fragment_interface_asserts_witness :
  _mbim_message_fragment_collector_init G_BIG_ENDIAN
    (le_bytes MBIM_MESSAGE_TYPE_CLOSE ++ le_bytes 12 ++ le_bytes 5)
  = Crashes AssertionFailed.
Proof.
  apply (fragment_interface_asserts G_BIG_ENDIAN
           (le_bytes MBIM_MESSAGE_TYPE_CLOSE ++ le_bytes 12 ++ le_bytes 5)
           [] 2 ltac:(vm_compute; reflexivity) ltac:(reflexivity)).
Defined.

(* ------------------------------------------------------------------------- *)
(** ** More of the collector *)

(** X10. Completion is stable: once [complete] has returned TRUE, calling it
    again returns TRUE again and leaves the message as it is. *)
Theorem complete_twice (host : byte_order) (self self' : MbimMessage) :
  _mbim_message_fragment_collector_complete host self = Returns (self', true) ->
  _mbim_message_fragment_collector_complete host self' = Returns (self', true).
Proof.
  intros H. pose proof (complete_returns _ _ _ H) as (Hs & Ts).
  on_wire self Hs. rewrite complete_on_wire in H by assumption.
  destruct (cur =? sub32 tot 1); [|discriminate].
  injection H as <-.
  rewrite complete_on_wire; try assumption; unfold u32; try lia.
  reflexivity.
Qed.

Lemma complete_twice_witness :
  _mbim_message_fragment_collector_complete G_BIG_ENDIAN
    (fragment_message MBIM_MESSAGE_TYPE_COMMAND 22 9 1 0 [x0e; x0f])
  = Returns (fragment_message MBIM_MESSAGE_TYPE_COMMAND 22 9 1 0 [x0e; x0f], true).
Proof.
  apply (complete_twice G_BIG_ENDIAN fragment_1_of_2). vm_compute. reflexivity.
Defined.

Lemma with_total_on_wire (t ty len tid tot cur : Z) (body : list byte) :
  with_total t (fragment_message ty len tid tot cur body)
  = fragment_message ty len tid t cur body.
Proof. reflexivity. Qed.

(** X11. [add] never looks at [total]: whether it accepts a fragment, and
    what it makes of the message of the collector, is the same whatever the
    two [total] fields hold; the [total] of the collector is kept and that of
    the fragment is dropped, also when they disagree. *)
Theorem add_ignores_total (host : byte_order)
    (self fragment self' : MbimMessage) (t t' : Z) :
  u32 t -> u32 t' ->
  _mbim_message_fragment_collector_add host self fragment
    = Returns (self', Success tt) ->
  _mbim_message_fragment_collector_add host (with_total t self)
    (with_total t' fragment)
  = Returns (with_total t self', Success tt).
Proof.
  intros Rt Rt' H. pose proof (add_returns _ _ _ _ H) as (Hs & Hf & Ts & Tf).
  on_wire self Hs. on_wire fragment Hf.
  rewrite add_on_wire in H by assumption.
  rewrite !with_total_on_wire. rewrite add_on_wire by assumption.
  destruct (cur =? sub32 cur0 1); [|discriminate].
  destruct (sub32 len0 20 =? 0).
  - injection H as <-. reflexivity.
  - destruct (G_MAXUINT - Z.of_nat (20 + length body) <? sub32 len0 20);
      [discriminate|].
    destruct (20 + sub32 len0 20 <=? Z.of_nat (20 + length body0));
      [|discriminate].
    injection H as <-. reflexivity.
Qed.

Lemma add_ignores_total_witness :
  _mbim_message_fragment_collector_add G_LITTLE_ENDIAN
    (with_total 1 fragment_0_of_2) (with_total 7 fragment_1_of_2)
  = Returns (with_total 1
               (fragment_message MBIM_MESSAGE_TYPE_COMMAND 26 9 2 1
                  [x0a; x0b; x0c; x0d; x0e; x0f]), Success tt).
Proof.
  apply (add_ignores_total G_LITTLE_ENDIAN fragment_0_of_2 fragment_1_of_2);
    [unfold u32; lia | unfold u32; lia | vm_compute; reflexivity].
Defined.

(** X12. Two fragments in order: the collector started on fragment 0 of 2 and
    given fragment 1 of 2 completes with one message that has the type and
    transaction id of the first fragment, the two payloads one after the
    other, the length field [20 + both payload lengths] and the fragment
    header [total = 1], [current = 0]. The type and transaction id of the
    second fragment are not compared with those of the first. *)
Theorem collect_two_fragments (host : byte_order)
    (ty tid ty' tid' : Z) (p0 p1 : list byte) :
  u32 ty -> is_fragment_type ty = true ->
  u32 ty' -> is_fragment_type ty' = true ->
  20 + Z.of_nat (length p0) + Z.of_nat (length p1) <= G_MAXUINT ->
  let first := fragment_message ty (20 + Z.of_nat (length p0)) tid 2 0 p0 in
  let second := fragment_message ty' (20 + Z.of_nat (length p1)) tid' 2 1 p1 in
  let len := 20 + Z.of_nat (length p0) + Z.of_nat (length p1) in
  _mbim_message_fragment_collector_init host first = Returns (Success first)
  /\ _mbim_message_fragment_collector_complete host first = Returns (first, false)
  /\ _mbim_message_fragment_collector_add host first second
     = Returns (fragment_message ty len tid 2 1 (p0 ++ p1), Success tt)
  /\ _mbim_message_fragment_collector_complete host
       (fragment_message ty len tid 2 1 (p0 ++ p1))
     = Returns (fragment_message ty len tid 1 0 (p0 ++ p1), true)
  /\ mbim_message_get_message_length host
       (fragment_message ty len tid 1 0 (p0 ++ p1))
     = Returns len.
Proof.
  intros Rty Tf Rty' Tf' Hmax first second len. unfold G_MAXUINT in Hmax.
  assert (R0 : u32 (20 + Z.of_nat (length p0))) by (unfold u32; lia).
  assert (R1 : u32 (20 + Z.of_nat (length p1))) by (unfold u32; lia).
  assert (Rl : u32 len) by (unfold u32, len; lia).
  split; [|split; [|split; [|split]]].
  - unfold first. rewrite init_on_wire; try assumption; try (unfold u32; lia).
    change (0 =? 0) with true. cbv iota.
    destruct (Z.leb_spec (20 + Z.of_nat (length p0)) (Z.of_nat (20 + length p0)));
      [|lia].
    rewrite firstn_all2 by (rewrite fragment_message_length; lia). reflexivity.
  - unfold first. rewrite complete_on_wire; try assumption; try (unfold u32; lia).
    reflexivity.
  - unfold first, second.
    rewrite add_on_wire; try assumption; try (unfold u32; lia).
    change (0 =? sub32 1 1) with true. cbv iota.
    replace (sub32 (20 + Z.of_nat (length p1)) 20) with (Z.of_nat (length p1))
      by (unfold sub32; rewrite wrap32_small by (unfold u32; lia); lia).
    destruct (Z.eqb_spec (Z.of_nat (length p1)) 0) as [E|E].
    + assert (p1 = []) as -> by (destruct p1; [reflexivity|cbn in E; lia]).
      rewrite app_nil_r. unfold len. cbn [length Z.of_nat].
      rewrite Z.add_0_r. reflexivity.
    + destruct (Z.ltb_spec (G_MAXUINT - Z.of_nat (20 + length p0))
                  (Z.of_nat (length p1))); [unfold G_MAXUINT in *; lia|].
      destruct (Z.leb_spec (20 + Z.of_nat (length p1)) (Z.of_nat (20 + length p1)));
        [|lia].
      rewrite Nat2Z.id, firstn_all.
      replace (add32 (20 + Z.of_nat (length p0)) (Z.of_nat (length p1))) with len
        by (unfold add32; rewrite wrap32_small by (unfold u32; lia);
            unfold len; lia).
      reflexivity.
  - rewrite complete_on_wire; try assumption; try (unfold u32; lia). reflexivity.
  - unfold mbim_message_get_message_length.
    rewrite get_message_length_eq, fragment_message_length. within20. fields.
    rewrite wrap32_small by assumption. reflexivity.
Qed.

Lemma collect_two_fragments_witness :
  _mbim_message_fragment_collector_add G_BIG_ENDIAN
    (fragment_message MBIM_MESSAGE_TYPE_COMMAND 120 9 2 0 (repeat x11 100))
    (fragment_message MBIM_MESSAGE_TYPE_COMMAND 70 9 2 1 (repeat x22 50))
  = Returns (fragment_message MBIM_MESSAGE_TYPE_COMMAND 170 9 2 1
               (repeat x11 100 ++ repeat x22 50), Success tt).
Proof.
  apply (collect_two_fragments G_BIG_ENDIAN MBIM_MESSAGE_TYPE_COMMAND 9
           MBIM_MESSAGE_TYPE_COMMAND 9 (repeat x11 100) (repeat x22 50));
    try reflexivity; try (unfold u32, MBIM_MESSAGE_TYPE_COMMAND; lia).
  unfold G_MAXUINT. simpl. lia.
Defined.

(** X13. A message that is already one fragment passes through unchanged: if
    its length field is its byte length and its fragment header says
    [total = 1], [current = 0], then [split] declines for every maximum size
    it fits in, [init] returns a copy equal to it, and [complete] returns
    TRUE at once without changing a byte. *)
Theorem single_fragment_passes (host : byte_order) (m : MbimMessage) (S len : Z) :
  MBIM_MESSAGE_IS_FRAGMENT host m = Returns true ->
  mbim_message_get_message_length host m = Returns len ->
  len = Z.of_nat (length m) ->
  MBIM_MESSAGE_FRAGMENT_GET_TOTAL host m = Returns 1 ->
  MBIM_MESSAGE_FRAGMENT_GET_CURRENT host m = Returns 0 ->
  len <= S ->
  _mbim_message_split_fragments host m S = Returns None
  /\ _mbim_message_fragment_collector_init host m = Returns (Success m)
  /\ _mbim_message_fragment_collector_complete host m = Returns (m, true).
Proof.
  intros Hf Hlen Hm Ht Hc HS.
  split; [apply (split_none host m S len Hlen HS)|].
  assert (M : length_matches_buffer host m).
  { red. rewrite Hlen, Hm. reflexivity. }
  apply is_fragment_inv in Hf as [_ Hf].
  apply fragment_get_current_inv in Hc as [H20 Hc].
  apply fragment_get_total_inv in Ht as [_ Ht].
  split.
  - rewrite init_eq by assumption. rewrite Hc. change (0 =? 0) with true.
    cbv iota. rewrite (dup_of_matching host m M). reflexivity.
  - clear M Hlen Hm. on_wire m H20. subst tot cur.
    rewrite complete_on_wire; try assumption; unfold u32; try lia. reflexivity.
Qed.

Lemma single_fragment_passes_witness :
  _mbim_message_fragment_collector_complete G_LITTLE_ENDIAN
    (fragment_message MBIM_MESSAGE_TYPE_INDICATION 22 9 1 0 [x0e; x0f])
  = Returns (fragment_message MBIM_MESSAGE_TYPE_INDICATION 22 9 1 0 [x0e; x0f],
             true).
Proof.
  apply (single_fragment_passes G_LITTLE_ENDIAN
           (fragment_message MBIM_MESSAGE_TYPE_INDICATION 22 9 1 0 [x0e; x0f])
           64 22); try (vm_compute; reflexivity). lia.
Defined.

(* ------------------------------------------------------------------------- *)
(** ** More of the fragment codec *)

(** X14. With a maximum fragment size of exactly 20, the size of the two
    headers, [split] of any longer message divides by zero. *)
Theorem split_at_header_size (host : byte_order) (self : MbimMessage) (len : Z) :
  mbim_message_get_message_length host self = Returns len ->
  20 < len ->
  _mbim_message_split_fragments host self 20 = Crashes DivisionByZero.
Proof.
  intros Hlen Hlt. unfold _mbim_message_split_fragments. rewrite Hlen. cbn [bind].
  destruct (Z.leb_spec len 20); [lia|]. reflexivity.
Qed.

Lemma split_at_header_size_witness :
  _mbim_message_split_fragments G_BIG_ENDIAN fragment_0_of_2 20
  = Crashes DivisionByZero.
Proof.
  apply (split_at_header_size G_BIG_ENDIAN fragment_0_of_2 24);
    [vm_compute; reflexivity | lia].
Defined.

(** X15. With a maximum fragment size below 20 the per-fragment capacity wraps
    around on [guint32], and [split] of a message longer than its headers
    returns a single descriptor that carries the whole payload: its length
    field is that of the message, larger than the maximum asked for, with
    [total = 1] and [current = 0]. *)
Theorem split_below_header_size (host : byte_order) (self : MbimMessage)
    (S len ty tid : Z) :
  mbim_message_get_message_length host self = Returns len ->
  mbim_message_get_message_type host self = Returns ty ->
  mbim_message_get_transaction_id host self = Returns tid ->
  0 <= S < 20 -> 20 < len ->
  exists info,
    _mbim_message_split_fragments host self S = Returns (Some [info])
    /\ data info = {| region := self; offset := 20 |}
    /\ data_length info = len - 20
    /\ header_bytes host (info_header info)
       = le_bytes ty ++ le_bytes len ++ le_bytes tid
    /\ fragment_header_bytes host (info_fragment_header info)
       = le_bytes 1 ++ le_bytes 0.
Proof.
  intros Hlen Hty Htid HS Hlt.
  unfold _mbim_message_split_fragments. rewrite Hlen. cbn [bind].
  unfold mbim_message_get_message_type in Hty.
  unfold mbim_message_get_transaction_id in Htid.
  pose proof Hlen as Hlen'. apply getter_inv in Hlen' as [B E].
  pose proof (le32_at_u32 _ _ B) as R. rewrite E in R. unfold u32 in R.
  destruct (Z.leb_spec len S); [lia|].
  change (add32 sizeof_header sizeof_fragment_header) with 20.
  assert (EP : sub32 len 20 = len - 20).
  { unfold sub32. apply wrap32_small. unfold u32. lia. }
  assert (EF : sub32 S 20 = 2 ^ 32 - 20 + S).
  { unfold sub32, wrap32. symmetry. apply Z.mod_unique with (q := -1); lia. }
  rewrite EP, EF.
  destruct (Z.eqb_spec (2 ^ 32 - 20 + S) 0); [lia|].
  rewrite Z.div_small by lia. rewrite Z.mod_small by lia.
  destruct (Z.eqb_spec (len - 20) 0); [lia|]. cbn [negb].
  change (add32 0 1) with 1. change (Z.to_nat 1) with 1%nat.
  cbn [split_loop]. rewrite Hty, Htid. cbn [bind].
  destruct (Z.gtb_spec (len - 20) (2 ^ 32 - 20 + S)); [lia|].
  replace (add32 20 (len - 20)) with len
    by (unfold add32; rewrite wrap32_small by (unfold u32; lia); lia).
  eexists. split; [reflexivity|]. split; [reflexivity|]. split; [reflexivity|].
  unfold header_bytes, fragment_header_bytes.
  cbn [info_header info_fragment_header type length_ transaction_id total current].
  rewrite !native_store_to_le. split; reflexivity.
Qed.

Lemma split_below_header_size_witness :
  exists info,
    _mbim_message_split_fragments G_BIG_ENDIAN message_200 10 = Returns (Some [info])
    /\ data_length info = 200.
Proof.
  destruct (split_below_header_size G_BIG_ENDIAN message_200 10 220 3 9
              ltac:(vm_compute; reflexivity) ltac:(vm_compute; reflexivity)
              ltac:(vm_compute; reflexivity) ltac:(lia) ltac:(lia))
    as (info & H & _ & Hd & _).
  exists info. split; [exact H | exact Hd].
Defined.

Lemma wire_fragment_fits (host : byte_order) (ty tid tot cur N F : Z)
    (body : list byte) (i : nat) :
  u32 ty -> u32 tid -> 0 < F ->
  (N - 1) * F < Z.of_nat (length body) <= N * F ->
  20 + Z.of_nat (length body) < 2 ^ 32 ->
  Z.of_nat i < N ->
  let f := wire_fragment ty tid N F body i in
  20 < Z.of_nat (length f) <= F + 20
  /\ length_matches_buffer host f
  /\ mbim_message_get_message_type host f = Returns ty
  /\ mbim_message_get_transaction_id host f = Returns tid.
Proof.
  intros Rty Rtid HF HN Hfit Hi f. unfold f, wire_fragment.
  assert (Hc : 0 < Z.of_nat (length (chunk F body i)) <= F).
  { unfold chunk, reach. rewrite length_firstn, length_skipn. nia. }
  rewrite fragment_message_length. split; [lia|].
  assert (Hb : (length (chunk F body i) <= length body)%nat).
  { unfold chunk. rewrite length_firstn, length_skipn. lia. }
  split; [|split].
  - apply matches_on_wire; [unfold u32; lia|lia].
  - unfold mbim_message_get_message_type.
    rewrite get_message_type_eq, fragment_message_length. within20. fields.
    rewrite wrap32_small by assumption. reflexivity.
  - unfold mbim_message_get_transaction_id.
    rewrite get_transaction_id_eq, fragment_message_length. within20. fields.
    rewrite wrap32_small by assumption. reflexivity.
Qed.

(** X16. Every fragment fits. For a message of a fragmented type whose length
    field is its byte length and a maximum size [S] with [20 < S < length],
    each descriptor of [split] written to the wire is a message of more than
    20 and at most [S] bytes whose length field is its own byte length and
    whose type and transaction id are those of the message split. *)
Theorem split_fragments_fit (host : byte_order) (m : MbimMessage)
    (S len ty tid : Z) :
  MBIM_MESSAGE_IS_FRAGMENT host m = Returns true ->
  mbim_message_get_message_length host m = Returns len ->
  mbim_message_get_message_type host m = Returns ty ->
  mbim_message_get_transaction_id host m = Returns tid ->
  len = Z.of_nat (length m) ->
  S < len -> 20 < S ->
  exists infos fragments,
    _mbim_message_split_fragments host m S = Returns (Some infos)
    /\ fragments_on_wire host infos = Returns fragments
    /\ length fragments = length infos
    /\ Forall (fun f => 20 < Z.of_nat (length f) <= S
                        /\ length_matches_buffer host f
                        /\ mbim_message_get_message_type host f = Returns ty
                        /\ mbim_message_get_transaction_id host f = Returns tid)
         fragments.
Proof.
  intros Hf Hlen Hty Htid Hm Hlt HS.
  unfold mbim_message_get_message_length, mbim_message_get_message_type,
    mbim_message_get_transaction_id in *.
  pose proof (split_some host m S len ty tid Hlen Hty Htid HS Hlt) as Hsplit.
  apply is_fragment_inv in Hf as [_ Hf].
  apply getter_inv in Hlen as [_ Hlen]. apply getter_inv in Hty as [_ Hty].
  apply getter_inv in Htid as [_ Htid].
  unfold offsetof_length, offsetof_type, offsetof_transaction_id in *.
  assert (H20 : (20 <= length m)%nat) by lia.
  on_wire m H20. rewrite fragment_message_length in Hm. subst ty0 len0 tid0.
  unfold u32 in Rlen.
  set (P := Z.of_nat (length body)) in *.
  replace (len - 20) with P in Hsplit by lia.
  set (F := S - 20) in *.
  pose proof (ceil_div_bounds P F ltac:(unfold F; lia) ltac:(unfold P; lia)) as HN.
  set (N := ceil_div P F) in *.
  assert (HN0 : 0 <= N) by nia.
  exists (spec_descriptors host (fragment_message ty len tid tot cur body)
            ty tid N F P),
         (map (wire_fragment ty tid N F body) (seq 0 (Z.to_nat N))).
  split; [exact Hsplit|]. split; [|split].
  - unfold spec_descriptors, P.
    apply (descriptors_on_wire host ty len tid tot cur N F body);
      try assumption; unfold P, F in *; lia.
  - unfold spec_descriptors. rewrite !length_map. reflexivity.
  - apply Forall_forall. intros f Hin. apply in_map_iff in Hin as (i & <- & Hi).
    apply in_seq in Hi.
    pose proof (wire_fragment_fits host ty tid tot cur N F body i Rty Rtid
                  ltac:(unfold F; lia) HN ltac:(unfold P in *; lia) ltac:(lia))
      as (Hsz & Hmatch & Ht & Hi').
    cbv zeta in Hsz. assert (EF : F + 20 = S) by (unfold F; lia).
    split; [lia|]. split; [exact Hmatch|]. split; [exact Ht|exact Hi'].
Qed.

Lemma split_fragments_fit_witness :
  exists infos fragments,
    _mbim_message_split_fragments G_BIG_ENDIAN message_200 64 = Returns (Some infos)
    /\ fragments_on_wire G_BIG_ENDIAN infos = Returns fragments
    /\ length fragments = length infos
    /\ Forall (fun f => 20 < Z.of_nat (length f) <= 64
                        /\ length_matches_buffer G_BIG_ENDIAN f
                        /\ mbim_message_get_message_type G_BIG_ENDIAN f = Returns 3
                        /\ mbim_message_get_transaction_id G_BIG_ENDIAN f
                           = Returns 9)
         fragments.
Proof.
  apply (split_fragments_fit G_BIG_ENDIAN message_200 64 220 3 9);
    try (vm_compute; reflexivity); lia.
Defined.

(* ------------------------------------------------------------------------- *)
(** ** The printable dump *)

Section Printable.

Variable host : byte_order.
Variables failure invalid : Z.
Variables type_name status_name protocol_name : Z -> string.

Let printable := mbim_message_get_printable host failure invalid
                   type_name status_name protocol_name.
Let header := printable_header type_name.

(** X17. The dump of a message fresh from a constructor shows what the
    constructor was given: the header block with length 16, 12 or 16, the
    type OPEN, CLOSE or HOST_ERROR and the transaction id, followed for OPEN
    by the maximum control transfer, for CLOSE by nothing, and for HOST_ERROR
    by the name and the value of the error status code. *)
Theorem printable_of_constructors (uninit : nat -> byte)
    (tid mct err : Z) (line_prefix : string) :
  u32 tid -> u32 mct -> u32 err ->
  (exists m,
      mbim_message_open_new host uninit tid mct = Returns m
      /\ printable m line_prefix
         = Returns (header line_prefix 16 MBIM_MESSAGE_TYPE_OPEN tid
                      ++ line_prefix ++ "Contents:" ++ newline
                      ++ line_prefix ++ "  max_control_transfer = "
                      ++ fmt_u mct ++ newline)%string)
  /\ (exists m,
        mbim_message_close_new host uninit tid = Returns m
        /\ printable m line_prefix
           = Returns (header line_prefix 12 MBIM_MESSAGE_TYPE_CLOSE tid))
  /\ (exists m,
        mbim_message_error_new host uninit tid err = Returns m
        /\ printable m line_prefix
           = Returns (header line_prefix 16 MBIM_MESSAGE_TYPE_HOST_ERROR tid
                        ++ line_prefix ++ "Contents:" ++ newline
                        ++ line_prefix ++ "  error = '" ++ protocol_name err
                        ++ "' (0x" ++ fmt_08x err ++ ")" ++ newline)%string).
Proof using All.
  intros Rtid Rmct Rerr. unfold printable, header, mbim_message_get_printable.
  split; [|split].
  - eexists. split; [apply open_new_bytes|].
    destruct (four_words MBIM_MESSAGE_TYPE_OPEN 16 tid mct) as (E0 & E4 & E8 & E12).
    rewrite get_message_type_eq, get_message_length_eq, get_transaction_id_eq,
      open_get_max_control_transfer_eq, E0, E4, E8, E12.
    rewrite (wrap32_small tid), (wrap32_small mct) by assumption. reflexivity.
  - eexists. split; [apply close_new_bytes|].
    destruct (three_words MBIM_MESSAGE_TYPE_CLOSE 12 tid) as (E0 & E4 & E8).
    rewrite get_message_type_eq, get_message_length_eq, get_transaction_id_eq,
      E0, E4, E8.
    rewrite (wrap32_small tid) by assumption. reflexivity.
  - eexists. split; [apply error_new_bytes|].
    destruct (four_words MBIM_MESSAGE_TYPE_HOST_ERROR 16 tid err)
      as (E0 & E4 & E8 & E12).
    rewrite get_message_type_eq, get_message_length_eq, get_transaction_id_eq,
      error_get_error_status_code_eq, E0, E4, E8, E12.
    rewrite (wrap32_small tid), (wrap32_small err) by assumption. reflexivity.
Qed.

(** X18. For a message whose type is none of those with contents (INVALID,
    CLOSE, or a value outside the enumeration) the dump is the header block
    alone: the length, the name and the value of the type and the
    transaction id, each line after the prefix. *)
Theorem printable_header_only (self : MbimMessage) (line_prefix : string)
    (len t tid : Z) :
  mbim_message_get_message_length host self = Returns len ->
  mbim_message_get_message_type host self = Returns t ->
  mbim_message_get_transaction_id host self = Returns tid ->
  t <> MBIM_MESSAGE_TYPE_OPEN ->
  t <> MBIM_MESSAGE_TYPE_OPEN_DONE -> t <> MBIM_MESSAGE_TYPE_CLOSE_DONE ->
  t <> MBIM_MESSAGE_TYPE_HOST_ERROR -> t <> MBIM_MESSAGE_TYPE_FUNCTION_ERROR ->
  is_fragment_type t = false ->
  printable self line_prefix
  = Returns (line_prefix ++ "Header:" ++ newline
               ++ line_prefix ++ "  length      = " ++ fmt_u len ++ newline
               ++ line_prefix ++ "  type        = " ++ type_name t
               ++ " (0x" ++ fmt_08x t ++ ")" ++ newline
               ++ line_prefix ++ "  transaction = " ++ fmt_u tid ++ newline)%string.
Proof using All.
  unfold mbim_message_get_message_length, mbim_message_get_message_type,
    mbim_message_get_transaction_id.
  intros Hlen Ht Htid H1 H2 H3 H4 H5 Hf.
  unfold printable, mbim_message_get_printable. rewrite Hlen, Ht, Htid.
  cbn [bind]. unfold is_error_type. unfold is_fragment_type in Hf. rewrite Hf.
  destruct (t =? MBIM_MESSAGE_TYPE_INVALID); [reflexivity|].
  destruct (Z.eqb_spec t MBIM_MESSAGE_TYPE_OPEN); [contradiction|].
  destruct (t =? MBIM_MESSAGE_TYPE_CLOSE); [reflexivity|].
  destruct (Z.eqb_spec t MBIM_MESSAGE_TYPE_OPEN_DONE); [contradiction|].
  destruct (Z.eqb_spec t MBIM_MESSAGE_TYPE_CLOSE_DONE); [contradiction|].
  destruct (Z.eqb_spec t MBIM_MESSAGE_TYPE_HOST_ERROR); [contradiction|].
  destruct (Z.eqb_spec t MBIM_MESSAGE_TYPE_FUNCTION_ERROR); [contradiction|].
  reflexivity.
Qed.

(** For a message of a fragmented type that holds its fragment header the
    dump is the header block followed by the fragment header block. *)
Lemma printable_of_fragment (self : MbimMessage) (line_prefix : string)
    (len t tid tot cur : Z) :
  mbim_message_get_message_length host self = Returns len ->
  mbim_message_get_message_type host self = Returns t ->
  mbim_message_get_transaction_id host self = Returns tid ->
  is_fragment_type t = true ->
  MBIM_MESSAGE_FRAGMENT_GET_TOTAL host self = Returns tot ->
  MBIM_MESSAGE_FRAGMENT_GET_CURRENT host self = Returns cur ->
  printable self line_prefix
  = Returns (header line_prefix len t tid
               ++ line_prefix ++ "Fragment header:" ++ newline
               ++ line_prefix ++ "  total   = " ++ fmt_u tot ++ newline
               ++ line_prefix ++ "  current = " ++ fmt_u cur ++ newline)%string.
Proof using All.
  unfold mbim_message_get_message_length, mbim_message_get_message_type,
    mbim_message_get_transaction_id.
  intros Hlen Ht Htid Hf Htot Hcur.
  unfold printable, header, mbim_message_get_printable,
    _mbim_message_fragment_get_total, _mbim_message_fragment_get_current,
    g_assert, MBIM_MESSAGE_IS_FRAGMENT.
  rewrite Hlen, Ht, Htid, Htot, Hcur. cbn [bind].
  fold (is_fragment_type t). rewrite Hf. cbn [bind].
  assert (Hcases : t = MBIM_MESSAGE_TYPE_COMMAND
                   \/ t = MBIM_MESSAGE_TYPE_COMMAND_DONE
                   \/ t = MBIM_MESSAGE_TYPE_INDICATION).
  { unfold is_fragment_type in Hf.
    apply orb_true_iff in Hf as [Hf|Hf];
      [apply orb_true_iff in Hf as [Hf|Hf]|]; apply Z.eqb_eq in Hf; tauto. }
  destruct Hcases as [ -> | [ -> | -> ] ]; reflexivity.
Qed.

End Printable.

Lemma printable_of_constructors_witness :
  exists m,
    mbim_message_close_new G_BIG_ENDIAN (fun _ => xff) 7 = Returns m
    /\ mbim_message_get_printable G_BIG_ENDIAN 2 0 (fun _ => "close"%string)
         (fun _ => "status"%string) (fun _ => "error"%string) m ">"
       = Returns (printable_header (fun _ => "close"%string) ">" 12 2 7).
Proof.
  destruct (proj2 (printable_of_constructors G_BIG_ENDIAN 2 0
              (fun _ => "close"%string) (fun _ => "status"%string)
              (fun _ => "error"%string) (fun _ => xff) 7 0 0 ">"
              ltac:(unfold u32; lia) ltac:(unfold u32; lia)
              ltac:(unfold u32; lia))) as [H _].
  exact H.
Defined.

Lemma printable_header_only_witness :
  mbim_message_get_printable G_LITTLE_ENDIAN 2 0 (fun _ => "unknown"%string)
    (fun _ => "status"%string) (fun _ => "error"%string)
    (le_bytes 9 ++ le_bytes 12 ++ le_bytes 5) ""
  = Returns (printable_header (fun _ => "unknown"%string) "" 12 9 5).
Proof.
  apply (printable_header_only G_LITTLE_ENDIAN 2 0 (fun _ => "unknown"%string)
           (fun _ => "status"%string) (fun _ => "error"%string)
           (le_bytes 9 ++ le_bytes 12 ++ le_bytes 5) "" 12 9 5);
    try (vm_compute; reflexivity); discriminate.
Defined.

(** X19. The dump of a message the collector has completed: its header
    block, with the length, type and transaction id the message had before
    completion, followed by a fragment header block that reads [total = 1],
    [current = 0]. *)
Theorem printable_after_complete (host : byte_order) (failure invalid : Z)
    (type_name status_name protocol_name : Z -> string)
    (self self' : MbimMessage) (line_prefix : string) :
  _mbim_message_fragment_collector_complete host self = Returns (self', true) ->
  exists len t tid,
    mbim_message_get_message_length host self = Returns len
    /\ mbim_message_get_message_type host self = Returns t
    /\ mbim_message_get_transaction_id host self = Returns tid
    /\ mbim_message_get_printable host failure invalid
         type_name status_name protocol_name self' line_prefix
       = Returns (printable_header type_name line_prefix len t tid
                    ++ line_prefix ++ "Fragment header:" ++ newline
                    ++ line_prefix ++ "  total   = 1" ++ newline
                    ++ line_prefix ++ "  current = 0" ++ newline)%string.
Proof.
  intros H. pose proof (complete_returns _ _ _ H) as (Hs & Ts).
  on_wire self Hs. rewrite complete_on_wire in H by assumption.
  destruct (cur =? sub32 tot 1); [|discriminate].
  injection H as <-. exists len, ty, tid.
  assert (G : forall tot' cur',
             mbim_message_get_message_length host
               (fragment_message ty len tid tot' cur' body) = Returns len
             /\ mbim_message_get_message_type host
                  (fragment_message ty len tid tot' cur' body) = Returns ty
             /\ mbim_message_get_transaction_id host
                  (fragment_message ty len tid tot' cur' body) = Returns tid).
  { intros tot' cur'.
    unfold mbim_message_get_message_length, mbim_message_get_message_type,
      mbim_message_get_transaction_id.
    rewrite get_message_length_eq, get_message_type_eq, get_transaction_id_eq,
      fragment_message_length. within20. fields.
    rewrite !wrap32_small by assumption. repeat split. }
  destruct (G tot cur) as (G1 & G2 & G3). destruct (G 1 0) as (K1 & K2 & K3).
  split; [exact G1|]. split; [exact G2|]. split; [exact G3|].
  apply (printable_of_fragment host failure invalid type_name status_name
           protocol_name _ line_prefix len ty tid 1 0 K1 K2 K3 Ts).
  - rewrite fragment_get_total_eq, fragment_message_length. within20. fields.
    reflexivity.
  - rewrite fragment_get_current_eq, fragment_message_length. within20. fields.
    reflexivity.
Qed.

Lemma printable_after_complete_witness :
  exists len t tid,
    mbim_message_get_message_length G_LITTLE_ENDIAN fragment_1_of_2 = Returns len
    /\ mbim_message_get_message_type G_LITTLE_ENDIAN fragment_1_of_2 = Returns t
    /\ mbim_message_get_transaction_id G_LITTLE_ENDIAN fragment_1_of_2 = Returns tid
    /\ mbim_message_get_printable G_LITTLE_ENDIAN 2 0 (fun _ => "command"%string)
         (fun _ => "status"%string) (fun _ => "error"%string)
         (fragment_message MBIM_MESSAGE_TYPE_COMMAND 22 9 1 0 [x0e; x0f]) "  "
       = Returns (printable_header (fun _ => "command"%string) "  " len t tid
                    ++ "  " ++ "Fragment header:" ++ newline
                    ++ "  " ++ "  total   = 1" ++ newline
                    ++ "  " ++ "  current = 0" ++ newline)%string.
Proof.
  apply (printable_after_complete G_LITTLE_ENDIAN 2 0 (fun _ => "command"%string)
           (fun _ => "status"%string) (fun _ => "error"%string) fragment_1_of_2).
  vm_compute. reflexivity.
Defined.

(* ------------------------------------------------------------------------- *)
(** ** Independence of the byte order of the host *)

Ltac same_on_hosts :=
  repeat first
    [ reflexivity
    | progress rewrite ?is_fragment_eq, ?fragment_get_current_eq,
        ?fragment_get_total_eq, ?get_message_length_eq, ?get_message_type_eq,
        ?get_transaction_id_eq, ?dup_eq, ?store32_zero, ?store32_to_le,
        ?store32_load32, ?open_get_max_control_transfer_eq,
        ?open_done_get_status_code_eq, ?close_done_get_status_code_eq,
        ?error_get_error_status_code_eq, ?open_done_get_result_eq,
        ?close_done_get_result_eq, ?error_get_error_eq
    | match goal with
      | |- context [if ?c then _ else _] => destruct c eqn:?
      end; cbn [bind negb] ].

Lemma descriptor_image_in_loop (host : byte_order) (ty len tid tot cur dl : Z)
    (p : guint8_ptr) :
  descriptor_image host
    {| info_header :=
         {| type := GUINT32_TO_LE host ty;
            length_ := GUINT32_TO_LE host len;
            transaction_id := GUINT32_TO_LE host tid |};
       info_fragment_header :=
         {| total := GUINT32_TO_LE host tot; current := GUINT32_TO_LE host cur |};
       data_length := dl;
       data := p |}
  = (le_bytes ty ++ le_bytes len ++ le_bytes tid, le_bytes tot ++ le_bytes cur,
     dl, p).
Proof.
  unfold descriptor_image, header_bytes, fragment_header_bytes.
  cbn [info_header info_fragment_header type length_ transaction_id total current
         data_length data].
  rewrite !native_store_to_le. reflexivity.
Qed.

Lemma split_loop_same_on_hosts (h1 h2 : byte_order) (self : MbimMessage)
    (hl F N : Z) (n : nat) :
  forall (i : Z) (p : guint8_ptr) (dl : Z) (a1 a2 : list fragment_info),
    map (descriptor_image h1) a1 = map (descriptor_image h2) a2 ->
    (l <- split_loop h1 self hl F N n i p dl a1 ;;
     Returns (map (descriptor_image h1) l))
    = (l <- split_loop h2 self hl F N n i p dl a2 ;;
       Returns (map (descriptor_image h2) l)).
Proof.
  induction n as [|n IH]; intros i p dl a1 a2 Hrel.
  - cbn [split_loop bind]. rewrite Hrel. reflexivity.
  - cbn [split_loop]. rewrite !get_message_type_eq, !get_transaction_id_eq.
    destruct (4 <=? length self)%nat; cbn [bind]; [|reflexivity].
    destruct (12 <=? length self)%nat; cbn [bind]; [|reflexivity].
    apply IH. unfold g_array_insert_val.
    rewrite !map_app, !map_cons, <- !firstn_map, <- !skipn_map, Hrel.
    rewrite !descriptor_image_in_loop. reflexivity.
Qed.

Lemma fragments_on_wire_of_images (h1 h2 : byte_order) (l1 : list fragment_info) :
  forall l2,
    map (descriptor_image h1) l1 = map (descriptor_image h2) l2 ->
    fragments_on_wire h1 l1 = fragments_on_wire h2 l2.
Proof.
  induction l1 as [|a l1 IH]; intros [|b l2] H; try discriminate; [reflexivity|].
  cbn [map] in H. injection H as Hh Hf Hl Hd Hrest.
  cbn [fragments_on_wire]. unfold fragment_on_wire, fragment_payload.
  rewrite Hh, Hf, Hl, Hd, (IH l2 Hrest). reflexivity.
Qed.

(** X20. Nothing the message interface returns and nothing the collector
    writes depends on the byte order of the host: the constructors, the
    header accessors, [dup], every typed accessor (the maximum control
    transfer, the three status codes, the two results and the error), the
    printable dump, the fragment accessors and the three collector functions
    give the same bytes, values, errors and failures on a little-endian and
    on a big-endian host. *)
Theorem same_on_both_hosts (uninit : nat -> byte) (failure invalid : Z)
    (type_name status_name protocol_name : Z -> string)
    (status_format : Z -> option string)
    (self fragment : MbimMessage) (tid arg : Z) (line_prefix : string)
    (h1 h2 : byte_order) :
  mbim_message_open_new h1 uninit tid arg = mbim_message_open_new h2 uninit tid arg
  /\ mbim_message_close_new h1 uninit tid = mbim_message_close_new h2 uninit tid
  /\ mbim_message_error_new h1 uninit tid arg
     = mbim_message_error_new h2 uninit tid arg
  /\ mbim_message_get_message_type h1 self = mbim_message_get_message_type h2 self
  /\ mbim_message_get_message_length h1 self
     = mbim_message_get_message_length h2 self
  /\ mbim_message_get_transaction_id h1 self
     = mbim_message_get_transaction_id h2 self
  /\ mbim_message_dup h1 self = mbim_message_dup h2 self
  /\ mbim_message_open_get_max_control_transfer h1 self
     = mbim_message_open_get_max_control_transfer h2 self
  /\ mbim_message_open_done_get_status_code h1 failure self
     = mbim_message_open_done_get_status_code h2 failure self
  /\ mbim_message_open_done_get_result h1 status_format self
     = mbim_message_open_done_get_result h2 status_format self
  /\ mbim_message_close_done_get_status_code h1 failure self
     = mbim_message_close_done_get_status_code h2 failure self
  /\ mbim_message_close_done_get_result h1 status_format self
     = mbim_message_close_done_get_result h2 status_format self
  /\ mbim_message_error_get_error_status_code h1 invalid self
     = mbim_message_error_get_error_status_code h2 invalid self
  /\ mbim_message_error_get_error h1 protocol_name self
     = mbim_message_error_get_error h2 protocol_name self
  /\ mbim_message_get_printable h1 failure invalid type_name status_name
       protocol_name self line_prefix
     = mbim_message_get_printable h2 failure invalid type_name status_name
         protocol_name self line_prefix
  /\ _mbim_message_is_fragment h1 self = _mbim_message_is_fragment h2 self
  /\ _mbim_message_fragment_get_total h1 self
     = _mbim_message_fragment_get_total h2 self
  /\ _mbim_message_fragment_get_current h1 self
     = _mbim_message_fragment_get_current h2 self
  /\ _mbim_message_fragment_get_payload h1 self
     = _mbim_message_fragment_get_payload h2 self
  /\ _mbim_message_fragment_collector_init h1 fragment
     = _mbim_message_fragment_collector_init h2 fragment
  /\ _mbim_message_fragment_collector_add h1 self fragment
     = _mbim_message_fragment_collector_add h2 self fragment
  /\ _mbim_message_fragment_collector_complete h1 self
     = _mbim_message_fragment_collector_complete h2 self.
Proof.
  unfold mbim_message_get_message_type, mbim_message_get_message_length,
    mbim_message_get_transaction_id.
  rewrite !open_new_bytes, !close_new_bytes, !error_new_bytes.
  unfold _mbim_message_is_fragment, _mbim_message_fragment_get_total,
    _mbim_message_fragment_get_current.
  repeat split.
  - same_on_hosts.
  - same_on_hosts.
  - same_on_hosts.
  - same_on_hosts.
  - same_on_hosts.
  - same_on_hosts.
  - same_on_hosts.
  - same_on_hosts.
  - same_on_hosts.
  - same_on_hosts.
  - same_on_hosts.
  - unfold mbim_message_get_printable, _mbim_message_fragment_get_total,
      _mbim_message_fragment_get_current, g_assert.
    same_on_hosts.
  - same_on_hosts.
  - unfold g_assert. same_on_hosts.
  - unfold g_assert. same_on_hosts.
  - unfold _mbim_message_fragment_get_payload, g_assert. same_on_hosts.
  - unfold _mbim_message_fragment_collector_init, g_assert. same_on_hosts.
  - unfold _mbim_message_fragment_collector_add,
      _mbim_message_fragment_get_payload, g_assert, g_byte_array_append,
      read_bytes.
    same_on_hosts.
  - unfold _mbim_message_fragment_collector_complete, g_assert. same_on_hosts.
Qed.

(** X21. Nor do the fragments of [split]: for every message and every maximum
    size, the descriptors hold the same bytes in the memory of a little-endian
    and of a big-endian host, with the same slices, and so the fragments
    written to the wire are the same; and where [split] declines or fails on
    one host it does on the other. *)
Theorem split_same_on_both_hosts (h1 h2 : byte_order) (m : MbimMessage) (S : Z) :
  split_images h1 m S = split_images h2 m S
  /\ split_on_wire h1 m S = split_on_wire h2 m S.
Proof.
  unfold split_images, split_on_wire, _mbim_message_split_fragments,
    mbim_message_get_message_length.
  rewrite !get_message_length_eq.
  destruct (8 <=? length m)%nat; cbn [bind]; [|split; reflexivity].
  destruct (le32_at 4 m <=? S); cbn [bind]; [split; reflexivity|].
  set (hl := add32 sizeof_header sizeof_fragment_header).
  set (P := sub32 (le32_at 4 m) hl). set (F := sub32 S hl).
  destruct (F =? 0); cbn [bind]; [split; reflexivity|].
  set (N := if negb (P mod F =? 0) then add32 (P / F) 1 else P / F).
  pose proof (split_loop_same_on_hosts h1 h2 m hl F N
                (Z.to_nat N) 0
                {| region := m; offset := offsetof_fragment_buffer |} P [] []
                eq_refl) as E.
  destruct (split_loop h1 m hl F N (Z.to_nat N) 0 _ P [])
    as [l1|c1];
    destruct (split_loop h2 m hl F N (Z.to_nat N) 0 _ P [])
    as [l2|c2]; cbn [bind] in E |- *; try discriminate E.
  - injection E as E. cbn [option_map]. rewrite E.
    rewrite (fragments_on_wire_of_images h1 h2 l1 l2 E).
    split; reflexivity.
  - injection E as ->. split; reflexivity.
Qed.

(* ------------------------------------------------------------------------- *)
(** ** Repeated and wrapped fragment numbers *)

(** X22. A fragment is taken once: right after [add] has accepted a fragment,
    giving it the same fragment again is rejected as out of sequence and
    leaves the message of the collector as the first call made it. *)
Theorem add_same_fragment_again (host : byte_order)
    (self fragment self' : MbimMessage) :
  _mbim_message_fragment_collector_add host self fragment
    = Returns (self', Success tt) ->
  exists e,
    _mbim_message_fragment_collector_add host self' fragment
      = Returns (self', Failure e)
    /\ domain e = MBIM_PROTOCOL_ERROR
    /\ code e = MBIM_PROTOCOL_ERROR_FRAGMENT_OUT_OF_SEQUENCE.
Proof.
  intros H. pose proof (add_returns _ _ _ _ H) as (Hs & Hf & Ts & Tf).
  on_wire self Hs. on_wire fragment Hf.
  rewrite add_on_wire in H by assumption.
  assert (Hne : (cur0 =? sub32 cur0 1) = false).
  { apply Z.eqb_neq. rewrite sub32_one by assumption. unfold u32 in *.
    destruct (Z.eqb_spec cur0 0); lia. }
  assert (Again : forall len' body',
             u32 len' ->
             exists e,
               _mbim_message_fragment_collector_add host
                 (fragment_message ty len' tid tot cur0 body')
                 (fragment_message ty0 len0 tid0 tot0 cur0 body0)
               = Returns (fragment_message ty len' tid tot cur0 body', Failure e)
               /\ domain e = MBIM_PROTOCOL_ERROR
               /\ code e = MBIM_PROTOCOL_ERROR_FRAGMENT_OUT_OF_SEQUENCE).
  { intros len' body' R'. rewrite add_on_wire by assumption. rewrite Hne.
    eexists. split; [reflexivity|]. split; reflexivity. }
  destruct (cur =? sub32 cur0 1); [|discriminate].
  destruct (sub32 len0 20 =? 0).
  - injection H as <-. apply Again. assumption.
  - destruct (G_MAXUINT - Z.of_nat (20 + length body) <? sub32 len0 20);
      [discriminate|].
    destruct (20 + sub32 len0 20 <=? Z.of_nat (20 + length body0));
      [|discriminate].
    injection H as <-. apply Again. apply wrap32_u32.
Qed.

Lemma add_same_fragment_again_witness :
  exists e,
    _mbim_message_fragment_collector_add G_BIG_ENDIAN
      (fragment_message MBIM_MESSAGE_TYPE_COMMAND 26 9 2 1
         [x0a; x0b; x0c; x0d; x0e; x0f]) fragment_1_of_2
    = Returns (fragment_message MBIM_MESSAGE_TYPE_COMMAND 26 9 2 1
                 [x0a; x0b; x0c; x0d; x0e; x0f], Failure e)
    /\ domain e = MBIM_PROTOCOL_ERROR
    /\ code e = MBIM_PROTOCOL_ERROR_FRAGMENT_OUT_OF_SEQUENCE.
Proof.
  apply (add_same_fragment_again G_BIG_ENDIAN fragment_0_of_2 fragment_1_of_2).
  vm_compute. reflexivity.
Defined.

(** X23. Fragment numbers wrap around on [guint32]: a collector whose
    [current] is [2^32 - 1] takes a fragment numbered 0 as the next one,
    appends its payload and stores 0 as its [current]. *)
Theorem add_wraps_around (host : byte_order)
    (ty len tid tot ty' tid' tot' : Z) (body payload : list byte) :
  u32 ty -> is_fragment_type ty = true ->
  u32 ty' -> is_fragment_type ty' = true ->
  u32 len -> u32 tot -> u32 tot' ->
  payload <> [] ->
  Z.of_nat (20 + length body) + Z.of_nat (length payload) <= G_MAXUINT ->
  _mbim_message_fragment_collector_add host
    (fragment_message ty len tid tot (2 ^ 32 - 1) body)
    (fragment_message ty' (20 + Z.of_nat (length payload)) tid' tot' 0 payload)
  = Returns (fragment_message ty (add32 len (Z.of_nat (length payload))) tid tot 0
               (body ++ payload), Success tt).
Proof.
  intros Rty Tf Rty' Tf' Rlen Rtot Rtot' Hne Hmax. unfold G_MAXUINT in Hmax.
  assert (Hp : 0 < Z.of_nat (length payload))
    by (destruct payload; [contradiction|cbn [length]; lia]).
  rewrite add_on_wire; try assumption; try (unfold u32; lia).
  change (2 ^ 32 - 1 =? sub32 0 1) with true. cbv iota.
  replace (sub32 (20 + Z.of_nat (length payload)) 20)
    with (Z.of_nat (length payload))
    by (unfold sub32; rewrite wrap32_small by (unfold u32; lia); lia).
  destruct (Z.eqb_spec (Z.of_nat (length payload)) 0); [lia|].
  destruct (Z.ltb_spec (G_MAXUINT - Z.of_nat (20 + length body))
              (Z.of_nat (length payload))); [unfold G_MAXUINT in *; lia|].
  destruct (Z.leb_spec (20 + Z.of_nat (length payload))
              (Z.of_nat (20 + length payload))); [|lia].
  rewrite Nat2Z.id, firstn_all. reflexivity.
Qed.

Lemma add_wraps_around_witness :
  _mbim_message_fragment_collector_add G_LITTLE_ENDIAN
    (fragment_message MBIM_MESSAGE_TYPE_COMMAND 22 9 2 (2 ^ 32 - 1) [x0a; x0b])
    (fragment_message MBIM_MESSAGE_TYPE_COMMAND (20 + 1) 9 2 0 [x0c])
  = Returns (fragment_message MBIM_MESSAGE_TYPE_COMMAND (add32 22 1) 9 2 0
               [x0a; x0b; x0c], Success tt).
Proof.
  apply (add_wraps_around G_LITTLE_ENDIAN MBIM_MESSAGE_TYPE_COMMAND 22 9 2
           MBIM_MESSAGE_TYPE_COMMAND 9 2 [x0a; x0b] [x0c]);
    try reflexivity; try (unfold u32, MBIM_MESSAGE_TYPE_COMMAND; lia);
    try discriminate; unfold G_MAXUINT; simpl; lia.
Defined.
